(** * DirectX Tool Kit: Model.cpp and ToneMapPostProcess.cpp

    A shallow embedding of the draw orchestration of [Model], [ModelMesh]
    and [ModelMeshPart] (Src/Model.cpp) and of the shader permutation
    selection of [ToneMapPostProcess] (Src/ToneMapPostProcess.cpp).

    Conventions of the embedding.
    - Every method that talks to the device context, to an effect or to a
      caller-supplied callback is a computation in [exec]: it yields the
      sequence of calls it made on those collaborators, in program order,
      and how it ended (normal return, C++ exception, or undefined
      behaviour such as the dereference of a null pointer).  Calls made
      before an exception stay in the sequence: nothing is rolled back.
    - [assert] is the macro of <cassert>: a diagnostic of debug builds that
      is compiled to nothing under NDEBUG.  The embedding follows the
      program with assertions compiled out; each assertion of the source is
      recalled by a comment at its place.
    - Pointers are addresses ([addr]); a pointer that may be null is an
      [option].
    - Model.h and PostProcess.h, which declare the classes, are not among
      the sources at hand: a record holds the members that the member
      functions use, with the types that their uses show. *)

From Stdlib Require Import ZArith NArith List Lia.
From stdpp Require Import base option list sorting strings gmap.

Local Open Scope N_scope.

(** ** Exceptions, outcomes and the call-trace monad *)

Definition addr := N.

(** The exception objects thrown by the two translation units. *)
Inductive exception : Type :=
| std_invalid_argument (what : string)
| std_runtime_error (what : string)
| std_out_of_range (what : string)
| std_exception (what : string)
| com_exception (hr : Z).

Inductive outcome (A : Type) : Type :=
| Normal (a : A)
| Throws (e : exception)
| Undefined.
Arguments Normal {A} a.
Arguments Throws {A} e.
Arguments Undefined {A}.

(** Fixed-function state objects handed out by [CommonStates]. *)
Inductive BlendState := Opaque | AlphaBlend | NonPremultiplied.
Inductive DepthStencilState := DepthDefault | DepthRead.
Inductive RasterizerState := Wireframe | CullCounterClockwise | CullClockwise.
Inductive SamplerState := LinearWrap.

Inductive DXGI_FORMAT := DXGI_FORMAT_R16_UINT | DXGI_FORMAT_R32_UINT.

(** The element count of the vertex declaration is all the code looks at. *)
Definition D3D11_INPUT_ELEMENT_DESC := N.

(** d3d11.h: the number of input-assembler element slots. *)
Definition D3D11_IA_VERTEX_INPUT_STRUCTURE_ELEMENT_COUNT : N := 32.

(** An effect object: its address and the two interfaces the code probes
    with [dynamic_cast]. *)
Record IEffect := {
  effect_this : addr;
  as_IEffectMatrices : bool;
  as_IEffectSkinning : bool
}.

(** The line feed that the escape [\n] of a C++ string literal stands
    for. *)
Definition line_feed : string := String (Ascii.ascii_of_nat 10) EmptyString.

Section Embedding.

(** [XMMATRIX] is only ever copied by this code. *)
Context {XMMATRIX : Type}.

(** [ModelBone::c_Invalid] is declared in Model.h, which is not part of the
    sources at hand: it is a parameter of the development. *)
Variable c_Invalid : N.

(** Calls on the collaborators: [ID3D11DeviceContext], the effect
    interfaces, the caller's callbacks and the debug output. *)
Inductive Call : Type :=
| IASetInputLayout (layout : option addr)
| IASetVertexBuffers (startSlot numBuffers : N) (vb : option addr) (stride offset : N)
| IASetIndexBuffer (ib : option addr) (format : DXGI_FORMAT) (offset : N)
| IASetPrimitiveTopology (topology : N)
| DrawIndexed (indexCount startIndex : N) (baseVertex : Z)
| DrawIndexedInstanced (indexCount instanceCount startIndex : N) (baseVertex : Z)
                       (startInstance : N)
| OMSetBlendState (b : BlendState) (sampleMask : N)
| OMSetDepthStencilState (d : DepthStencilState) (stencilRef : N)
| RSSetState (r : RasterizerState)
| PSSetSamplers (startSlot numSamplers : N) (samplers : list SamplerState)
| Effect_Apply (e : addr)
| Effect_SetMatrices (e : addr) (world view projection : XMMATRIX)
| Effect_SetWorld (e : addr) (world : XMMATRIX)
| Effect_SetView (e : addr) (view : XMMATRIX)
| Effect_SetProjection (e : addr) (projection : XMMATRIX)
| SetCustomState
| SetEffect (e : addr)
| CreateInputLayoutFromEffect (e : option addr) (desc : list D3D11_INPUT_ELEMENT_DESC)
| DebugTrace (msg : string).

Definition exec (A : Type) : Type := (list Call * outcome A)%type.

Definition calls {A} (c : exec A) : list Call := fst c.
Definition result {A} (c : exec A) : outcome A := snd c.

Definition exec_ret {A} (a : A) : exec A := ([], Normal a).

Definition exec_bind {A B} (f : A → exec B) (c : exec A) : exec B :=
  match c with
  | (t, Normal a) => let '(t', r) := f a in (t ++ t', r)
  | (t, Throws e) => (t, Throws e)
  | (t, Undefined) => (t, Undefined)
  end.

#[global] Instance exec_mret : MRet exec := @exec_ret.
#[global] Instance exec_mbind : MBind exec := @exec_bind.

Definition call (c : Call) : exec unit := ([c], Normal tt).
Definition throw {A} (e : exception) : exec A := ([], Throws e).
Definition undefined {A} : exec A := ([], Undefined).

(** [p->...] on a pointer that may be null. *)
Definition deref {A} (p : option A) : exec A :=
  match p with
  | Some a => mret a
  | None => undefined
  end.

(** A range-based [for]: the body runs on each element in sequence order;
    an exception or undefined behaviour in the body ends the loop. *)
Fixpoint for_each {A} (l : list A) (body : A → exec unit) : exec unit :=
  match l with
  | [] => mret tt
  | x :: l' => body x ;; for_each l' body
  end.

(** ** ModelMeshPart *)

Record ModelMeshPart := {
  indexCount : N;
  startIndex : N;
  vertexOffset : Z;
  vertexStride : N;
  primitiveType : N;
  indexFormat : DXGI_FORMAT;
  inputLayout : option addr;
  indexBuffer : option addr;
  vertexBuffer : option addr;
  effect : option IEffect;
  vbDecl : option (list D3D11_INPUT_ELEMENT_DESC);
  isAlpha : bool
}.

(** [ModelMeshPart::Draw].  [setCustomState] tells whether the
    [std::function] holds a target. *)
Definition ModelMeshPart_Draw (part : ModelMeshPart) (ieffect : option IEffect)
    (iinputLayout : option addr) (setCustomState : bool) : exec unit :=
  call (IASetInputLayout iinputLayout) ;;
  call (IASetVertexBuffers 0 1 (vertexBuffer part) (vertexStride part) 0) ;;
  call (IASetIndexBuffer (indexBuffer part) (indexFormat part) 0) ;;
  (* assert(ieffect != nullptr); *)
  e ← deref ieffect ;
  call (Effect_Apply (effect_this e)) ;;
  (if setCustomState then call SetCustomState else mret tt) ;;
  call (IASetPrimitiveTopology (primitiveType part)) ;;
  call (DrawIndexed (indexCount part) (startIndex part) (vertexOffset part)).

(** [ModelMeshPart::DrawInstanced]. *)
Definition ModelMeshPart_DrawInstanced (part : ModelMeshPart) (ieffect : option IEffect)
    (iinputLayout : option addr) (instanceCount startInstanceLocation : N)
    (setCustomState : bool) : exec unit :=
  call (IASetInputLayout iinputLayout) ;;
  call (IASetVertexBuffers 0 1 (vertexBuffer part) (vertexStride part) 0) ;;
  call (IASetIndexBuffer (indexBuffer part) (indexFormat part) 0) ;;
  (* assert(ieffect != nullptr); *)
  e ← deref ieffect ;
  call (Effect_Apply (effect_this e)) ;;
  (if setCustomState then call SetCustomState else mret tt) ;;
  call (IASetPrimitiveTopology (primitiveType part)) ;;
  call (DrawIndexedInstanced (indexCount part) instanceCount (startIndex part)
                             (vertexOffset part) startInstanceLocation).

(** [dynamic_cast<IEffectMatrices*>(p)] and
    [dynamic_cast<IEffectSkinning*>(p)]: null on a null pointer and on an
    object without the interface. *)
Definition dynamic_cast_IEffectMatrices (p : option IEffect) : option IEffect :=
  match p with
  | Some e => if as_IEffectMatrices e then Some e else None
  | None => None
  end.

Definition dynamic_cast_IEffectSkinning (p : option IEffect) : option IEffect :=
  match p with
  | Some e => if as_IEffectSkinning e then Some e else None
  | None => None
  end.

(** The device, as far as this code uses it: what the input-layout
    factory [CreateInputLayoutFromEffect] of DirectXHelpers.h answers for an
    effect and a vertex declaration, namely an HRESULT and the pointer it
    leaves in a slot that held null. *)
Definition ID3D11Device : Type :=
  option IEffect → list D3D11_INPUT_ELEMENT_DESC → Z * option addr.

(** Modelled from the spec: PlatformHelpers.h, which defines
    [ThrowIfFailed], is not among the sources at hand, and the error
    taxonomy of the specification has no name for what it throws.  It is
    taken to be the helper of the DirectX Tool Kit: a failed HRESULT (a
    negative one) becomes an exception of the helper's own class, which is
    none of the standard ones. *)
Definition ThrowIfFailed (hr : Z) : exec unit :=
  if (hr <? 0)%Z then throw (com_exception hr) else mret tt.

(** [ModelMeshPart::CreateInputLayout].  [iinputLayout] is the out
    parameter: [None] for a null [ID3D11InputLayout**], [Some v] for a slot
    that holds [v] on entry.  The first component of the answer is the slot
    on exit. *)
Definition ModelMeshPart_CreateInputLayout (part : ModelMeshPart)
    (d3dDevice : ID3D11Device) (ieffect : option IEffect)
    (iinputLayout : option (option addr)) : option (option addr) * exec unit :=
  let slot := match iinputLayout with
              | Some _ => Some None
              | None => None
              end in
  match vbDecl part with
  | None =>
      (slot, throw (std_runtime_error "Model mesh part missing vertex buffer input elements data"))
  | Some decl =>
      if bool_decide (decl = []) then
        (slot, throw (std_runtime_error "Model mesh part missing vertex buffer input elements data"))
      else if D3D11_IA_VERTEX_INPUT_STRUCTURE_ELEMENT_COUNT <? N.of_nat (length decl) then
        (slot, throw (std_runtime_error "Model mesh part input layout size is too large for DirectX 11"))
      else
        let '(hr, created) := d3dDevice ieffect decl in
        (match slot with Some _ => Some created | None => None end,
         call (CreateInputLayoutFromEffect (effect_this <$> ieffect) decl) ;;
         ThrowIfFailed hr)
        (* assert(iinputLayout != nullptr && *iinputLayout != nullptr); *)
  end.

(** [ModelMeshPart::ModifyEffect]: the part on exit, and the calls. *)
Definition ModelMeshPart_ModifyEffect (part : ModelMeshPart)
    (d3dDevice : ID3D11Device) (ieffect : option IEffect) (isalpha : bool)
    : ModelMeshPart * exec unit :=
  match vbDecl part with
  | None =>
      (part, throw (std_runtime_error "Model mesh part missing vertex buffer input elements data"))
  | Some decl =>
      if bool_decide (decl = []) then
        (part, throw (std_runtime_error "Model mesh part missing vertex buffer input elements data"))
      else if D3D11_IA_VERTEX_INPUT_STRUCTURE_ELEMENT_COUNT <? N.of_nat (length decl) then
        (part, throw (std_runtime_error "Model mesh part input layout size is too large for DirectX 11"))
      else
        (* assert(ieffect != nullptr); *)
        (* assert(d3dDevice != nullptr); *)
        let '(hr, created) := d3dDevice ieffect decl in
        ({| indexCount := indexCount part; startIndex := startIndex part;
            vertexOffset := vertexOffset part; vertexStride := vertexStride part;
            primitiveType := primitiveType part; indexFormat := indexFormat part;
            inputLayout := created;
            indexBuffer := indexBuffer part; vertexBuffer := vertexBuffer part;
            effect := ieffect;
            vbDecl := vbDecl part;
            isAlpha := isalpha |},
         call (CreateInputLayoutFromEffect (effect_this <$> ieffect) decl) ;;
         ThrowIfFailed hr)
  end.

(** ** ModelMesh *)

Record ModelMesh := {
  boneIndex : N;
  ccw : bool;
  pmalpha : bool;
  boneInfluences : list N;
  meshParts : list ModelMeshPart
}.

(** [ModelMesh::PrepareForRendering]. *)
Definition ModelMesh_PrepareForRendering (mesh : ModelMesh) (alpha wireframe : bool)
    : exec unit :=
  (* assert(deviceContext != nullptr); *)
  let '(blendState, depthStencilState) :=
    if alpha then
      if pmalpha mesh then (AlphaBlend, DepthRead)
      else (NonPremultiplied, DepthRead)
    else (Opaque, DepthDefault) in
  call (OMSetBlendState blendState 0xFFFFFFFF) ;;
  call (OMSetDepthStencilState depthStencilState 0) ;;
  (if wireframe then call (RSSetState Wireframe)
   else call (RSSetState (if ccw mesh then CullCounterClockwise else CullClockwise))) ;;
  call (PSSetSamplers 0 2 [LinearWrap; LinearWrap]).

(** [ModelMesh::Draw]. *)
Definition ModelMesh_Draw (mesh : ModelMesh) (world view projection : XMMATRIX)
    (alpha : bool) (setCustomState : bool) : exec unit :=
  (* assert(deviceContext != nullptr); *)
  for_each (meshParts mesh) (λ part,
    (* assert(part != nullptr); *)
    if negb (Bool.eqb (isAlpha part) alpha) then
      (* Skip alpha parts when drawing opaque or skip opaque parts if drawing alpha *)
      mret tt
    else
      let imatrices := dynamic_cast_IEffectMatrices (effect part) in
      match imatrices with
      | Some e => call (Effect_SetMatrices (effect_this e) world view projection)
      | None => mret tt
      end ;;
      ModelMeshPart_Draw part (effect part) (inputLayout part) setCustomState).

(** [boneTransforms[i]] through a pointer that may be null, into an array
    that holds [length a] matrices. *)
Definition read_matrix (boneTransforms : option (list XMMATRIX)) (i : N) : exec XMMATRIX :=
  a ← deref boneTransforms ;
  deref (a !! N.to_nat i).

(** [ModelMesh::DrawSkinned]. *)
Definition ModelMesh_DrawSkinned (mesh : ModelMesh) (nbones : N)
    (boneTransforms : option (list XMMATRIX)) (view projection : XMMATRIX)
    (alpha : bool) (setCustomState : bool) : exec unit :=
  (* assert(deviceContext != nullptr); *)
  (if (nbones =? 0) || negb (bool_decide (is_Some boneTransforms)) then
     throw (std_invalid_argument "Bone transforms array required")
   else mret tt) ;;
  for_each (meshParts mesh) (λ part,
    (* assert(part != nullptr); *)
    if negb (Bool.eqb (isAlpha part) alpha) then
      (* Skip alpha parts when drawing opaque or skip opaque parts if drawing alpha *)
      mret tt
    else
      let imatrices := dynamic_cast_IEffectMatrices (effect part) in
      match imatrices with
      | Some e =>
          call (Effect_SetView (effect_this e) view) ;;
          call (Effect_SetProjection (effect_this e) projection)
      | None => mret tt
      end ;;
      let iskinning := dynamic_cast_IEffectSkinning (effect part) in
      match iskinning, imatrices with
      | Some _, _ =>
          if bool_decide (boneInfluences mesh = []) then
            call (DebugTrace ("Model is missing bone influences which are required for skinning"
                              +:+ line_feed)) ;;
            throw (std_runtime_error "Skinning a model requires bone influences")
          else
            (* TODO - boneInfluences maps boneTransforms to bone indices *)
            mret tt
      | None, Some e =>
          w ← (if bool_decide (boneIndex mesh ≠ c_Invalid) && (boneIndex mesh <? nbones)
               then read_matrix boneTransforms (boneIndex mesh)
               else read_matrix boneTransforms 0) ;
          call (Effect_SetWorld (effect_this e) w)
      | None, None => mret tt
      end ;;
      ModelMeshPart_Draw part (effect part) (inputLayout part) setCustomState).

(** ** Model *)

Record ModelBone := {
  parentIndex : N;
  childIndex : N;
  siblingIndex : N
}.

(** [mEffectCache] is the [std::set<IEffect*>] of the class. *)
Record Model := {
  meshes : list ModelMesh;
  bones : list ModelBone;
  boneMatrices : option (list XMMATRIX);
  mEffectCache : gset addr
}.

(** [Model::Draw] with a world matrix. *)
Definition Model_Draw (model : Model) (world view projection : XMMATRIX)
    (wireframe : bool) (setCustomState : bool) : exec unit :=
  (* assert(deviceContext != nullptr); *)
  (* Draw opaque parts *)
  for_each (meshes model) (λ mesh,
    (* assert(mesh != nullptr); *)
    ModelMesh_PrepareForRendering mesh false wireframe ;;
    ModelMesh_Draw mesh world view projection false setCustomState) ;;
  (* Draw alpha parts *)
  for_each (meshes model) (λ mesh,
    (* assert(mesh != nullptr); *)
    ModelMesh_PrepareForRendering mesh true wireframe ;;
    ModelMesh_Draw mesh world view projection true setCustomState).

(** One of the two loops of [Model::Draw] with a transform array; they
    differ in the pass flag only. *)
Definition Model_Draw_bones_pass (model : Model) (nbones : N)
    (boneTransforms : option (list XMMATRIX)) (view projection : XMMATRIX)
    (alpha wireframe : bool) (setCustomState : bool) : exec unit :=
  for_each (meshes model) (λ mesh,
    (* assert(mesh != nullptr); *)
    ModelMesh_PrepareForRendering mesh alpha wireframe ;;
    if bool_decide (boneIndex mesh ≠ c_Invalid) && (boneIndex mesh <? nbones) then
      world ← read_matrix boneTransforms (boneIndex mesh) ;
      ModelMesh_Draw mesh world view projection alpha setCustomState
    else
      world ← read_matrix boneTransforms 0 ;
      ModelMesh_Draw mesh world view projection alpha setCustomState).

(** [Model::Draw] with a transform array. *)
Definition Model_Draw_bones (model : Model) (nbones : N)
    (boneTransforms : option (list XMMATRIX)) (view projection : XMMATRIX)
    (wireframe : bool) (setCustomState : bool) : exec unit :=
  (* assert(deviceContext != nullptr); *)
  '(nbones, boneTransforms) ←
    (if (nbones =? 0) || negb (bool_decide (is_Some boneTransforms)) then
       (if bool_decide (bones model = []) then
          throw (std_invalid_argument "Model contains no bones")
        else mret tt) ;;
       mret (N.of_nat (length (bones model)), boneMatrices model)
     else mret (nbones, boneTransforms)) ;
  (* Draw opaque parts *)
  Model_Draw_bones_pass model nbones boneTransforms view projection false wireframe
                        setCustomState ;;
  (* Draw alpha parts *)
  Model_Draw_bones_pass model nbones boneTransforms view projection true wireframe
                        setCustomState.

(** [Model::DrawSkinned]. *)
Definition Model_DrawSkinned (model : Model) (nbones : N)
    (boneTransforms : option (list XMMATRIX)) (view projection : XMMATRIX)
    (wireframe : bool) (setCustomState : bool) : exec unit :=
  (* assert(deviceContext != nullptr); *)
  (* assert(boneTransforms != nullptr); *)
  (if (nbones =? 0) || negb (bool_decide (is_Some boneTransforms)) then
     throw (std_invalid_argument "Bone transforms array required")
   else mret tt) ;;
  (* Draw opaque parts *)
  for_each (meshes model) (λ mesh,
    (* assert(mesh != nullptr); *)
    ModelMesh_PrepareForRendering mesh false wireframe ;;
    ModelMesh_DrawSkinned mesh nbones boneTransforms view projection false setCustomState) ;;
  (* Draw alpha parts *)
  for_each (meshes model) (λ mesh,
    (* assert(mesh != nullptr); *)
    ModelMesh_PrepareForRendering mesh true wireframe ;;
    ModelMesh_DrawSkinned mesh nbones boneTransforms view projection true setCustomState).

(** The nested loops that fill the cache: [insert] of every non-null
    [effect.get()], mesh by mesh and part by part. *)
Definition collect_effects (cache : gset addr) (ms : list ModelMesh) : gset addr :=
  foldl (λ cache mesh,
    foldl (λ cache part,
      match effect part with
      | Some e => {[ effect_this e ]} ∪ cache
      | None => cache
      end) cache (meshParts mesh)) cache ms.

(** A [std::set<IEffect*>] is iterated in increasing order of address. *)
Definition iterate (cache : gset addr) : list addr :=
  merge_sort N.le (elements cache).

(** [Model::UpdateEffects]: the model on exit, and the calls of the
    visitor [setEffect]. *)
Definition Model_UpdateEffects (model : Model) : Model * exec unit :=
  let cache :=
    if bool_decide (mEffectCache model = ∅) then
      (* This cache ensures we only set each effect once (could be shared) *)
      collect_effects (mEffectCache model) (meshes model)
    else mEffectCache model in
  (* assert(setEffect != nullptr); *)
  ({| meshes := meshes model; bones := bones model;
      boneMatrices := boneMatrices model; mEffectCache := cache |},
   for_each (iterate cache) (λ it, call (SetEffect it))).

(** ** What a call sequence shows *)

(** The arguments of the [DrawIndexed] calls of a sequence, in order. *)
Definition draws (t : list Call) : list (N * N * Z) :=
  omap (λ c, match c with
             | DrawIndexed n s v => Some (n, s, v)
             | _ => None
             end) t.

(** The [DrawIndexed] call of a part. *)
Definition part_draw (part : ModelMeshPart) : N * N * Z :=
  (indexCount part, startIndex part, vertexOffset part).

(** Whether the output merger blends: it does under the two blend states
    of the alpha pass, and does not under [Opaque] or before any blend
    state is set ([None]). *)
Definition blends (cur : option BlendState) : bool :=
  match cur with
  | Some AlphaBlend | Some NonPremultiplied => true
  | Some Opaque | None => false
  end.

(** The blend state in force after a call sequence that starts under
    [cur]. *)
Fixpoint blend_after (cur : option BlendState) (t : list Call) : option BlendState :=
  match t with
  | [] => cur
  | OMSetBlendState b _ :: t' => blend_after (Some b) t'
  | _ :: t' => blend_after cur t'
  end.

(** For each [DrawIndexed] of a call sequence that starts under [cur], in
    order: whether the draw is blended (a draw of the alpha pass) or not (a
    draw of the opaque pass), by the blend state in force when it is
    issued. *)
Fixpoint draw_passes (cur : option BlendState) (t : list Call) : list bool :=
  match t with
  | [] => []
  | OMSetBlendState b _ :: t' => draw_passes (Some b) t'
  | DrawIndexed _ _ _ :: t' => blends cur :: draw_passes cur t'
  | _ :: t' => draw_passes cur t'
  end.

(** Every draw of the sequence belongs to the pass [alpha], whatever the
    blend state the sequence starts under. *)
Definition pass_only (alpha : bool) (t : list Call) : Prop :=
  ∀ cur, draw_passes cur t = replicate (length (draws t)) alpha.

Definition sets_blend (c : Call) : bool :=
  match c with
  | OMSetBlendState _ _ => true
  | _ => false
  end.

(** The world matrices pushed into effects, with the effect they go to. *)
Definition worlds_pushed (t : list Call) : list (addr * XMMATRIX) :=
  omap (λ c, match c with
             | Effect_SetMatrices e w _ _ => Some (e, w)
             | Effect_SetWorld e w => Some (e, w)
             | _ => None
             end) t.

(** The effects handed to the visitor of [UpdateEffects]. *)
Definition visited (t : list Call) : list addr :=
  omap (λ c, match c with
             | SetEffect e => Some e
             | _ => None
             end) t.

(** All parts of a model, mesh by mesh. *)
Definition all_parts (model : Model) : list ModelMeshPart :=
  mjoin (meshParts <$> meshes model).

(** The parts of a mesh that a pass draws. *)
Definition parts_of_pass (alpha : bool) (parts : list ModelMeshPart) : list ModelMeshPart :=
  filter (λ part, isAlpha part = alpha) parts.

(** The statements of the loop of [ModelMesh::DrawSkinned] for a part
    that passed the skip test. *)
Definition ModelMesh_DrawSkinned_body (mesh : ModelMesh) (nbones : N)
    (boneTransforms : option (list XMMATRIX)) (view projection : XMMATRIX)
    (setCustomState : bool) (part : ModelMeshPart) : exec unit :=
  let imatrices := dynamic_cast_IEffectMatrices (effect part) in
  match imatrices with
  | Some e =>
      call (Effect_SetView (effect_this e) view) ;;
      call (Effect_SetProjection (effect_this e) projection)
  | None => mret tt
  end ;;
  let iskinning := dynamic_cast_IEffectSkinning (effect part) in
  match iskinning, imatrices with
  | Some _, _ =>
      if bool_decide (boneInfluences mesh = []) then
        call (DebugTrace ("Model is missing bone influences which are required for skinning"
                          +:+ line_feed)) ;;
        throw (std_runtime_error "Skinning a model requires bone influences")
      else mret tt
  | None, Some e =>
      w ← (if bool_decide (boneIndex mesh ≠ c_Invalid) && (boneIndex mesh <? nbones)
           then read_matrix boneTransforms (boneIndex mesh)
           else read_matrix boneTransforms 0) ;
      call (Effect_SetWorld (effect_this e) w)
  | None, None => mret tt
  end ;;
  ModelMeshPart_Draw part (effect part) (inputLayout part) setCustomState.

(** The world matrix of a mesh in the words of the specification: the
    transform at the bone index of the mesh if that index is valid and
    within the bounds of the transform array, otherwise the transform at
    index 0. *)
Definition resolved_world (boneIndex : N) (transforms : list XMMATRIX) : option XMMATRIX :=
  if decide (boneIndex ≠ c_Invalid ∧ (N.to_nat boneIndex < length transforms)%nat)
  then transforms !! N.to_nat boneIndex
  else transforms !! 0%nat.

(** The pushes of a world matrix that a pass over a mesh owes: for
    [ModelMesh::Draw], one for each part of the pass whose effect has
    [IEffectMatrices]; for [ModelMesh::DrawSkinned], one for each such part
    whose effect has no [IEffectSkinning]. *)
Definition pushes_of_Draw (alpha : bool) (world : XMMATRIX) (mesh : ModelMesh)
    : list (addr * XMMATRIX) :=
  omap (λ part, (λ e, (effect_this e, world)) <$> dynamic_cast_IEffectMatrices (effect part))
       (parts_of_pass alpha (meshParts mesh)).

Definition pushes_of_DrawSkinned (alpha : bool) (world : XMMATRIX) (mesh : ModelMesh)
    : list (addr * XMMATRIX) :=
  omap (λ part,
          match dynamic_cast_IEffectSkinning (effect part) with
          | Some _ => None
          | None => (λ e, (effect_this e, world)) <$> dynamic_cast_IEffectMatrices (effect part)
          end)
       (parts_of_pass alpha (meshParts mesh)).

(** A computation pushes the world matrices [expected], in this order: all
    of them when it returns normally, and the first of them up to where it
    stops when it does not. *)
Definition pushes_worlds (c : exec unit) (expected : list (addr * XMMATRIX)) : Prop :=
  worlds_pushed (calls c) `prefix_of` expected
  ∧ (result c = Normal tt → worlds_pushed (calls c) = expected).

(** The vertex declaration that [CreateInputLayout] and [ModifyEffect]
    refuse: absent, empty, or longer than the input assembler has slots. *)
Definition descriptor_invalid (part : ModelMeshPart) : Prop :=
  match vbDecl part with
  | None => True
  | Some decl =>
      decl = [] ∨ D3D11_IA_VERTEX_INPUT_STRUCTURE_ELEMENT_COUNT < N.of_nat (length decl)
  end.

(** Whether the effect of a part has [IEffectSkinning]. *)
Definition skinning_part (part : ModelMeshPart) : bool :=
  bool_decide (is_Some (dynamic_cast_IEffectSkinning (effect part))).

End Embedding.

(** ** The error taxonomy of the specification *)

Definition InvalidArgument (e : exception) : Prop :=
  ∃ what, e = std_invalid_argument what.

Definition MissingSkinningData (e : exception) : Prop :=
  e = std_runtime_error "Skinning a model requires bone influences".

Definition InvalidConfiguration (e : exception) : Prop :=
  e = std_runtime_error "Model mesh part missing vertex buffer input elements data"
  ∨ e = std_runtime_error "Model mesh part input layout size is too large for DirectX 11".

(** ** ToneMapPostProcess *)

Module ToneMap.

Local Open Scope Z_scope.

(** Modelled from the spec: PostProcess.h, which declares the enumerations
    [Operator] and [TransferFunction], is not among the sources at hand, and
    the specification names tone mapping as a collaborator only.  The
    enumerators are the ones that the layout of [pixelShaderIndices]
    documents: three transfer functions (linear, gamma 2.2, ST.2084) of four
    operators each (none, saturate, Reinhard, filmic).  A value of an
    enumeration type is the integer it holds, which need not be an
    enumerator. *)
Definition None : Z := 0.
Definition Saturate : Z := 1.
Definition Reinhard : Z := 2.
Definition ACESFilmic : Z := 3.
Definition Operator_Max : Z := 4.

Definition Linear : Z := 0.
Definition SRGB : Z := 1.
Definition ST2084 : Z := 2.
Definition TransferFunction_Max : Z := 3.

Definition INT_MAX : Z := 2147483647.

Section Build.

(** [defined(_XBOX_ONE) && defined(_TITLE)] *)
Variable xbox_one_title : bool.

Definition PixelShaderCount : Z := if xbox_one_title then 13 else 8.
Definition ShaderPermutationCount : Z := if xbox_one_title then 24 else 12.

Definition pixelShaderIndices : list Z :=
  [ (* Linear EOTF *)
    0; 1; 2; 3;
    (* Gamam22 EOTF *)
    4; 5; 6; 3;
    (* ST2084 EOTF *)
    7; 7; 7; 7 ] ++
  (if xbox_one_title then
     [ (* MRT Linear EOTF *)
       8; 8; 9; 10;
       (* MRT Gamma22 EOTF *)
       11; 11; 12; 10;
       (* MRT ST 2084 EOTF *)
       8; 8; 8; 8 ]
   else []).

(** The fields of [ToneMapPostProcess::Impl] that select the shader; the
    texture, the constant buffer and the paper-white level are left out. *)
Record Impl := {
  op : Z;
  func : Z;
  mrt : bool;
  mUseConstants : bool;
  mDirtyFlags : Z
}.

(** The state the constructor leaves. *)
Definition Impl_new : Impl :=
  {| op := None; func := Linear; mrt := false;
     mUseConstants := false; mDirtyFlags := INT_MAX |}.

(** d3dcommon.h. *)
Definition D3D_FEATURE_LEVEL_10_0 : Z := 0xa000.

(** The constructor of [ToneMapPostProcess::Impl], on a device of the given
    feature level. *)
Definition Impl_ctor (featureLevel : Z) : outcome Impl :=
  if featureLevel <? D3D_FEATURE_LEVEL_10_0 then
    Throws (std_exception "ToneMapPostProcess requires Feature Level 10.0 or later")
  else Normal Impl_new.

(** [ToneMapPostProcess::Impl::GetCurrentShaderPermutation]. *)
Definition GetCurrentShaderPermutation (impl : Impl) : Z :=
  if xbox_one_title then
    let permutation := if mrt impl then 12 else 0 in
    permutation + (func impl * Operator_Max) + op impl
  else
    (func impl * Operator_Max) + op impl.

(** An array subscript with an [int]: outside of the array, undefined. *)
Definition subscript {A} (a : list A) (i : Z) : outcome A :=
  if i <? 0 then Undefined
  else match a !! Z.to_nat i with
       | Some x => Normal x
       | Datatypes.None => Undefined
       end.

(** [DeviceResources::GetPixelShader], up to the entry of [pixelShaders]
    and of [mPixelShaders] it selects: both arrays have [PixelShaderCount]
    entries. *)
Definition GetPixelShader (permutation : Z) : outcome Z :=
  (* assert(permutation >= 0 && permutation < ShaderPermutationCount); *)
  match subscript pixelShaderIndices permutation with
  | Normal shaderIndex =>
      (* assert(shaderIndex >= 0 && shaderIndex < PixelShaderCount); *)
      if (0 <=? shaderIndex) && (shaderIndex <? PixelShaderCount)
      then Normal shaderIndex
      else Undefined
  | Throws e => Throws e
  | Undefined => Undefined
  end.

(** [ToneMapPostProcess::SetOperator]. *)
Definition SetOperator (impl : Impl) (op' : Z) : outcome Impl :=
  if (op' <? 0) || (op' >=? Operator_Max) then
    Throws (std_out_of_range "Tonemap operator not defined")
  else
    Normal {| op := op'; func := func impl; mrt := mrt impl;
              mUseConstants := mUseConstants impl; mDirtyFlags := mDirtyFlags impl |}.

(** [ToneMapPostProcess::SetTransferFunction], with [Impl::SetConstants]
    inlined. *)
Definition SetTransferFunction (impl : Impl) (func' : Z) : outcome Impl :=
  if (func' <? 0) || (func' >=? TransferFunction_Max) then
    Throws (std_out_of_range "Electro-optical transfer function not defined")
  else
    Normal {| op := op impl; func := func'; mrt := mrt impl;
              mUseConstants := if func' =? ST2084 then true else false;
              mDirtyFlags := INT_MAX |}.

(** [ToneMapPostProcess::SetMRTOutput], which exists on Xbox One only. *)
Definition SetMRTOutput (impl : Impl) (value : bool) : Impl :=
  {| op := op impl; func := func impl; mrt := value;
     mUseConstants := mUseConstants impl; mDirtyFlags := mDirtyFlags impl |}.

(** The states a [ToneMapPostProcess] goes through: [pImpl] is private, so
    the selecting fields change through the setters only. *)
Inductive reachable : Impl → Prop :=
| reachable_new featureLevel impl :
    Impl_ctor featureLevel = Normal impl → reachable impl
| reachable_SetOperator impl op' impl' :
    reachable impl → SetOperator impl op' = Normal impl' → reachable impl'
| reachable_SetTransferFunction impl func' impl' :
    reachable impl → SetTransferFunction impl func' = Normal impl' → reachable impl'
| reachable_SetMRTOutput impl value :
    xbox_one_title = true → reachable impl → reachable (SetMRTOutput impl value).

End Build.

End ToneMap.

(** ** Sample data

    Small models used to run the embedding: matrices are stood for by
    natural numbers, and the invalid bone index is the greatest 32-bit
    value. *)

Module Sample.

Definition c_Invalid : N := 0xFFFFFFFF.

(** An effect without matrices or skinning, one with matrices, and one
    with both. *)
Definition plain_effect : IEffect :=
  {| effect_this := 16; as_IEffectMatrices := false; as_IEffectSkinning := false |}.
Definition matrix_effect : IEffect :=
  {| effect_this := 32; as_IEffectMatrices := true; as_IEffectSkinning := false |}.
Definition skinned_effect : IEffect :=
  {| effect_this := 48; as_IEffectMatrices := true; as_IEffectSkinning := true |}.

(** A part of [count] indices starting at [start]. *)
Definition make_part (e : option IEffect) (alpha : bool) (count start : N)
    (decl : option (list D3D11_INPUT_ELEMENT_DESC)) : ModelMeshPart :=
  {| indexCount := count; startIndex := start; vertexOffset := 0; vertexStride := 32;
     primitiveType := 4; indexFormat := DXGI_FORMAT_R16_UINT;
     inputLayout := Some 256; indexBuffer := Some 512; vertexBuffer := Some 768;
     effect := e; vbDecl := decl; isAlpha := alpha |}.

Definition make_mesh (bone : N) (influences : list N) (parts : list ModelMeshPart)
    : ModelMesh :=
  {| boneIndex := bone; ccw := true; pmalpha := true;
     boneInfluences := influences; meshParts := parts |}.

(** Two meshes, one opaque only and one alpha only. *)
Definition opaque_mesh : ModelMesh :=
  make_mesh 1 [] [make_part (Some matrix_effect) false 3 0 (Some [0])].
Definition alpha_mesh : ModelMesh :=
  make_mesh c_Invalid [] [make_part (Some matrix_effect) true 6 3 (Some [0])].

Definition two_meshes : @Model nat :=
  {| meshes := [alpha_mesh; opaque_mesh]; bones := [];
     boneMatrices := None; mEffectCache := ∅ |}.

(** A mesh whose parts mix the two passes and share an effect, under a
    bone index past the end of a three-matrix array. *)
Definition mixed_mesh : ModelMesh :=
  make_mesh 7 []
    [make_part (Some plain_effect) true 3 0 (Some [0]);
     make_part (Some matrix_effect) false 6 3 (Some [0]);
     make_part (Some plain_effect) false 9 9 (Some [0])].

Definition three_meshes : @Model nat :=
  {| meshes := [alpha_mesh; mixed_mesh; opaque_mesh];
     bones := [{| parentIndex := c_Invalid; childIndex := 1; siblingIndex := c_Invalid |};
               {| parentIndex := 0; childIndex := c_Invalid; siblingIndex := c_Invalid |}];
     boneMatrices := Some [100%nat; 101%nat];
     mEffectCache := ∅ |}.

(** A mesh without bone influences whose second opaque part has a
    skinning effect, and one whose only skinning part is an alpha part. *)
Definition rigid_then_skinned : ModelMesh :=
  make_mesh c_Invalid []
    [make_part (Some plain_effect) false 3 0 (Some [0]);
     make_part (Some skinned_effect) false 6 3 (Some [0]);
     make_part (Some plain_effect) false 9 9 (Some [0])].

Definition skinned_alpha_only : ModelMesh :=
  make_mesh c_Invalid [] [make_part (Some skinned_effect) true 3 0 (Some [0])].

(** A model whose only part has no effect yet, and a device whose factory
    succeeds. *)
Definition unbound_part : ModelMeshPart := make_part None false 3 0 (Some [0]).


Definition device : ID3D11Device := λ _ _, (0%Z, Some 1024).

(** A part without a vertex declaration. *)
Definition undeclared_part : ModelMeshPart :=
  make_part (Some plain_effect) false 3 0 None.

End Sample.

(** ** ToneMapPostProcess::Process *)

Module ToneMapProcess.

Local Open Scope Z_scope.

Definition Dirty_ConstantBuffer : Z := 0x01.
Definition Dirty_Parameters : Z := 0x02.

(** The resources that [DeviceResources] creates on demand. *)
Inductive Resource : Type :=
| Sampler
| VertexShader
| PixelShader (shaderIndex : Z).

Section Process.

(** [float] is only ever copied by this code. *)
Context {float : Type}.

(** [defined(_XBOX_ONE) && defined(_TITLE)] *)
Variable xbox_one_title : bool.

(** Calls on the collaborators: the device context, [DemandCreate] of
    DemandCreate.h on behalf of [DeviceResources], [ConstantBuffer::SetData]
    of ConstantBuffer.h, and the callback of the caller. *)
Inductive PCall : Type :=
| PSSetShaderResources (startSlot numViews : Z) (texture : option addr)
| DemandCreate (r : Resource)
| PSSetSamplers (startSlot numSamplers : Z)
| VSSetShader
| PSSetShader (shaderIndex : Z)
| SetData (paperWhiteNits : float)
| QueryInterface
| PSSetPlacementConstantBuffer (slot : Z)
| PSSetConstantBuffers (startSlot numBuffers : Z)
| SetCustomState
| IASetPrimitiveTopology_TRIANGLESTRIP
| Draw (vertexCount startVertexLocation : Z).

(** What the collaborators answer during one call of [Process]: whether
    [DemandCreate] throws for a resource, whether [SetData] throws, and the
    HRESULT of [QueryInterface].  None of the three is among the sources at
    hand. *)
Record Answers := {
  demand_throws : Resource → option exception;
  set_data_throws : option exception;
  query_interface : Z
}.

(** [ToneMapPostProcess::Impl]: the selecting fields and the dirty flags
    ([ToneMap.Impl]), the texture, the paper-white level and the copy of it
    in [constants]. *)
Record State := {
  impl : ToneMap.Impl;
  hdrTexture : option addr;
  paperWhiteNits : float;
  constants : float
}.

(** A member function: from the state of the object to the calls made,
    how the call ended, and the state it left. *)
Definition proc (A : Type) : Type := State → list PCall * outcome A * State.

Definition proc_ret {A} (a : A) : proc A := λ s, ([], Normal a, s).

Definition proc_bind {A B} (f : A → proc B) (m : proc A) : proc B :=
  λ s, match m s with
       | (t, Normal a, s') => let '(t', r, s'') := f a s' in (t ++ t', r, s'')
       | (t, Throws e, s') => (t, Throws e, s')
       | (t, Undefined, s') => (t, Undefined, s')
       end.

#[global] Instance proc_mret : MRet proc := @proc_ret.
#[global] Instance proc_mbind : MBind proc := @proc_bind.

Definition pcall (c : PCall) : proc unit := λ s, ([c], Normal tt, s).
Definition get : proc State := λ s, ([], Normal s, s).
Definition put (s : State) : proc unit := λ _, ([], Normal tt, s).
Definition lift {A} (o : outcome A) : proc A := λ s, ([], o, s).

(** A call that may throw. *)
Definition pcall_throwing (c : PCall) (throws : option exception) : proc unit :=
  λ s, ([c], match throws with Some e => Throws e | None => Normal tt end, s).

Definition with_dirty (i : ToneMap.Impl) (flags : Z) : ToneMap.Impl :=
  {| ToneMap.op := ToneMap.op i; ToneMap.func := ToneMap.func i;
     ToneMap.mrt := ToneMap.mrt i; ToneMap.mUseConstants := ToneMap.mUseConstants i;
     ToneMap.mDirtyFlags := flags |}.

Definition set_dirty (flags : Z) : proc unit :=
  s ← get ;
  put {| impl := with_dirty (impl s) flags; hdrTexture := hdrTexture s;
         paperWhiteNits := paperWhiteNits s; constants := constants s |}.

Definition set_constants (value : float) : proc unit :=
  s ← get ;
  put {| impl := impl s; hdrTexture := hdrTexture s;
         paperWhiteNits := paperWhiteNits s; constants := value |}.

(** [ThrowIfFailed(deviceContext->QueryInterface(...))]. *)
Definition query (hr : Z) : proc unit :=
  pcall QueryInterface ;;
  if hr <? 0 then lift (Throws (com_exception hr)) else mret tt.

(** [ToneMapPostProcess::Impl::Process]. *)
Definition Process (answers : Answers) (setCustomState : bool) : proc unit :=
  (* Set the texture. *)
  s ← get ;
  pcall (PSSetShaderResources 0 1 (hdrTexture s)) ;;
  pcall_throwing (DemandCreate Sampler) (demand_throws answers Sampler) ;;
  pcall (PSSetSamplers 0 1) ;;
  (* Set shaders. *)
  pcall_throwing (DemandCreate VertexShader) (demand_throws answers VertexShader) ;;
  shaderIndex ← lift (ToneMap.GetPixelShader xbox_one_title
                        (ToneMap.GetCurrentShaderPermutation xbox_one_title (impl s))) ;
  pcall_throwing (DemandCreate (PixelShader shaderIndex))
                 (demand_throws answers (PixelShader shaderIndex)) ;;
  pcall VSSetShader ;;
  pcall (PSSetShader shaderIndex) ;;
  (* Set constants. *)
  (if (ToneMap.func (impl s) =? ToneMap.ST2084) || ToneMap.mrt (impl s) then
     (if negb (Z.land (ToneMap.mDirtyFlags (impl s)) Dirty_Parameters =? 0) then
        set_dirty (Z.lor (Z.land (ToneMap.mDirtyFlags (impl s)) (Z.lnot Dirty_Parameters))
                         Dirty_ConstantBuffer) ;;
        set_constants (paperWhiteNits s)
      else mret tt) ;;
     if xbox_one_title then
       s ← get ;
       pcall_throwing (SetData (constants s)) (set_data_throws answers) ;;
       query (query_interface answers) ;;
       pcall (PSSetPlacementConstantBuffer 0)
     else
       s ← get ;
       (if negb (Z.land (ToneMap.mDirtyFlags (impl s)) Dirty_ConstantBuffer =? 0) then
          set_dirty (Z.land (ToneMap.mDirtyFlags (impl s)) (Z.lnot Dirty_ConstantBuffer)) ;;
          pcall_throwing (SetData (constants s)) (set_data_throws answers)
        else mret tt) ;;
       (* Set the constant buffer. *)
       pcall (PSSetConstantBuffers 0 1)
   else mret tt) ;;
  (if setCustomState then pcall SetCustomState else mret tt) ;;
  (* Draw quad. *)
  pcall IASetPrimitiveTopology_TRIANGLESTRIP ;;
  pcall (Draw 4 0).

(** [ToneMapPostProcess::SetHDRSourceTexture]. *)
Definition SetHDRSourceTexture (s : State) (value : option addr) : State :=
  {| impl := impl s; hdrTexture := value;
     paperWhiteNits := paperWhiteNits s; constants := constants s |}.

(** [ToneMapPostProcess::SetHDR10Parameter], with [Impl::SetDirtyFlag]
    inlined. *)
Definition SetHDR10Parameter (s : State) (value : float) : State :=
  {| impl := with_dirty (impl s) ToneMap.INT_MAX; hdrTexture := hdrTexture s;
     paperWhiteNits := value; constants := constants s |}.

(** The values that a call sequence uploads to the constant buffer, and
    whether a call binds the constant buffer. *)
Definition uploads (t : list PCall) : list float :=
  omap (λ c, match c with SetData v => Some v | _ => None end) t.

Definition binds_constants (c : PCall) : bool :=
  match c with
  | PSSetPlacementConstantBuffer _ | PSSetConstantBuffers _ _ => true
  | _ => false
  end.

(** The draws of a call sequence, and the pixel shaders it binds. *)
Definition draws_issued (t : list PCall) : list (Z * Z) :=
  omap (λ c, match c with Draw n v => Some (n, v) | _ => None end) t.

Definition pixel_shaders_set (t : list PCall) : list Z :=
  omap (λ c, match c with PSSetShader i => Some i | _ => None end) t.

(** A state needs no upload when its constants block does not run or its
    two dirty flags are clear. *)
Definition clean (s : State) : Prop :=
  ((ToneMap.func (impl s) =? ToneMap.ST2084) || ToneMap.mrt (impl s) = false)
  ∨ (Z.land (ToneMap.mDirtyFlags (impl s)) Dirty_ConstantBuffer = 0
     ∧ Z.land (ToneMap.mDirtyFlags (impl s)) Dirty_Parameters = 0).

End Process.

End ToneMapProcess.

(** ** More of what a call sequence shows *)

Section MoreObservations.

Context {XMMATRIX : Type}.

(** The fixed-function state that [PrepareForRendering] sets, as far as it
    is known: [None] where nothing was set yet. *)
Record RenderState := {
  rs_blend : option BlendState;
  rs_depth : option DepthStencilState;
  rs_raster : option RasterizerState
}.

(** The render state a call leaves, from the one it finds. *)
Definition state_step (cur : RenderState) (c : @Call XMMATRIX) : RenderState :=
  match c with
  | OMSetBlendState b _ =>
      {| rs_blend := Some b; rs_depth := rs_depth cur; rs_raster := rs_raster cur |}
  | OMSetDepthStencilState d _ =>
      {| rs_blend := rs_blend cur; rs_depth := Some d; rs_raster := rs_raster cur |}
  | RSSetState r =>
      {| rs_blend := rs_blend cur; rs_depth := rs_depth cur; rs_raster := Some r |}
  | _ => cur
  end.

(** For each [DrawIndexed] of a call sequence that starts under [cur], in
    order: the render state in force when the draw is issued. *)
Fixpoint draw_states (cur : RenderState) (t : list (@Call XMMATRIX)) : list RenderState :=
  match t with
  | [] => []
  | DrawIndexed _ _ _ :: t' => cur :: draw_states cur t'
  | c :: t' => draw_states (state_step cur c) t'
  end.

Definition sets_state (c : @Call XMMATRIX) : bool :=
  match c with
  | OMSetBlendState _ _ | OMSetDepthStencilState _ _ | RSSetState _ => true
  | _ => false
  end.

(** The render state of a mesh in a pass: what its flags ask for. *)
Definition state_of_pass (mesh : ModelMesh) (alpha wireframe : bool) : RenderState :=
  {| rs_blend := Some (if alpha then if pmalpha mesh then AlphaBlend else NonPremultiplied
                       else Opaque);
     rs_depth := Some (if alpha then DepthRead else DepthDefault);
     rs_raster := Some (if wireframe then Wireframe
                        else if ccw mesh then CullCounterClockwise else CullClockwise) |}.

(** The view and the projection matrices pushed into effects. *)
Definition views_pushed (t : list (@Call XMMATRIX)) : list (addr * XMMATRIX) :=
  omap (λ c, match c with
             | Effect_SetMatrices e _ v _ => Some (e, v)
             | Effect_SetView e v => Some (e, v)
             | _ => None
             end) t.

Definition projections_pushed (t : list (@Call XMMATRIX)) : list (addr * XMMATRIX) :=
  omap (λ c, match c with
             | Effect_SetMatrices e _ _ p => Some (e, p)
             | Effect_SetProjection e p => Some (e, p)
             | _ => None
             end) t.

(** The matrix-capable effects of the parts of a pass, each with the
    matrix [m]. *)
Definition matrix_effects (alpha : bool) (m : XMMATRIX) (mesh : ModelMesh)
    : list (addr * XMMATRIX) :=
  omap (λ part, (λ e, (effect_this e, m)) <$> dynamic_cast_IEffectMatrices (effect part))
       (parts_of_pass alpha (meshParts mesh)).

(** A mesh with other parts. *)
Definition with_parts (mesh : ModelMesh) (parts : list ModelMeshPart) : ModelMesh :=
  {| boneIndex := boneIndex mesh; ccw := ccw mesh; pmalpha := pmalpha mesh;
     boneInfluences := boneInfluences mesh; meshParts := parts |}.

End MoreObservations.

(** ** More sample data *)

Module MoreSample.

(** A model whose mesh skins without bone influences, and a mesh that
    skins with them. *)
Definition skinned_model : @Model nat :=
  {| meshes := [Sample.opaque_mesh; Sample.rigid_then_skinned]; bones := [];
     boneMatrices := None; mEffectCache := ∅ |}.

Definition skinned_with_influences : ModelMesh :=
  Sample.make_mesh 1 [0; 1]
    [Sample.make_part (Some Sample.skinned_effect) false 3 0 (Some [0]);
     Sample.make_part (Some Sample.plain_effect) true 6 3 (Some [0]);
     Sample.make_part (Some Sample.matrix_effect) false 9 9 (Some [0])].

(** A device whose factory fails. *)
Definition failing_device : ID3D11Device := λ _ _, ((-2147024809)%Z, None).

(** Nothing set on the device context yet. *)
Definition no_state : RenderState :=
  {| rs_blend := None; rs_depth := None; rs_raster := None |}.

(** Collaborators that do not fail, and a tone mapper set to ST.2084 with
    everything dirty, as [SetTransferFunction] leaves it. *)
Definition willing : ToneMapProcess.Answers :=
  {| ToneMapProcess.demand_throws := λ _, None;
     ToneMapProcess.set_data_throws := None;
     ToneMapProcess.query_interface := 0 |}.

Definition hdr10 : ToneMap.Impl :=
  {| ToneMap.op := ToneMap.Reinhard; ToneMap.func := ToneMap.ST2084;
     ToneMap.mrt := false; ToneMap.mUseConstants := true;
     ToneMap.mDirtyFlags := ToneMap.INT_MAX |}.

Definition hdr10_state : @ToneMapProcess.State nat :=
  {| ToneMapProcess.impl := hdr10; ToneMapProcess.hdrTexture := Some 4096%N;
     ToneMapProcess.paperWhiteNits := 200%nat; ToneMapProcess.constants := 0%nat |}.

Definition linear_state : @ToneMapProcess.State nat :=
  {| ToneMapProcess.impl := ToneMap.Impl_new; ToneMapProcess.hdrTexture := Some 4096%N;
     ToneMapProcess.paperWhiteNits := 200%nat; ToneMapProcess.constants := 0%nat |}.

End MoreSample.

(** * Properties *)

(** ** The call-trace monad *)

Section Exec.

Context {XMMATRIX : Type}.
Local Abbreviation Call := (@Call XMMATRIX).
Local Abbreviation exec := (@exec XMMATRIX).

Lemma calls_bind {A B} (c : exec A) (f : A → exec B) :
  calls (c ≫= f) =
  calls c ++ match result c with
             | Normal a => calls (f a)
             | _ => []
             end.
Proof.
  destruct c as [t [a| |]]; simpl; rewrite ?app_nil_r; try done.
  unfold mbind, exec_mbind; simpl. by destruct (f a).
Qed.

Lemma result_bind {A B} (c : exec A) (f : A → exec B) :
  result (c ≫= f) =
  match result c with
  | Normal a => result (f a)
  | Throws e => Throws e
  | Undefined => Undefined
  end.
Proof.
  destruct c as [t [a| |]]; simpl; try done.
  unfold mbind, exec_mbind; simpl. by destruct (f a).
Qed.



Lemma calls_ret {A} (a : A) : calls (mret a : exec A) = [].
Proof. done. Qed.

Lemma result_ret {A} (a : A) : result (mret a : exec A) = Normal a.
Proof. done. Qed.

Lemma for_each_cons {A} (x : A) (l : list A) (body : A → exec unit) :
  for_each (x :: l) body = (body x ;; for_each l body).
Proof. done. Qed.

Lemma exec_eq {A} (c d : exec A) :
  calls c = calls d → result c = result d → c = d.
Proof. destruct c, d; simpl; congruence. Qed.

(** A loop whose bodies all return normally runs them all. *)
Lemma for_each_normal {A} (l : list A) (body : A → exec unit) :
  Forall (λ x, result (body x) = Normal tt) l →
  result (for_each l body) = Normal tt
  ∧ calls (for_each l body) = mjoin ((λ x, calls (body x)) <$> l).
Proof.
  induction 1 as [|x l Hx _ [IHr IHc]]; [done|].
  rewrite for_each_cons, result_bind, calls_bind, Hx. by rewrite IHr, IHc.
Qed.

(** Whatever the bodies do, the calls of a loop are those of a run of
    bodies from the first element on. *)
Lemma for_each_calls_ind {A} (P : list Call → Prop) (l : list A) (body : A → exec unit) :
  P [] →
  (∀ x t, x ∈ l → P t → P (calls (body x) ++ t)) →
  P (calls (for_each l body)).
Proof.
  intros Hnil Hcons. induction l as [|x l IH]; [done|].
  rewrite for_each_cons, calls_bind.
  apply Hcons; [left|].
  destruct (result (body x)); [|done..].
  apply IH. intros y t Hy. apply Hcons. by right.
Qed.

(** The calls of a loop are those of its bodies, element after element:
    all of them when the loop returns normally, and the first of them up to
    where it stops when it does not. *)
Lemma for_each_calls {A} (l : list A) (body : A → exec unit) :
  calls (for_each l body) `prefix_of` mjoin ((λ x, calls (body x)) <$> l)
  ∧ (result (for_each l body) = Normal tt →
     calls (for_each l body) = mjoin ((λ x, calls (body x)) <$> l)).
Proof.
  induction l as [|x l [IHp IHe]]; [done|].
  rewrite for_each_cons, calls_bind, result_bind.
  cbn [fmap list_fmap mjoin list_join].
  destruct (result (body x)) as [[]| |].
  - split; [by apply prefix_app|]. intros Hr. f_equal. by apply IHe.
  - rewrite app_nil_r. split; [by apply prefix_app_r|done].
  - rewrite app_nil_r. split; [by apply prefix_app_r|done].
Qed.

End Exec.

(** ** Drawing a model with a world matrix *)

Section Draw.

Context {XMMATRIX : Type}.
Local Abbreviation Call := (@Call XMMATRIX).
Local Abbreviation exec := (@exec XMMATRIX).

Implicit Types (t : list Call) (cur : option BlendState).
Implicit Types (part : ModelMeshPart) (mesh : ModelMesh) (model : @Model XMMATRIX).

Lemma draws_app t1 t2 : draws (t1 ++ t2) = draws t1 ++ draws t2.
Proof. apply omap_app. Qed.

Lemma worlds_pushed_app t1 t2 :
  worlds_pushed (t1 ++ t2) = worlds_pushed t1 ++ worlds_pushed t2.
Proof. apply omap_app. Qed.

Lemma blend_after_app cur t1 t2 :
  blend_after cur (t1 ++ t2) = blend_after (blend_after cur t1) t2.
Proof.
  revert cur. induction t1 as [|c t1 IH]; intros cur; [done|].
  destruct c; simpl; apply IH.
Qed.

Lemma draw_passes_app cur t1 t2 :
  draw_passes cur (t1 ++ t2) =
  draw_passes cur t1 ++ draw_passes (blend_after cur t1) t2.
Proof.
  revert cur. induction t1 as [|c t1 IH]; intros cur; [done|].
  destruct c; simpl; rewrite ?IH; done.
Qed.

(** A call sequence that leaves the blend state alone draws all it draws
    under the blend state it starts with. *)
Lemma draw_passes_keep cur t :
  Forall (λ c, sets_blend c = false) t →
  blend_after cur t = cur
  ∧ draw_passes cur t = replicate (length (draws t)) (blends cur).
Proof.
  induction 1 as [|c t Hc _ [IH1 IH2]]; [done|].
  destruct c; simpl in *; try done; by rewrite IH2.
Qed.

Lemma pass_only_nil alpha : pass_only alpha ([] : list Call).
Proof. by intros cur. Qed.

Lemma pass_only_app alpha t1 t2 :
  pass_only alpha t1 → pass_only alpha t2 → pass_only alpha (t1 ++ t2).
Proof.
  intros H1 H2 cur.
  rewrite draw_passes_app, draws_app, length_app, H1, H2.
  by rewrite replicate_add.
Qed.

Lemma ModelMeshPart_Draw_eq part (ieffect : option IEffect) iinputLayout
    (setCustomState : bool) :
  ModelMeshPart_Draw part ieffect iinputLayout setCustomState =
  match ieffect return exec unit with
  | Some e =>
      ([IASetInputLayout iinputLayout;
        IASetVertexBuffers 0 1 (vertexBuffer part) (vertexStride part) 0;
        IASetIndexBuffer (indexBuffer part) (indexFormat part) 0;
        Effect_Apply (effect_this e)]
       ++ (if setCustomState then [SetCustomState] else [])
       ++ [IASetPrimitiveTopology (primitiveType part);
           DrawIndexed (indexCount part) (startIndex part) (vertexOffset part)],
       Normal tt)
  | None =>
      ([IASetInputLayout iinputLayout;
        IASetVertexBuffers 0 1 (vertexBuffer part) (vertexStride part) 0;
        IASetIndexBuffer (indexBuffer part) (indexFormat part) 0],
       Undefined)
  end.
Proof. by destruct ieffect, setCustomState. Qed.

Lemma ModelMesh_PrepareForRendering_eq mesh (alpha wireframe : bool) :
  (ModelMesh_PrepareForRendering mesh alpha wireframe : exec unit) =
  ([OMSetBlendState (if alpha then if pmalpha mesh then AlphaBlend else NonPremultiplied
                     else Opaque) 0xFFFFFFFF;
    OMSetDepthStencilState (if alpha then DepthRead else DepthDefault) 0;
    RSSetState (if wireframe then Wireframe
                else if ccw mesh then CullCounterClockwise else CullClockwise);
    PSSetSamplers 0 2 [LinearWrap; LinearWrap]],
   Normal tt).
Proof.
  unfold ModelMesh_PrepareForRendering.
  destruct alpha, (pmalpha mesh), wireframe; reflexivity.
Qed.

(** The body of the loop of [ModelMesh::Draw]. *)
Lemma ModelMesh_Draw_keeps_blend mesh (world view projection : XMMATRIX)
    (alpha setCustomState : bool) :
  Forall (λ c, sets_blend c = false)
         (calls (ModelMesh_Draw mesh world view projection alpha setCustomState)).
Proof.
  unfold ModelMesh_Draw. apply for_each_calls_ind; [done|].
  intros part t _ Ht. apply Forall_app; split; [|done].
  destruct (negb _); [done|].
  rewrite ModelMeshPart_Draw_eq.
  destruct (effect part) as [e|]; simpl;
    [destruct (as_IEffectMatrices e), setCustomState|]; simpl; repeat constructor.
Qed.

(** One mesh of a pass: the render state of the pass, then the draws of
    the mesh. *)
Lemma mesh_of_pass_only mesh (world view projection : XMMATRIX)
    (alpha wireframe setCustomState : bool) :
  pass_only alpha
    (calls (ModelMesh_PrepareForRendering mesh alpha wireframe ;;
            ModelMesh_Draw mesh world view projection alpha setCustomState)).
Proof.
  intros cur. rewrite calls_bind, ModelMesh_PrepareForRendering_eq. simpl.
  destruct (draw_passes_keep
              (Some (if alpha then if pmalpha mesh then AlphaBlend else NonPremultiplied
                     else Opaque))
              _ (ModelMesh_Draw_keeps_blend mesh world view projection alpha
                                            setCustomState)) as [_ ->].
  by destruct alpha, (pmalpha mesh).
Qed.

Lemma for_each_pass_only {A} alpha (l : list A) (body : A → exec unit) :
  (∀ x, pass_only alpha (calls (body x))) →
  pass_only alpha (calls (for_each l body)).
Proof.
  intros Hbody. apply for_each_calls_ind; [apply pass_only_nil|].
  intros x t _ Ht. by apply pass_only_app.
Qed.

Lemma two_passes cur t1 t2 :
  pass_only false t1 → pass_only true t2 →
  draw_passes cur (t1 ++ t2) =
  replicate (length (draws t1)) false ++ replicate (length (draws t2)) true.
Proof. intros H1 H2. by rewrite draw_passes_app, H1, H2. Qed.

Lemma draws_mjoin (ts : list (list Call)) : draws (mjoin ts) = mjoin (draws <$> ts).
Proof.
  induction ts as [|t ts IH]; [done|].
  simpl. by rewrite draws_app, IH.
Qed.

Lemma parts_of_pass_mjoin alpha (ps : list (list ModelMeshPart)) :
  parts_of_pass alpha (mjoin ps) = mjoin (parts_of_pass alpha <$> ps).
Proof.
  unfold parts_of_pass. induction ps as [|p ps IH]; [done|].
  simpl. by rewrite filter_app, IH.
Qed.

Lemma Model_Draw_calls model (world view projection : XMMATRIX)
    (wireframe setCustomState : bool) :
  let opaque_pass : exec unit :=
    for_each (meshes model) (λ mesh,
      ModelMesh_PrepareForRendering mesh false wireframe ;;
      ModelMesh_Draw mesh world view projection false setCustomState) in
  let alpha_pass : exec unit :=
    for_each (meshes model) (λ mesh,
      ModelMesh_PrepareForRendering mesh true wireframe ;;
      ModelMesh_Draw mesh world view projection true setCustomState) in
  calls (Model_Draw model world view projection wireframe setCustomState) =
  calls opaque_pass ++ match result opaque_pass with
                       | Normal _ => calls alpha_pass
                       | _ => []
                       end.
Proof. intros opaque_pass alpha_pass. unfold Model_Draw. by rewrite calls_bind. Qed.


Lemma all_parts_mesh (P : ModelMeshPart → Prop) model mesh :
  Forall P (all_parts model) → mesh ∈ meshes model → Forall P (meshParts mesh).
Proof.
  intros Hall Hin. apply Forall_forall. intros part Hpart.
  eapply (proj1 (Forall_forall P _)); [exact Hall|].
  unfold all_parts. apply list_elem_of_join. exists (meshParts mesh).
  split; [done|]. by apply list_elem_of_fmap_2.
Qed.

(** With an effect on every part, [ModelMesh::Draw] returns after it drew
    the parts of the pass, in the order of [meshParts]. *)
Lemma ModelMesh_Draw_draws mesh (world view projection : XMMATRIX)
    (alpha setCustomState : bool) :
  Forall (λ part, is_Some (effect part)) (meshParts mesh) →
  result (ModelMesh_Draw mesh world view projection alpha setCustomState) = Normal tt
  ∧ draws (calls (ModelMesh_Draw mesh world view projection alpha setCustomState)) =
    part_draw <$> parts_of_pass alpha (meshParts mesh).
Proof.
  unfold ModelMesh_Draw, parts_of_pass.
  induction 1 as [|part parts [e He] _ [IHr IHd]]; [done|].
  rewrite for_each_cons, result_bind, calls_bind, draws_app.
  destruct (decide (isAlpha part = alpha)) as [Heq|Hne].
  - rewrite filter_cons_True by done.
    replace (negb (Bool.eqb (isAlpha part) alpha)) with false
      by (rewrite Heq; by destruct alpha).
    rewrite ModelMeshPart_Draw_eq, He. simpl.
    rewrite result_bind, calls_bind, draws_app.
    destruct (as_IEffectMatrices e), setCustomState; simpl; by rewrite IHr, IHd.
  - rewrite filter_cons_False by done.
    replace (negb (Bool.eqb (isAlpha part) alpha)) with true
      by (destruct (isAlpha part), alpha; done).
    simpl. by rewrite IHr, IHd.
Qed.

(** C1.  [Model::Draw] with a world matrix emits its calls in two passes
    over the meshes, the opaque pass in full before the alpha pass: the
    calls are those of the first loop over [meshes] (pass flag false)
    followed by those of the second loop (pass flag true); each loop goes
    through the meshes in their order, setting the render state of a mesh
    and then drawing it; every draw call of the first loop is issued under
    the opaque blend state and every draw call of the second under a
    blending one, so that in the whole sequence no draw of the alpha pass
    comes before a draw of the opaque pass. *)
Theorem Model_Draw_opaque_pass_before_alpha_pass model
    (world view projection : XMMATRIX) (wireframe setCustomState : bool) :
  let mesh_of_pass (alpha : bool) (mesh : ModelMesh) : exec unit :=
    ModelMesh_PrepareForRendering mesh alpha wireframe ;;
    ModelMesh_Draw mesh world view projection alpha setCustomState in
  let opaque_pass := for_each (meshes model) (mesh_of_pass false) in
  let alpha_pass := for_each (meshes model) (mesh_of_pass true) in
  let r := Model_Draw model world view projection wireframe setCustomState in
  let t_opaque := calls opaque_pass in
  let t_alpha := match result opaque_pass with
                 | Normal _ => calls alpha_pass
                 | _ => []
                 end in
  calls r = t_opaque ++ t_alpha
  ∧ t_opaque `prefix_of` mjoin ((λ mesh, calls (mesh_of_pass false mesh)) <$> meshes model)
  ∧ t_alpha `prefix_of` mjoin ((λ mesh, calls (mesh_of_pass true mesh)) <$> meshes model)
  ∧ (result r = Normal tt →
     calls r = mjoin ((λ mesh, calls (mesh_of_pass false mesh)) <$> meshes model)
               ++ mjoin ((λ mesh, calls (mesh_of_pass true mesh)) <$> meshes model))
  ∧ pass_only false t_opaque
  ∧ pass_only true t_alpha
  ∧ draw_passes None (calls r) =
    replicate (length (draws t_opaque)) false ++ replicate (length (draws t_alpha)) true.
Proof.
  intros mesh_of_pass opaque_pass alpha_pass r t_opaque t_alpha.
  assert (Hop : pass_only false t_opaque).
  { apply for_each_pass_only. intros mesh. apply mesh_of_pass_only. }
  assert (Hal : pass_only true t_alpha).
  { unfold t_alpha. destruct (result opaque_pass); try apply pass_only_nil.
    apply for_each_pass_only. intros mesh. apply mesh_of_pass_only. }
  assert (Ht : calls r = t_opaque ++ t_alpha) by apply Model_Draw_calls.
  destruct (for_each_calls (meshes model) (mesh_of_pass false)) as [Hp0 He0].
  destruct (for_each_calls (meshes model) (mesh_of_pass true)) as [Hp1 He1].
  split; [done|]. split; [done|]. split; [|split; [|split; [done|split; [done|]]]].
  - unfold t_alpha. destruct (result opaque_pass); [done|apply prefix_nil..].
  - intros Hr. rewrite Ht. unfold t_alpha, t_opaque.
    assert (Hr' : result r = match result opaque_pass with
                             | Normal _ => result alpha_pass
                             | Throws e => Throws e
                             | Undefined => Undefined
                             end) by apply result_bind.
    rewrite Hr in Hr'. fold opaque_pass alpha_pass in He0, He1.
    destruct (result opaque_pass) as [[]| |]; [|done..].
    by rewrite He0, He1.
  - rewrite Ht. by apply two_passes.
Qed.


End Draw.

(** ** Drawing with a transform array *)

Section Bones.

Context {XMMATRIX : Type}.
Variable c_Invalid : N.
Local Abbreviation Call := (@Call XMMATRIX).
Local Abbreviation exec := (@exec XMMATRIX).

Implicit Types (t : list Call) (part : ModelMeshPart) (mesh : ModelMesh).
Implicit Types (model : @Model XMMATRIX) (a : list XMMATRIX).

(** The test [!nbones || !boneTransforms]. *)
Lemma no_transforms_test (nbones : N) (boneTransforms : option (list XMMATRIX)) :
  (nbones =? 0) || negb (bool_decide (is_Some boneTransforms)) = true
  ↔ nbones = 0 ∨ boneTransforms = None.
Proof.
  rewrite orb_true_iff, N.eqb_eq, negb_true_iff, bool_decide_eq_false.
  rewrite <- eq_None_not_Some. done.
Qed.

Lemma throw_bind {A B} (e : exception) (f : A → exec B) :
  (throw e ≫= f) = throw e.
Proof. done. Qed.

Lemma ret_bind {A B} (x : A) (f : A → exec B) : (mret x ≫= f) = f x.
Proof. unfold mbind, exec_mbind, mret, exec_mret, exec_ret; simpl. by destruct (f x). Qed.

(** C5.  [Model::DrawSkinned] and [ModelMesh::DrawSkinned], called with a
    transform count of zero or a null transform array, throw
    [std::invalid_argument] before they make any call: no draw call is
    issued, whatever bones the model has. *)
Theorem DrawSkinned_requires_transforms model mesh (nbones : N)
    (boneTransforms : option (list XMMATRIX)) (view projection : XMMATRIX)
    (alpha wireframe setCustomState : bool) :
  nbones = 0 ∨ boneTransforms = None →
  let r_model := Model_DrawSkinned c_Invalid model nbones boneTransforms view projection
                                   wireframe setCustomState in
  let r_mesh := ModelMesh_DrawSkinned c_Invalid mesh nbones boneTransforms view
                                      projection alpha setCustomState in
  (∃ e, result r_model = Throws e ∧ InvalidArgument e)
  ∧ calls r_model = [] ∧ draws (calls r_model) = []
  ∧ (∃ e, result r_mesh = Throws e ∧ InvalidArgument e)
  ∧ calls r_mesh = [] ∧ draws (calls r_mesh) = [].
Proof.
  intros Hno r_model r_mesh. apply no_transforms_test in Hno.
  assert (Hmodel : r_model = throw (std_invalid_argument "Bone transforms array required")).
  { unfold r_model, Model_DrawSkinned. rewrite Hno. by rewrite throw_bind. }
  assert (Hmesh : r_mesh = throw (std_invalid_argument "Bone transforms array required")).
  { unfold r_mesh, ModelMesh_DrawSkinned. rewrite Hno. by rewrite throw_bind. }
  rewrite Hmodel, Hmesh. simpl.
  repeat split; try done; eexists; (split; [done|]); by eexists.
Qed.

(** C6.  [Model::Draw] with a transform array, called with a transform
    count of zero or a null transform array: a model without bones throws
    [std::invalid_argument] before any call is made; a model with bones runs
    the two passes with its own bone count and its own [boneMatrices], which
    is also what the call does when it is handed these explicitly. *)
Theorem Model_Draw_bones_substitutes model (nbones : N)
    (boneTransforms : option (list XMMATRIX)) (view projection : XMMATRIX)
    (wireframe setCustomState : bool) :
  nbones = 0 ∨ boneTransforms = None →
  let r := Model_Draw_bones c_Invalid model nbones boneTransforms view projection
                            wireframe setCustomState in
  let own_count := N.of_nat (length (bones model)) in
  match bones model with
  | [] =>
      (∃ e, result r = Throws e ∧ InvalidArgument e)
      ∧ calls r = [] ∧ draws (calls r) = []
  | _ :: _ =>
      r = (Model_Draw_bones_pass c_Invalid model own_count (boneMatrices model)
             view projection false wireframe setCustomState ;;
           Model_Draw_bones_pass c_Invalid model own_count (boneMatrices model)
             view projection true wireframe setCustomState)
      ∧ r = Model_Draw_bones c_Invalid model own_count (boneMatrices model)
              view projection wireframe setCustomState
  end.
Proof.
  intros Hno r own_count. apply no_transforms_test in Hno.
  unfold r, Model_Draw_bones. rewrite Hno.
  destruct (bones model) as [|b bs] eqn:Hb.
  - simpl. repeat split; try done. eexists; split; [done|]. by eexists.
  - assert (Hown : (Model_Draw_bones_pass c_Invalid model own_count (boneMatrices model)
             view projection false wireframe setCustomState ;;
           Model_Draw_bones_pass c_Invalid model own_count (boneMatrices model)
             view projection true wireframe setCustomState) =
           ((mret tt : exec unit) ;; mret (own_count, boneMatrices model)) ≫=
           (λ '(nbones, boneTransforms),
              Model_Draw_bones_pass c_Invalid model nbones boneTransforms
                view projection false wireframe setCustomState ;;
              Model_Draw_bones_pass c_Invalid model nbones boneTransforms
                view projection true wireframe setCustomState)).
    { by rewrite !ret_bind. }
    rewrite bool_decide_eq_false_2 by done.
    unfold own_count in *. split; [by rewrite Hown|].
    destruct ((N.of_nat (length (b :: bs)) =? 0)
              || negb (bool_decide (is_Some (boneMatrices model)))) eqn:Hagain.
    + done.
    + by rewrite <- Hown, ret_bind.
Qed.

(** *** The world matrix of a mesh *)

Lemma pushes_worlds_none (c : exec unit) :
  worlds_pushed (calls c) = [] → pushes_worlds c [].
Proof. intros H. unfold pushes_worlds. by rewrite H. Qed.

Lemma pushes_worlds_bind (c1 c2 : exec unit) e1 e2 :
  pushes_worlds c1 e1 → pushes_worlds c2 e2 → pushes_worlds (c1 ;; c2) (e1 ++ e2).
Proof.
  intros [Hp1 He1] [Hp2 He2]. unfold pushes_worlds.
  rewrite calls_bind, result_bind, worlds_pushed_app.
  destruct (result c1) as [[]| |].
  - rewrite He1 by done. split; [by apply prefix_app|].
    intros Hr. by rewrite He2.
  - simpl. rewrite app_nil_r. split; [by apply prefix_app_r|done].
  - simpl. rewrite app_nil_r. split; [by apply prefix_app_r|done].
Qed.

Lemma pushes_worlds_for_each {A} (l : list A) (body : A → exec unit)
    (f : A → list (addr * XMMATRIX)) :
  (∀ x, pushes_worlds (body x) (f x)) →
  pushes_worlds (for_each l body) (mjoin (f <$> l)).
Proof.
  intros Hbody. induction l as [|x l IH]; [by apply pushes_worlds_none|].
  rewrite for_each_cons. simpl. by apply pushes_worlds_bind.
Qed.

Lemma omap_parts_of_pass {B} alpha (g : ModelMeshPart → option B)
    (parts : list ModelMeshPart) :
  omap g (parts_of_pass alpha parts) =
  mjoin ((λ part, if negb (Bool.eqb (isAlpha part) alpha) then []
                  else option_list (g part)) <$> parts).
Proof.
  unfold parts_of_pass. induction parts as [|part parts IH]; [done|].
  cbn [fmap list_fmap mjoin list_join].
  destruct (decide (isAlpha part = alpha)) as [Heq|Hne].
  - rewrite filter_cons_True by done.
    replace (negb (Bool.eqb (isAlpha part) alpha)) with false
      by (rewrite Heq; by destruct alpha).
    cbn [omap list_omap]. destruct (g part); simpl; f_equal; exact IH.
  - rewrite filter_cons_False by done.
    replace (negb (Bool.eqb (isAlpha part) alpha)) with true
      by (destruct (isAlpha part), alpha; done).
    exact IH.
Qed.

Lemma ModelMeshPart_Draw_pushes part (ieffect : option IEffect) iinputLayout
    (setCustomState : bool) :
  worlds_pushed (calls (ModelMeshPart_Draw part ieffect iinputLayout setCustomState)
                 : list Call) = [].
Proof. rewrite ModelMeshPart_Draw_eq. by destruct ieffect, setCustomState. Qed.

(** [ModelMesh::Draw] pushes the world matrix it is given, once for each
    part of the pass whose effect takes matrices. *)
Lemma ModelMesh_Draw_pushes mesh (world view projection : XMMATRIX)
    (alpha setCustomState : bool) :
  pushes_worlds (ModelMesh_Draw mesh world view projection alpha setCustomState)
                (pushes_of_Draw alpha world mesh).
Proof.
  unfold ModelMesh_Draw, pushes_of_Draw. rewrite omap_parts_of_pass.
  apply pushes_worlds_for_each. intros part.
  destruct (negb _); [by apply pushes_worlds_none|].
  rewrite <- (app_nil_r (option_list _)).
  apply pushes_worlds_bind;
    [|apply pushes_worlds_none, ModelMeshPart_Draw_pushes].
  destruct (dynamic_cast_IEffectMatrices (effect part)) as [e|]; simpl.
  - by split.
  - by apply pushes_worlds_none.
Qed.

Lemma read_matrix_Some a (i : N) :
  read_matrix (Some a) i = deref (a !! N.to_nat i).
Proof. unfold read_matrix. simpl. apply ret_bind. Qed.

(** With [n] matrices in the array, the read of the world matrix of a mesh
    succeeds and yields the matrix of the resolution rule. *)
Lemma read_resolved_world a (n k : N) :
  a ≠ [] → n = N.of_nat (length a) →
  ∃ w, resolved_world c_Invalid k a = Some w
       ∧ (if bool_decide (k ≠ c_Invalid) && (k <? n)
          then read_matrix (Some a) k
          else read_matrix (Some a) 0) = (mret w : exec XMMATRIX).
Proof.
  intros Ha Hn. unfold resolved_world. rewrite !read_matrix_Some.
  destruct (decide (k ≠ c_Invalid ∧ (N.to_nat k < length a)%nat)) as [[Hk Hlt]|Hnot].
  - destruct (lookup_lt_is_Some_2 a (N.to_nat k) Hlt) as [w Hw].
    exists w. split; [done|].
    rewrite bool_decide_eq_true_2 by done.
    replace (k <? n) with true by (symmetry; apply N.ltb_lt; lia).
    simpl. by rewrite Hw.
  - destruct a as [|w0 ws]; [done|]. exists w0. split; [done|].
    destruct (bool_decide (k ≠ c_Invalid) && (k <? n)) eqn:Htest; [|done].
    apply andb_true_iff in Htest as [Hk Hlt].
    apply bool_decide_eq_true in Hk. apply N.ltb_lt in Hlt.
    exfalso. apply Hnot. split; [done|]. simpl in *. lia.
Qed.

Lemma for_each_parts_of_pass alpha (body : ModelMeshPart → exec unit)
    (parts : list ModelMeshPart) :
  for_each parts (λ part, if negb (Bool.eqb (isAlpha part) alpha) then mret tt
                          else body part) =
  for_each (parts_of_pass alpha parts) body.
Proof.
  unfold parts_of_pass. induction parts as [|part parts IH]; [done|].
  rewrite for_each_cons.
  destruct (decide (isAlpha part = alpha)) as [Heq|Hne].
  - rewrite filter_cons_True by done.
    replace (negb (Bool.eqb (isAlpha part) alpha)) with false
      by (rewrite Heq; by destruct alpha).
    by rewrite for_each_cons, IH.
  - rewrite filter_cons_False by done.
    replace (negb (Bool.eqb (isAlpha part) alpha)) with true
      by (destruct (isAlpha part), alpha; done).
    by rewrite ret_bind.
Qed.

(** [ModelMesh::DrawSkinned] past its argument check: the loop over the
    parts of the pass. *)
Lemma ModelMesh_DrawSkinned_eq mesh (n : N) a (view projection : XMMATRIX)
    (alpha setCustomState : bool) :
  a ≠ [] → n = N.of_nat (length a) →
  ModelMesh_DrawSkinned c_Invalid mesh n (Some a) view projection alpha setCustomState =
  for_each (parts_of_pass alpha (meshParts mesh))
           (ModelMesh_DrawSkinned_body c_Invalid mesh n (Some a) view projection
                                       setCustomState).
Proof.
  intros Ha Hn. unfold ModelMesh_DrawSkinned.
  replace (n =? 0) with false
    by (symmetry; apply N.eqb_neq; destruct a; simpl in *; [done|lia]).
  rewrite (bool_decide_eq_true_2 (is_Some (Some a))) by by eexists.
  cbn [orb negb]. rewrite ret_bind.
  by rewrite <- for_each_parts_of_pass.
Qed.

Lemma ModelMesh_DrawSkinned_body_pushes mesh (n : N) a (w view projection : XMMATRIX)
    (setCustomState : bool) part :
  (if bool_decide (boneIndex mesh ≠ c_Invalid) && (boneIndex mesh <? n)
   then read_matrix (Some a) (boneIndex mesh)
   else read_matrix (Some a) 0) = (mret w : exec XMMATRIX) →
  pushes_worlds
    (ModelMesh_DrawSkinned_body c_Invalid mesh n (Some a) view projection
                                setCustomState part)
    (option_list
       match dynamic_cast_IEffectSkinning (effect part) with
       | Some _ => None
       | None => (λ e, (effect_this e, w)) <$> dynamic_cast_IEffectMatrices (effect part)
       end).
Proof.
  intros Hread. unfold ModelMesh_DrawSkinned_body. rewrite Hread.
  destruct (effect part) as [[e m sk]|]; simpl.
  - destruct sk, m, (bool_decide (boneInfluences mesh = [])), setCustomState;
      simpl; (apply pushes_worlds_none; reflexivity) || (split; reflexivity).
  - by apply pushes_worlds_none.
Qed.

(** With an effect on every part, a pass of [Model::Draw] with a transform
    array runs to its end: the read of the world matrix of a mesh never
    leaves the array. *)
Lemma Model_Draw_bones_pass_normal model a (n : N) (view projection : XMMATRIX)
    (alpha wireframe setCustomState : bool) :
  a ≠ [] → n = N.of_nat (length a) →
  Forall (λ part, is_Some (effect part)) (all_parts model) →
  result (Model_Draw_bones_pass c_Invalid model n (Some a) view projection alpha
                                wireframe setCustomState) = Normal tt.
Proof.
  intros Ha Hn Hall. unfold Model_Draw_bones_pass.
  apply for_each_normal. apply Forall_forall. intros mesh' Hmesh.
  rewrite result_bind, ModelMesh_PrepareForRendering_eq. cbn [result snd].
  destruct (read_resolved_world a n (boneIndex mesh') Ha Hn) as (w & _ & Hread).
  destruct (bool_decide (boneIndex mesh' ≠ c_Invalid) && (boneIndex mesh' <? n));
    rewrite Hread, ret_bind;
    apply ModelMesh_Draw_draws; by eapply all_parts_mesh.
Qed.

(** The loop body of [ModelMesh::DrawSkinned] returns normally on a part
    that has an effect, unless the effect does skinning and the mesh has no
    bone influences. *)
Lemma ModelMesh_DrawSkinned_body_normal mesh (n : N) a (w view projection : XMMATRIX)
    (setCustomState : bool) part :
  (if bool_decide (boneIndex mesh ≠ c_Invalid) && (boneIndex mesh <? n)
   then read_matrix (Some a) (boneIndex mesh)
   else read_matrix (Some a) 0) = (mret w : exec XMMATRIX) →
  is_Some (effect part) →
  (boneInfluences mesh = [] → skinning_part part = false) →
  result (ModelMesh_DrawSkinned_body c_Invalid mesh n (Some a) view projection
                                     setCustomState part) = Normal tt.
Proof.
  intros Hread [[e m sk] He] Hsk.
  unfold ModelMesh_DrawSkinned_body, skinning_part in *.
  rewrite Hread. rewrite He in *. simpl in *.
  destruct (decide (boneInfluences mesh = [])) as [Hinf|Hinf].
  - specialize (Hsk Hinf). destruct sk; [done|]. by destruct m, setCustomState.
  - rewrite bool_decide_eq_false_2 by done. by destruct sk, m, setCustomState.
Qed.

(** C2.  With a non-empty transform array of [n] matrices, the world
    matrix pushed for a mesh is the one of the resolution rule: the first
    matrix of the array when the bone index of the mesh is
    [ModelBone::c_Invalid], the matrix at the bone index when that index is
    below [n], and the first matrix again when it is not.  [Model::Draw]
    with a transform array, on a model whose parts have an effect each,
    returns normally after it pushed that matrix, in both passes and mesh
    by mesh, to every part whose effect takes matrices.
    [ModelMesh::DrawSkinned], on a pass whose parts have an effect each
    (and none a skinning one if the mesh has no bone influences), returns
    normally after it pushed that matrix to every part of the pass whose
    effect takes matrices and does no skinning.  Without these conditions
    on the parts, the pushes made are the first of these, up to where the
    run stops. *)
Theorem world_matrix_resolution model mesh a (n : N) (view projection : XMMATRIX)
    (alpha wireframe setCustomState : bool) :
  a ≠ [] → n = N.of_nat (length a) →
  ∃ world : ModelMesh → XMMATRIX,
    (∀ mesh, resolved_world c_Invalid (boneIndex mesh) a = Some (world mesh))
    ∧ (∀ k : N, resolved_world c_Invalid k a =
                if decide (k = c_Invalid) then a !! 0%nat
                else if decide (k < n) then a !! N.to_nat k
                else a !! 0%nat)
    ∧ (let r : exec unit :=
         Model_Draw_bones c_Invalid model n (Some a) view projection wireframe
                          setCustomState in
       let expected :=
         mjoin ((λ mesh, pushes_of_Draw false (world mesh) mesh) <$> meshes model)
         ++ mjoin ((λ mesh, pushes_of_Draw true (world mesh) mesh) <$> meshes model) in
       worlds_pushed (calls r) `prefix_of` expected
       ∧ (Forall (λ part, is_Some (effect part)) (all_parts model) →
          result r = Normal tt ∧ worlds_pushed (calls r) = expected))
    ∧ (let r : exec unit :=
         ModelMesh_DrawSkinned c_Invalid mesh n (Some a) view projection alpha
                               setCustomState in
       let expected := pushes_of_DrawSkinned alpha (world mesh) mesh in
       worlds_pushed (calls r) `prefix_of` expected
       ∧ (Forall (λ part, is_Some (effect part)
                          ∧ (boneInfluences mesh = [] → skinning_part part = false))
                 (parts_of_pass alpha (meshParts mesh)) →
          result r = Normal tt ∧ worlds_pushed (calls r) = expected)).
Proof.
  intros Ha Hn.
  destruct a as [|w0 ws] eqn:Ea; [done|]. rewrite <- Ea in *.
  exists (λ mesh, default w0 (resolved_world c_Invalid (boneIndex mesh) a)).
  assert (Hworld : ∀ mesh,
            resolved_world c_Invalid (boneIndex mesh) a =
            Some (default w0 (resolved_world c_Invalid (boneIndex mesh) a))
            ∧ (if bool_decide (boneIndex mesh ≠ c_Invalid) && (boneIndex mesh <? n)
               then read_matrix (Some a) (boneIndex mesh)
               else read_matrix (Some a) 0) =
              (mret (default w0 (resolved_world c_Invalid (boneIndex mesh) a))
               : exec XMMATRIX)).
  { intros mesh'.
    destruct (read_resolved_world a n (boneIndex mesh') Ha Hn) as (w & Hw & Hread).
    by rewrite Hw. }
  split; [intros mesh'; apply Hworld|]. split; [|split].
  - intros k. unfold resolved_world.
    destruct (decide (k = c_Invalid)) as [Hk|Hk].
    + rewrite decide_False by (intros [? _]; done). done.
    + destruct (decide (k < n)) as [Hlt|Hge].
      * rewrite decide_True by (split; [done|lia]). done.
      * rewrite decide_False by (intros [_ ?]; lia). done.
  - intros r expected.
    assert (Hpushes : pushes_worlds r expected).
    { unfold r, expected, Model_Draw_bones.
      replace (n =? 0) with false
        by (symmetry; apply N.eqb_neq; rewrite Hn, Ea; simpl; lia).
      rewrite (bool_decide_eq_true_2 (is_Some (Some a))) by by eexists.
      cbn [orb negb]. rewrite ret_bind.
      apply pushes_worlds_bind; unfold Model_Draw_bones_pass;
        apply pushes_worlds_for_each; intros mesh';
        rewrite <- (app_nil_l (pushes_of_Draw _ _ _));
        (apply pushes_worlds_bind;
         [apply pushes_worlds_none; by rewrite ModelMesh_PrepareForRendering_eq|]);
        destruct (Hworld mesh') as [_ Hread];
        destruct (bool_decide (boneIndex mesh' ≠ c_Invalid) && (boneIndex mesh' <? n));
        rewrite Hread, ret_bind; apply ModelMesh_Draw_pushes. }
    destruct Hpushes as [Hprefix Hall]. split; [exact Hprefix|].
    intros Heffects.
    assert (Hr : result r = Normal tt).
    { unfold r, Model_Draw_bones.
      replace (n =? 0) with false
        by (symmetry; apply N.eqb_neq; rewrite Hn, Ea; simpl; lia).
      rewrite (bool_decide_eq_true_2 (is_Some (Some a))) by by eexists.
      cbn [orb negb]. rewrite ret_bind, result_bind.
      by rewrite !Model_Draw_bones_pass_normal. }
    split; [exact Hr|by apply Hall].
  - intros r expected.
    destruct (Hworld mesh) as [_ Hread].
    assert (Hpushes : pushes_worlds r expected).
    { unfold r, expected. rewrite ModelMesh_DrawSkinned_eq by done.
      unfold pushes_of_DrawSkinned.
      generalize (parts_of_pass alpha (meshParts mesh)). intros parts.
      induction parts as [|part parts IH]; [by apply pushes_worlds_none|].
      rewrite for_each_cons. cbn [omap list_omap].
      match goal with
      | |- pushes_worlds _ (match ?o with _ => _ end) =>
          replace (match o with Some y => y :: omap _ parts | None => omap _ parts end)
            with (option_list o ++ omap
                    (λ part,
                       match dynamic_cast_IEffectSkinning (effect part) with
                       | Some _ => None
                       | None => (λ e, (effect_this e,
                                        default w0 (resolved_world c_Invalid
                                                      (boneIndex mesh) a)))
                                 <$> dynamic_cast_IEffectMatrices (effect part)
                       end) parts)
            by (by destruct o)
      end.
      apply pushes_worlds_bind; [|exact IH].
      by apply ModelMesh_DrawSkinned_body_pushes. }
    destruct Hpushes as [Hprefix Hall]. split; [exact Hprefix|].
    intros Hparts.
    assert (Hr : result r = Normal tt).
    { unfold r. rewrite ModelMesh_DrawSkinned_eq by done.
      apply for_each_normal.
      eapply Forall_impl; [exact Hparts|]. intros part [Heff Hsk]. simpl.
      by eapply ModelMesh_DrawSkinned_body_normal. }
    split; [exact Hr|by apply Hall].
Qed.

(** *** Skinning without bone influences *)

Lemma bind_assoc {A B C} (c : exec A) (f : A → exec B) (g : B → exec C) :
  (c ≫= f) ≫= g = c ≫= (λ x, f x ≫= g).
Proof.
  apply exec_eq.
  - rewrite !calls_bind, result_bind, <- app_assoc. f_equal.
    destruct (result c); [|done..]. by rewrite calls_bind.
  - rewrite !result_bind. destruct (result c); [|done..]. by rewrite result_bind.
Qed.

Lemma for_each_app {A} (l1 l2 : list A) (body : A → exec unit) :
  for_each (l1 ++ l2) body = (for_each l1 body ;; for_each l2 body).
Proof.
  induction l1 as [|x l1 IH].
  - rewrite app_nil_l. change (for_each [] body) with (mret tt : exec unit).
    by rewrite ret_bind.
  - by rewrite <- app_comm_cons, !for_each_cons, IH, bind_assoc.
Qed.

(** The loop body of [ModelMesh::DrawSkinned] on a part whose effect does
    no skinning: it draws the part, or it runs into the missing effect. *)
Lemma ModelMesh_DrawSkinned_body_rigid mesh (n : N) a (w view projection : XMMATRIX)
    (setCustomState : bool) part :
  (if bool_decide (boneIndex mesh ≠ c_Invalid) && (boneIndex mesh <? n)
   then read_matrix (Some a) (boneIndex mesh)
   else read_matrix (Some a) 0) = (mret w : exec XMMATRIX) →
  skinning_part part = false →
  let r := ModelMesh_DrawSkinned_body c_Invalid mesh n (Some a) view projection
                                      setCustomState part in
  match effect part with
  | Some _ => result r = Normal tt ∧ draws (calls r) = [part_draw part]
  | None => result r = Undefined ∧ draws (calls r) = []
  end.
Proof.
  intros Hread Hsk r. unfold r, ModelMesh_DrawSkinned_body, skinning_part in *.
  rewrite Hread.
  destruct (effect part) as [[e m sk]|]; simpl in *; [|done].
  destruct sk; [done|].
  by destruct m, setCustomState.
Qed.

(** The same on a part whose effect does skinning, in a mesh without bone
    influences: the exception, and no draw. *)
Lemma ModelMesh_DrawSkinned_body_skinning mesh (n : N)
    (boneTransforms : option (list XMMATRIX)) (view projection : XMMATRIX)
    (setCustomState : bool) part :
  boneInfluences mesh = [] →
  skinning_part part = true →
  let r := ModelMesh_DrawSkinned_body c_Invalid mesh n boneTransforms view projection
                                      setCustomState part in
  result r = Throws (std_runtime_error "Skinning a model requires bone influences")
  ∧ draws (calls r) = [].
Proof.
  intros Hinf Hsk r. unfold r, ModelMesh_DrawSkinned_body, skinning_part in *.
  rewrite Hinf.
  destruct (effect part) as [[e m sk]|]; simpl in *; [|done].
  destruct sk; [|done].
  by destruct m.
Qed.

(** C4 (as amended).  [ModelMesh::DrawSkinned] on a mesh without bone
    influences, with a non-empty transform array: when a part of the pass
    has a skinning effect, the call throws the [std::runtime_error] for the
    missing influences at the first such part, before the draw of that part
    and after the draws of the parts of the pass that come before it; when
    no part of the pass has a skinning effect, the call throws nothing. *)
Theorem ModelMesh_DrawSkinned_without_influences mesh a (n : N)
    (view projection : XMMATRIX) (alpha setCustomState : bool) :
  a ≠ [] → n = N.of_nat (length a) →
  boneInfluences mesh = [] →
  let r := ModelMesh_DrawSkinned c_Invalid mesh n (Some a) view projection alpha
                                 setCustomState in
  (∀ before part after,
     parts_of_pass alpha (meshParts mesh) = before ++ part :: after →
     Forall (λ p, is_Some (effect p) ∧ skinning_part p = false) before →
     skinning_part part = true →
     (∃ e, result r = Throws e ∧ MissingSkinningData e)
     ∧ draws (calls r) = part_draw <$> before)
  ∧ (Forall (λ p, skinning_part p = false) (parts_of_pass alpha (meshParts mesh)) →
     ∀ e, result r ≠ Throws e).
Proof.
  intros Ha Hn Hinf r. unfold r. rewrite ModelMesh_DrawSkinned_eq by done.
  destruct (read_resolved_world a n (boneIndex mesh) Ha Hn) as (w & _ & Hread).
  split.
  - intros before part after -> Hbefore Hpart.
    rewrite for_each_app, for_each_cons.
    assert (Hb : Forall (λ p, result (ModelMesh_DrawSkinned_body c_Invalid mesh n
                                        (Some a) view projection setCustomState p)
                              = Normal tt) before
                 ∧ mjoin ((λ p, draws (calls (ModelMesh_DrawSkinned_body c_Invalid
                                   mesh n (Some a) view projection setCustomState p)))
                          <$> before) = part_draw <$> before).
    { clear Hpart. induction Hbefore as [|p ps [[e He] Hsk] _ [IH1 IH2]]; [done|].
      pose proof (ModelMesh_DrawSkinned_body_rigid mesh n a w view projection
                    setCustomState p Hread Hsk) as Hp.
      rewrite He in Hp. destruct Hp as [Hp1 Hp2].
      split; [by constructor|].
      cbn [fmap list_fmap mjoin list_join]. rewrite Hp2. simpl. f_equal. exact IH2. }
    destruct Hb as [Hb1 Hb2].
    destruct (for_each_normal _ _ Hb1) as [Hr Hc].
    destruct (ModelMesh_DrawSkinned_body_skinning mesh n (Some a) view projection
                setCustomState part Hinf Hpart) as [Hp1 Hp2].
    rewrite !result_bind, !calls_bind, Hr, Hp1. split.
    + eexists. by split.
    + rewrite app_nil_r, draws_app, Hp2, app_nil_r, Hc, draws_mjoin.
      by rewrite <- list_fmap_compose.
  - intros Hnone e.
    induction Hnone as [|p ps Hsk _ IH]; [done|].
    rewrite for_each_cons, result_bind.
    pose proof (ModelMesh_DrawSkinned_body_rigid mesh n a w view projection
                  setCustomState p Hread Hsk) as Hp.
    destruct (effect p); destruct Hp as [-> _]; done.
Qed.

End Bones.

(** ** Effects and input layouts *)

Section Effects.

Context {XMMATRIX : Type}.
Local Abbreviation Call := (@Call XMMATRIX).
Local Abbreviation exec := (@exec XMMATRIX).

Implicit Types (part : ModelMeshPart) (mesh : ModelMesh) (model : @Model XMMATRIX).
Implicit Types (cache : gset addr).







(** C8.  [ModelMeshPart::CreateInputLayout] throws one of its two
    [std::runtime_error]s exactly when the vertex declaration is absent,
    empty or longer than the input assembler has slots; it then has not
    called the input-layout factory, and the slot of the out parameter
    holds null. *)
Theorem CreateInputLayout_InvalidConfiguration part (d3dDevice : ID3D11Device)
    (ieffect : option IEffect) (iinputLayout : option (option addr)) :
  let r := ModelMeshPart_CreateInputLayout part d3dDevice ieffect iinputLayout in
  ((∃ e, result (r.2 : exec unit) = Throws e ∧ InvalidConfiguration e)
   ↔ descriptor_invalid part)
  ∧ (descriptor_invalid part →
     calls (r.2 : exec unit) = []
     ∧ r.1 = match iinputLayout with
             | Some _ => Some None
             | None => None
             end).
Proof.
  intros r. unfold r, ModelMeshPart_CreateInputLayout, descriptor_invalid.
  destruct (vbDecl part) as [decl|]; simpl.
  - destruct (decide (decl = [])) as [->|Hne].
    + simpl. split; [|done]. split; [by left|].
      intros _. eexists. split; [done|]. by left.
    + rewrite bool_decide_eq_false_2 by done.
      destruct (D3D11_IA_VERTEX_INPUT_STRUCTURE_ELEMENT_COUNT <? N.of_nat (length decl))
        eqn:Hlen.
      * apply N.ltb_lt in Hlen. simpl. split; [|done]. split; [by right|].
        intros _. eexists. split; [done|]. by right.
      * apply N.ltb_ge in Hlen.
        destruct (d3dDevice ieffect decl) as [hr created]. simpl. split.
        -- split.
           ++ intros (e & He & Hconf). exfalso.
              unfold ThrowIfFailed in He.
              destruct (hr <? 0)%Z; simpl in He; [|done].
              injection He as <-. by destruct Hconf.
           ++ intros [?|?]; [done|lia].
        -- intros [?|?]; [done|lia].
  - split; [|done]. split; [done|].
    intros _. eexists. split; [done|]. by left.
Qed.

(** C9.  [ModelMeshPart::ModifyEffect] on a part whose vertex declaration
    is absent, empty or too long throws before it touches the part: the
    part is as it was, its effect, its [isAlpha] and its input layout in
    particular, and the input-layout factory was not called. *)
Theorem ModifyEffect_checks_first part (d3dDevice : ID3D11Device)
    (ieffect : option IEffect) (isalpha : bool) :
  descriptor_invalid part →
  let r := ModelMeshPart_ModifyEffect part d3dDevice ieffect isalpha in
  (∃ e, result (r.2 : exec unit) = Throws e ∧ InvalidConfiguration e)
  ∧ calls (r.2 : exec unit) = []
  ∧ r.1 = part
  ∧ effect r.1 = effect part
  ∧ isAlpha r.1 = isAlpha part
  ∧ inputLayout r.1 = inputLayout part.
Proof.
  unfold descriptor_invalid, ModelMeshPart_ModifyEffect.
  destruct (vbDecl part) as [decl|]; simpl.
  - intros [->|Hlong]; simpl.
    + repeat split; try done. eexists. split; [done|]. by left.
    + destruct (bool_decide (decl = [])); simpl.
      * repeat split; try done. eexists. split; [done|]. by left.
      * apply N.ltb_lt in Hlong. rewrite Hlong. simpl.
        repeat split; try done. eexists. split; [done|]. by right.
  - intros _. repeat split; try done. eexists. split; [done|]. by left.
Qed.

End Effects.

(** ** Tone mapping *)

Section ToneMapPermutation.

Local Open Scope Z_scope.

(** The setters leave an operator and a transfer function within the
    enumerations. *)
Lemma SetOperator_range (impl : ToneMap.Impl) (op' : Z) (impl' : ToneMap.Impl) :
  ToneMap.SetOperator impl op' = Normal impl' →
  0 ≤ ToneMap.op impl' < ToneMap.Operator_Max
  ∧ ToneMap.func impl' = ToneMap.func impl
  ∧ ToneMap.mrt impl' = ToneMap.mrt impl.
Proof.
  unfold ToneMap.SetOperator.
  destruct ((op' <? 0) || (op' >=? ToneMap.Operator_Max)) eqn:Htest; [done|].
  intros [= <-]. simpl. apply orb_false_iff in Htest as [H1 H2].
  apply Z.ltb_ge in H1. rewrite Z.geb_leb in H2. apply Z.leb_gt in H2.
  repeat split; try done; lia.
Qed.

Lemma SetTransferFunction_range (impl : ToneMap.Impl) (func' : Z)
    (impl' : ToneMap.Impl) :
  ToneMap.SetTransferFunction impl func' = Normal impl' →
  0 ≤ ToneMap.func impl' < ToneMap.TransferFunction_Max
  ∧ ToneMap.op impl' = ToneMap.op impl
  ∧ ToneMap.mrt impl' = ToneMap.mrt impl.
Proof.
  unfold ToneMap.SetTransferFunction.
  destruct ((func' <? 0) || (func' >=? ToneMap.TransferFunction_Max)) eqn:Htest;
    [done|].
  intros [= <-]. simpl. apply orb_false_iff in Htest as [H1 H2].
  apply Z.ltb_ge in H1. rewrite Z.geb_leb in H2. apply Z.leb_gt in H2.
  repeat split; try done; lia.
Qed.

(** Every state of a [ToneMapPostProcess] has its operator and its
    transfer function within the enumerations. *)
Lemma reachable_range (xbox_one_title : bool) (impl : ToneMap.Impl) :
  ToneMap.reachable xbox_one_title impl →
  0 ≤ ToneMap.op impl < ToneMap.Operator_Max
  ∧ 0 ≤ ToneMap.func impl < ToneMap.TransferFunction_Max.
Proof.
  induction 1 as [featureLevel impl Hnew
                  |impl op' impl' _ [IHo IHf] Hset
                  |impl func' impl' _ [IHo IHf] Hset
                  |impl value _ _ IH].
  - unfold ToneMap.Impl_ctor in Hnew.
    destruct (featureLevel <? ToneMap.D3D_FEATURE_LEVEL_10_0); [done|].
    injection Hnew as <-. by vm_compute.
  - apply SetOperator_range in Hset as (Ho & Hf & _). by rewrite Hf.
  - apply SetTransferFunction_range in Hset as (Hf & Ho & _). by rewrite Ho.
  - exact IH.
Qed.

(** C10.  With the operator within [0, Operator_Max) and the transfer
    function within [0, TransferFunction_Max), on either build,
    [GetCurrentShaderPermutation] is within [0, ShaderPermutationCount):
    [pixelShaderIndices] has an entry there, that entry is within
    [0, PixelShaderCount), and [GetPixelShader] selects it. *)
Theorem GetCurrentShaderPermutation_in_bounds (xbox_one_title : bool)
    (impl : ToneMap.Impl) :
  0 ≤ ToneMap.op impl < ToneMap.Operator_Max →
  0 ≤ ToneMap.func impl < ToneMap.TransferFunction_Max →
  let permutation := ToneMap.GetCurrentShaderPermutation xbox_one_title impl in
  0 ≤ permutation < ToneMap.ShaderPermutationCount xbox_one_title
  ∧ Z.of_nat (length (ToneMap.pixelShaderIndices xbox_one_title))
    = ToneMap.ShaderPermutationCount xbox_one_title
  ∧ ∃ shaderIndex,
      ToneMap.pixelShaderIndices xbox_one_title !! Z.to_nat permutation
      = Some shaderIndex
      ∧ 0 ≤ shaderIndex < ToneMap.PixelShaderCount xbox_one_title
      ∧ ToneMap.GetPixelShader xbox_one_title permutation = Normal shaderIndex.
Proof.
  intros Hop Hfunc permutation.
  unfold permutation, ToneMap.GetCurrentShaderPermutation, ToneMap.GetPixelShader,
    ToneMap.subscript, ToneMap.ShaderPermutationCount, ToneMap.PixelShaderCount,
    ToneMap.Operator_Max, ToneMap.TransferFunction_Max in *.
  assert (Hcases : (ToneMap.op impl = 0 ∨ ToneMap.op impl = 1
                    ∨ ToneMap.op impl = 2 ∨ ToneMap.op impl = 3)
                   ∧ (ToneMap.func impl = 0 ∨ ToneMap.func impl = 1
                      ∨ ToneMap.func impl = 2)) by lia.
  destruct Hcases as [Ho Hf].
  destruct xbox_one_title, (ToneMap.mrt impl);
    destruct Ho as [-> | [-> | [-> | ->]]], Hf as [-> | [-> | ->]];
    (split; [simpl; lia|]); (split; [reflexivity|]);
    eexists; (split; [reflexivity|]); (split; [lia|reflexivity]).
Qed.

End ToneMapPermutation.

(** ** The embedding at work *)

Import Sample.

(** The model of two meshes of the specification, the alpha-only mesh
    first: one opaque draw, then one alpha draw. *)
Example two_meshes_Draw :
  let r := Model_Draw two_meshes 5%nat 6%nat 7%nat false false in
  result r = Normal tt
  ∧ draws (calls r) = [(3, 0, 0%Z); (6, 3, 0%Z)]
  ∧ draw_passes None (calls r) = [false; true]
  ∧ worlds_pushed (calls r) = [(32, 5%nat); (32, 5%nat)].
Proof. vm_compute. done. Qed.

(** The three meshes drawn with an array of three matrices: the bone
    indices are [c_Invalid], 7 and 1. *)
Example three_meshes_Draw_bones :
  let r := Model_Draw_bones c_Invalid three_meshes 3 (Some [10; 20; 30]%nat)
                            6%nat 7%nat false false in
  result r = Normal tt
  ∧ draws (calls r) = [(6, 3, 0%Z); (9, 9, 0%Z); (3, 0, 0%Z); (6, 3, 0%Z); (3, 0, 0%Z)]
  ∧ draw_passes None (calls r) = [false; false; false; true; true]
  ∧ worlds_pushed (calls r) = [(32, 10%nat); (32, 20%nat); (32, 10%nat)].
Proof. vm_compute. done. Qed.

(** C2, at the three meshes and an array of three matrices: the bone
    indices [c_Invalid], 7 and 1 resolve to the first, the first and the
    second matrix, and both runs push them. *)
Lemma world_matrix_resolution_witness :
  [10; 20; 30]%nat ≠ [] ∧ 3 = N.of_nat (length [10; 20; 30]%nat)
  ∧ Forall (λ part, is_Some (effect part)) (all_parts three_meshes)
  ∧ Forall (λ part, is_Some (effect part)
                    ∧ (boneInfluences mixed_mesh = [] → skinning_part part = false))
           (parts_of_pass false (meshParts mixed_mesh))
  ∧ ∃ world : ModelMesh → nat,
      world alpha_mesh = 10%nat ∧ world mixed_mesh = 10%nat
      ∧ world opaque_mesh = 20%nat
      ∧ (let r := Model_Draw_bones c_Invalid three_meshes 3 (Some [10; 20; 30]%nat)
                                   6%nat 7%nat false false in
         result r = Normal tt
         ∧ worlds_pushed (calls r)
           = [(32, world mixed_mesh); (32, world opaque_mesh); (32, world alpha_mesh)])
      ∧ (let r := ModelMesh_DrawSkinned c_Invalid mixed_mesh 3 (Some [10; 20; 30]%nat)
                                        6%nat 7%nat false false in
         result r = Normal tt
         ∧ worlds_pushed (calls r) = [(32, world mixed_mesh)]).
Proof.
  assert (H1 : [10; 20; 30]%nat ≠ []) by done.
  assert (H2 : 3 = N.of_nat (length [10; 20; 30]%nat)) by reflexivity.
  assert (H3 : Forall (λ part, is_Some (effect part)) (all_parts three_meshes))
    by (repeat constructor; by eexists).
  assert (H4 : Forall (λ part, is_Some (effect part)
                               ∧ (boneInfluences mixed_mesh = []
                                  → skinning_part part = false))
                      (parts_of_pass false (meshParts mixed_mesh)))
    by (repeat constructor; by eexists).
  split; [exact H1|]. split; [exact H2|]. split; [exact H3|]. split; [exact H4|].
  destruct (world_matrix_resolution c_Invalid three_meshes mixed_mesh [10; 20; 30]%nat 3
              6%nat 7%nat false false false H1 H2)
    as (world & Hworld & Hrule & [_ Hdraw] & [_ Hskinned]).
  exists world.
  pose proof (Hworld alpha_mesh) as Ealpha.
  pose proof (Hworld mixed_mesh) as Emixed.
  pose proof (Hworld opaque_mesh) as Eopaque.
  rewrite Hrule in Ealpha, Emixed, Eopaque.
  vm_compute in Ealpha, Emixed, Eopaque.
  injection Ealpha as Ealpha. injection Emixed as Emixed. injection Eopaque as Eopaque.
  split; [done|]. split; [done|]. split; [done|].
  split; [exact (Hdraw H3)|exact (Hskinned H4)].
Defined.


(** C4 as claimed fails: with no bone influences, the mesh whose second
    opaque part has a skinning effect has drawn its first part when the
    exception is thrown, and the mesh whose only skinning part is an alpha
    part draws its opaque pass without any exception. *)
Lemma DrawSkinned_draws_before_missing_influences :
  let r := ModelMesh_DrawSkinned c_Invalid rigid_then_skinned 1 (Some [7%nat])
                                 0%nat 0%nat false false in
  let r' := ModelMesh_DrawSkinned c_Invalid skinned_alpha_only 1 (Some [7%nat])
                                  0%nat 0%nat false false in
  (Exists (λ part, skinning_part part = true) (meshParts rigid_then_skinned)
   ∧ boneInfluences rigid_then_skinned = []
   ∧ result r = Throws (std_runtime_error "Skinning a model requires bone influences")
   ∧ draws (calls r) = [(3, 0, 0%Z)]
   ∧ length (draws (calls r)) ≠ 0%nat)
  ∧ (Exists (λ part, skinning_part part = true) (meshParts skinned_alpha_only)
     ∧ boneInfluences skinned_alpha_only = []
     ∧ result r' = Normal tt
     ∧ calls r' = []).
Proof.
  split.
  - split; [right; left; reflexivity|]. by vm_compute.
  - split; [left; reflexivity|]. by vm_compute.
Qed.

(** C4 as amended, at the same mesh. *)
Lemma ModelMesh_DrawSkinned_without_influences_witness :
  [7%nat] ≠ [] ∧ 1 = N.of_nat (length [7%nat])
  ∧ boneInfluences rigid_then_skinned = []
  ∧ let r := ModelMesh_DrawSkinned c_Invalid rigid_then_skinned 1 (Some [7%nat])
                                   0%nat 0%nat false false in
    (∃ e, result r = Throws e ∧ MissingSkinningData e)
    ∧ draws (calls r) = [(3, 0, 0%Z)].
Proof.
  assert (H1 : [7%nat] ≠ []) by done.
  assert (H2 : 1 = N.of_nat (length [7%nat])) by reflexivity.
  assert (H3 : boneInfluences rigid_then_skinned = []) by reflexivity.
  split; [exact H1|]. split; [exact H2|]. split; [exact H3|].
  apply (proj1 (ModelMesh_DrawSkinned_without_influences c_Invalid rigid_then_skinned
                  [7%nat] 1 0%nat 0%nat false false H1 H2 H3)
               [make_part (Some plain_effect) false 3 0 (Some [0])]
               (make_part (Some skinned_effect) false 6 3 (Some [0]))
               [make_part (Some plain_effect) false 9 9 (Some [0])]).
  - reflexivity.
  - repeat constructor. by eexists.
  - reflexivity.
Defined.

(** C5, at the three meshes, which have bones of their own. *)
Lemma DrawSkinned_requires_transforms_witness :
  (0 = 0 ∨ (None : option (list nat)) = None)
  ∧ let r_model := Model_DrawSkinned c_Invalid three_meshes 0 None 6%nat 7%nat
                                     false false in
    let r_mesh := ModelMesh_DrawSkinned c_Invalid mixed_mesh 0 None 6%nat 7%nat
                                        true false in
    (∃ e, result r_model = Throws e ∧ InvalidArgument e)
    ∧ calls r_model = [] ∧ draws (calls r_model) = []
    ∧ (∃ e, result r_mesh = Throws e ∧ InvalidArgument e)
    ∧ calls r_mesh = [] ∧ draws (calls r_mesh) = [].
Proof.
  assert (H : 0 = 0 ∨ (None : option (list nat)) = None) by (by left).
  split; [exact H|].
  exact (DrawSkinned_requires_transforms c_Invalid three_meshes mixed_mesh 0 None
           6%nat 7%nat true false false H).
Defined.

(** C6, at the three meshes, which have two bones, and at the two meshes,
    which have none. *)
Lemma Model_Draw_bones_substitutes_witness :
  (0 = 0 ∨ Some [10%nat] = None)
  ∧ (let r := Model_Draw_bones c_Invalid three_meshes 0 (Some [10%nat]) 6%nat 7%nat
                               false false in
     r = (Model_Draw_bones_pass c_Invalid three_meshes 2 (Some [100; 101]%nat)
            6%nat 7%nat false false false ;;
          Model_Draw_bones_pass c_Invalid three_meshes 2 (Some [100; 101]%nat)
            6%nat 7%nat true false false)
     ∧ r = Model_Draw_bones c_Invalid three_meshes 2 (Some [100; 101]%nat)
             6%nat 7%nat false false)
  ∧ (let r := Model_Draw_bones c_Invalid two_meshes 0 (Some [10%nat]) 6%nat 7%nat
                               false false in
     (∃ e, result r = Throws e ∧ InvalidArgument e)
     ∧ calls r = [] ∧ draws (calls r) = []).
Proof.
  assert (H : 0 = 0 ∨ Some [10%nat] = None) by (by left).
  split; [exact H|]. split.
  - exact (Model_Draw_bones_substitutes c_Invalid three_meshes 0 (Some [10%nat])
             6%nat 7%nat false false H).
  - exact (Model_Draw_bones_substitutes c_Invalid two_meshes 0 (Some [10%nat])
             6%nat 7%nat false false H).
Defined.

(** The three meshes hold five parts on two effects: a call visits the
    two, in the order of their addresses. *)
Example three_meshes_UpdateEffects :
  visited (calls (Model_UpdateEffects three_meshes).2) = [16; 32].
Proof. by vm_compute. Qed.



(** C9, at the part without a vertex declaration. *)
Lemma ModifyEffect_checks_first_witness :
  descriptor_invalid undeclared_part
  ∧ let r := @ModelMeshPart_ModifyEffect nat undeclared_part device
               (Some matrix_effect) true in
    (∃ e, result (r.2 : exec unit) = Throws e ∧ InvalidConfiguration e)
    ∧ calls (r.2 : exec unit) = []
    ∧ r.1 = undeclared_part
    ∧ effect r.1 = effect undeclared_part
    ∧ isAlpha r.1 = isAlpha undeclared_part
    ∧ inputLayout r.1 = inputLayout undeclared_part.
Proof.
  assert (H : descriptor_invalid undeclared_part) by exact I.
  split; [exact H|].
  exact (ModifyEffect_checks_first (XMMATRIX := nat) undeclared_part device
           (Some matrix_effect) true H).
Defined.

(** C10, at the last permutation of the Xbox One build: the filmic
    operator under ST.2084 with two render targets. *)
Lemma GetCurrentShaderPermutation_in_bounds_witness :
  let impl := {| ToneMap.op := ToneMap.ACESFilmic; ToneMap.func := ToneMap.ST2084;
                 ToneMap.mrt := true; ToneMap.mUseConstants := true;
                 ToneMap.mDirtyFlags := ToneMap.INT_MAX |} in
  (0 ≤ ToneMap.op impl < ToneMap.Operator_Max)%Z
  ∧ (0 ≤ ToneMap.func impl < ToneMap.TransferFunction_Max)%Z
  ∧ (0 ≤ 23 < 24)%Z
  ∧ Z.of_nat (length (ToneMap.pixelShaderIndices true)) = 24%Z
  ∧ ∃ shaderIndex,
      ToneMap.pixelShaderIndices true !! 23%nat = Some shaderIndex
      ∧ (0 ≤ shaderIndex < 13)%Z
      ∧ ToneMap.GetPixelShader true 23 = Normal shaderIndex.
Proof.
  intros impl.
  assert (H1 : (0 ≤ ToneMap.op impl < ToneMap.Operator_Max)%Z) by (by vm_compute).
  assert (H2 : (0 ≤ ToneMap.func impl < ToneMap.TransferFunction_Max)%Z)
    by (by vm_compute).
  split; [exact H1|]. split; [exact H2|].
  exact (GetCurrentShaderPermutation_in_bounds true impl H1 H2).
Defined.

(** * Further properties

    What follows covers the member functions past the claims above.  As
    before, the calls on the device context, on [CommonStates], on the
    effects and on the callback of the caller are recorded and taken to
    return: an exception or undefined behaviour named below is one that the
    member function itself runs into.  For [ToneMapPostProcess::Process] the
    collaborators that can fail are given their answers ([Answers]). *)

(** ** The three draws of a model *)

Section MoreDraw.

Context {XMMATRIX : Type}.
Variable c_Invalid : N.
Local Abbreviation Call := (@Call XMMATRIX).
Local Abbreviation exec := (@exec XMMATRIX).

Implicit Types (t : list Call) (part : ModelMeshPart) (mesh : ModelMesh).
Implicit Types (model : @Model XMMATRIX) (a : list XMMATRIX) (cur : RenderState).

Lemma for_each_normal_inv {A} (l : list A) (body : A → exec unit) :
  result (for_each l body) = Normal tt →
  Forall (λ x, result (body x) = Normal tt) l.
Proof.
  induction l as [|x l IH]; [by constructor|].
  rewrite for_each_cons, result_bind.
  destruct (result (body x)) as [[]| |] eqn:Hx; [|done..].
  intros Hl. constructor; [done|by apply IH].
Qed.

Lemma for_each_never_throws {A} (l : list A) (body : A → exec unit) :
  (∀ x e, result (body x) ≠ Throws e) →
  ∀ e, result (for_each l body) ≠ Throws e.
Proof.
  intros Hbody e. induction l as [|x l IH]; [done|].
  rewrite for_each_cons, result_bind.
  destruct (result (body x)) as [[]| |] eqn:Hx; [done| |done].
  by destruct (Hbody x e0).
Qed.

(** [ModelMesh::Draw] returns normally exactly when the parts of the pass
    have an effect each, and never throws. *)
Lemma ModelMesh_Draw_result mesh (world view projection : XMMATRIX)
    (alpha setCustomState : bool) :
  let r := ModelMesh_Draw mesh world view projection alpha setCustomState in
  (result r = Normal tt
   ↔ Forall (λ part, is_Some (effect part)) (parts_of_pass alpha (meshParts mesh)))
  ∧ ∀ e, result r ≠ Throws e.
Proof.
  intros r. unfold r, ModelMesh_Draw. rewrite for_each_parts_of_pass.
  generalize (parts_of_pass alpha (meshParts mesh)). intros parts.
  assert (Hbody : ∀ part,
            result (match dynamic_cast_IEffectMatrices (effect part) with
                    | Some e => call (Effect_SetMatrices (effect_this e) world view
                                                         projection)
                    | None => mret tt
                    end ;;
                    ModelMeshPart_Draw part (effect part) (inputLayout part)
                                       setCustomState : exec unit)
            = match effect part with Some _ => Normal tt | None => Undefined end).
  { intros part. rewrite result_bind, ModelMeshPart_Draw_eq.
    destruct (effect part) as [e|]; simpl; [by destruct (as_IEffectMatrices e)|done]. }
  split.
  - split.
    + intros Hr. apply for_each_normal_inv in Hr.
      eapply Forall_impl; [exact Hr|]. intros part Hp. simpl in Hp.
      rewrite Hbody in Hp. by destruct (effect part).
    + intros Hall. apply for_each_normal.
      eapply Forall_impl; [exact Hall|]. intros part [e He]. simpl.
      by rewrite Hbody, He.
  - apply for_each_never_throws. intros part e. rewrite Hbody.
    by destruct (effect part).
Qed.

Lemma parts_of_pass_elem alpha (parts : list ModelMeshPart) part :
  part ∈ parts_of_pass alpha parts ↔ isAlpha part = alpha ∧ part ∈ parts.
Proof.
  unfold parts_of_pass. apply (list_elem_of_filter (λ p, isAlpha p = alpha)).
Qed.

(** X1.  [Model::Draw] with a world matrix returns normally exactly when every
    part of the model has an effect; it never throws. *)
Theorem Model_Draw_returns model (world view projection : XMMATRIX)
    (wireframe setCustomState : bool) :
  let r := Model_Draw model world view projection wireframe setCustomState in
  (result r = Normal tt ↔ Forall (λ part, is_Some (effect part)) (all_parts model))
  ∧ ∀ e, result r ≠ Throws e.
Proof.
  intros r.
  assert (Hmesh : ∀ alpha mesh,
            result (ModelMesh_PrepareForRendering mesh alpha wireframe ;;
                    ModelMesh_Draw mesh world view projection alpha setCustomState
                    : exec unit)
            = result (ModelMesh_Draw mesh world view projection alpha setCustomState)).
  { intros alpha mesh. by rewrite result_bind, ModelMesh_PrepareForRendering_eq. }
  split; [split|].
  - intros Hr. unfold r, Model_Draw in Hr. rewrite result_bind in Hr.
    destruct (result (for_each (meshes model) _)) as [[]| |] eqn:Hopaque; [|done..].
    apply for_each_normal_inv in Hopaque, Hr.
    apply Forall_forall. intros part Hpart.
    unfold all_parts in Hpart. apply list_elem_of_join in Hpart as (parts & Hin & Hparts).
    apply list_elem_of_fmap in Hparts as (mesh & -> & Hmeshin).
    assert (Hpass : ∀ alpha, Forall (λ part, is_Some (effect part))
                                    (parts_of_pass alpha (meshParts mesh))).
    { intros alpha.
      apply (ModelMesh_Draw_result mesh world view projection alpha setCustomState).
      rewrite <- Hmesh. destruct alpha.
      - exact (proj1 (Forall_forall _ _) Hr mesh Hmeshin).
      - exact (proj1 (Forall_forall _ _) Hopaque mesh Hmeshin). }
    apply (proj1 (Forall_forall _ _) (Hpass (isAlpha part))).
    by apply parts_of_pass_elem.
  - intros Hall. unfold r, Model_Draw.
    assert (Hpass : ∀ alpha, result (for_each (meshes model) (λ mesh,
                      ModelMesh_PrepareForRendering mesh alpha wireframe ;;
                      ModelMesh_Draw mesh world view projection alpha setCustomState)
                      : exec unit) = Normal tt).
    { intros alpha. apply for_each_normal. apply Forall_forall. intros mesh Hin.
      rewrite Hmesh. by apply ModelMesh_Draw_draws, (all_parts_mesh _ model). }
    by rewrite result_bind, !Hpass.
  - intros e. unfold r, Model_Draw. rewrite result_bind.
    assert (Hpass : ∀ alpha e, result (for_each (meshes model) (λ mesh,
                      ModelMesh_PrepareForRendering mesh alpha wireframe ;;
                      ModelMesh_Draw mesh world view projection alpha setCustomState)
                      : exec unit) ≠ Throws e).
    { intros alpha e'. apply for_each_never_throws. intros mesh e''.
      rewrite Hmesh. apply ModelMesh_Draw_result. }
    destruct (result (for_each (meshes model) _)) as [[]| |] eqn:Hopaque.
    + apply Hpass.
    + by destruct (Hpass false e0).
    + done.
Qed.

(** With an effect on every part, the draws of [Model::Draw]: those of
    the opaque parts mesh by mesh, then those of the alpha parts. *)
Lemma Model_Draw_draws model (world view projection : XMMATRIX)
    (wireframe setCustomState : bool) :
  Forall (λ part, is_Some (effect part)) (all_parts model) →
  calls (Model_Draw model world view projection wireframe setCustomState) =
    mjoin ((λ mesh, calls (ModelMesh_PrepareForRendering mesh false wireframe ;;
                           ModelMesh_Draw mesh world view projection false
                                          setCustomState : exec unit))
           <$> meshes model)
    ++ mjoin ((λ mesh, calls (ModelMesh_PrepareForRendering mesh true wireframe ;;
                              ModelMesh_Draw mesh world view projection true
                                             setCustomState : exec unit))
              <$> meshes model).
Proof.
  intros Hall.
  assert (Hmesh : ∀ alpha, Forall (λ mesh,
            result (ModelMesh_PrepareForRendering mesh alpha wireframe ;;
                    ModelMesh_Draw mesh world view projection alpha setCustomState
                    : exec unit) = Normal tt) (meshes model)).
  { intros alpha. apply Forall_forall. intros mesh Hin.
    rewrite result_bind, ModelMesh_PrepareForRendering_eq. simpl.
    by apply ModelMesh_Draw_draws, (all_parts_mesh _ model). }
  destruct (for_each_normal _ _ (Hmesh false)) as [Hr0 Hc0].
  destruct (for_each_normal _ _ (Hmesh true)) as [_ Hc1].
  unfold Model_Draw. by rewrite calls_bind, Hr0, Hc0, Hc1.
Qed.

Lemma mesh_of_pass_draws model mesh (world view projection : XMMATRIX)
    (alpha wireframe setCustomState : bool) :
  Forall (λ part, is_Some (effect part)) (all_parts model) →
  mesh ∈ meshes model →
  draws (calls (ModelMesh_PrepareForRendering mesh alpha wireframe ;;
                ModelMesh_Draw mesh world view projection alpha setCustomState
                : exec unit))
  = part_draw <$> parts_of_pass alpha (meshParts mesh).
Proof.
  intros Hall Hin.
  rewrite calls_bind, draws_app, ModelMesh_PrepareForRendering_eq. simpl.
  by apply ModelMesh_Draw_draws, (all_parts_mesh _ model).
Qed.

Lemma parts_of_pass_partition (parts : list ModelMeshPart) :
  parts_of_pass false parts ++ parts_of_pass true parts ≡ₚ parts.
Proof.
  unfold parts_of_pass. induction parts as [|part parts IH]; [done|].
  destruct (isAlpha part) eqn:Halpha.
  - rewrite filter_cons_False, filter_cons_True by (by rewrite Halpha).
    by rewrite <- Permutation_middle, IH.
  - rewrite filter_cons_True, filter_cons_False by (by rewrite Halpha).
    simpl. by rewrite IH.
Qed.

(** X2.  Each part is drawn once.  With an effect on every part, the
    [DrawIndexed] calls of [Model::Draw] are those of the parts of the
    model, each part once, none left out: a rearrangement of the parts in
    their order of declaration. *)
Theorem Model_Draw_each_part_once model (world view projection : XMMATRIX)
    (wireframe setCustomState : bool) :
  Forall (λ part, is_Some (effect part)) (all_parts model) →
  draws (calls (Model_Draw model world view projection wireframe setCustomState))
  ≡ₚ part_draw <$> all_parts model.
Proof.
  intros Hall. rewrite Model_Draw_draws by done.
  rewrite draws_app, !draws_mjoin, <- !list_fmap_compose.
  assert (Hpass : ∀ alpha,
            (draws ∘ (λ mesh, calls (ModelMesh_PrepareForRendering mesh alpha wireframe ;;
                                      ModelMesh_Draw mesh world view projection alpha
                                                     setCustomState : exec unit)))
            <$> meshes model
            = (λ mesh, part_draw <$> parts_of_pass alpha (meshParts mesh))
              <$> meshes model).
  { intros alpha. apply Forall_fmap_ext, Forall_forall. intros mesh Hin.
    by apply (mesh_of_pass_draws model). }
  rewrite !Hpass. unfold all_parts. clear.
  induction (meshes model) as [|mesh ms IH]; [done|].
  cbn [fmap list_fmap mjoin list_join]. rewrite fmap_app.
  cbn [fmap list_fmap] in IH. rewrite <- IH.
  rewrite <- (parts_of_pass_partition (meshParts mesh)) at 3.
  rewrite fmap_app.
  rewrite <- !app_assoc. apply Permutation_app_head.
  rewrite !app_assoc. apply Permutation_app_tail. apply Permutation_app_comm.
Qed.

(** *** The render state of each draw *)

Lemma draw_states_app cur t1 t2 :
  draw_states cur (t1 ++ t2) =
  draw_states cur t1 ++ draw_states (foldl state_step cur t1) t2.
Proof.
  revert cur. induction t1 as [|c t1 IH]; intros cur; [done|].
  destruct c; simpl; rewrite ?IH; done.
Qed.

Lemma draw_states_keep cur t :
  Forall (λ c, sets_state c = false) t →
  foldl state_step cur t = cur
  ∧ draw_states cur t = replicate (length (draws t)) cur.
Proof.
  induction 1 as [|c t Hc _ [IH1 IH2]]; [done|].
  destruct c; simpl in *; try done; by rewrite IH2.
Qed.

Lemma ModelMesh_Draw_keeps_state mesh (world view projection : XMMATRIX)
    (alpha setCustomState : bool) :
  Forall (λ c, sets_state c = false)
         (calls (ModelMesh_Draw mesh world view projection alpha setCustomState)).
Proof.
  unfold ModelMesh_Draw. apply for_each_calls_ind; [done|].
  intros part t _ Ht. apply Forall_app; split; [|done].
  destruct (negb _); [done|].
  rewrite ModelMeshPart_Draw_eq.
  destruct (effect part) as [e|]; simpl;
    [destruct (as_IEffectMatrices e), setCustomState|]; simpl; repeat constructor.
Qed.

Lemma mesh_of_pass_states mesh (world view projection : XMMATRIX)
    (alpha wireframe setCustomState : bool) cur :
  draw_states cur
    (calls (ModelMesh_PrepareForRendering mesh alpha wireframe ;;
            ModelMesh_Draw mesh world view projection alpha setCustomState
            : exec unit))
  = replicate
      (length (draws (calls (ModelMesh_Draw mesh world view projection alpha
                                            setCustomState))))
      (state_of_pass mesh alpha wireframe).
Proof.
  rewrite calls_bind, ModelMesh_PrepareForRendering_eq.
  cbn [calls result fst snd]. rewrite draw_states_app.
  change (foldl state_step cur _) with (state_of_pass mesh alpha wireframe).
  by destruct (draw_states_keep (state_of_pass mesh alpha wireframe) _
                 (ModelMesh_Draw_keeps_state mesh world view projection alpha
                                             setCustomState)) as [_ ->].
Qed.

Lemma draw_states_mjoin {A} (l : list A) (g : A → list Call) (h : A → list RenderState) cur :
  (∀ x cur, x ∈ l → draw_states cur (g x) = h x) →
  draw_states cur (mjoin (g <$> l)) = mjoin (h <$> l).
Proof.
  revert cur. induction l as [|x l IH]; intros cur Hg; [done|].
  cbn [fmap list_fmap mjoin list_join].
  rewrite draw_states_app, Hg by left. f_equal.
  apply IH. intros y cur' Hy. apply Hg. by right.
Qed.

(** X3.  Each part is drawn under the render state of its own mesh.  With an
    effect on every part, and whatever state the device context is in
    before, the draws of [Model::Draw] are issued, mesh by mesh, under the
    blend, depth and rasterizer states that the flags of that mesh ask for
    in the opaque pass, and then, mesh by mesh, under those they ask for in
    the alpha pass. *)
Theorem Model_Draw_render_states model (world view projection : XMMATRIX)
    (wireframe setCustomState : bool) cur :
  Forall (λ part, is_Some (effect part)) (all_parts model) →
  draw_states cur
    (calls (Model_Draw model world view projection wireframe setCustomState))
  = mjoin ((λ mesh, replicate (length (parts_of_pass false (meshParts mesh)))
                              (state_of_pass mesh false wireframe))
           <$> meshes model)
    ++ mjoin ((λ mesh, replicate (length (parts_of_pass true (meshParts mesh)))
                                 (state_of_pass mesh true wireframe))
              <$> meshes model).
Proof.
  intros Hall. rewrite Model_Draw_draws by done.
  assert (Hpass : ∀ alpha cur,
            draw_states cur
              (mjoin ((λ mesh, calls (ModelMesh_PrepareForRendering mesh alpha wireframe ;;
                                       ModelMesh_Draw mesh world view projection alpha
                                                      setCustomState : exec unit))
                      <$> meshes model))
            = mjoin ((λ mesh, replicate (length (parts_of_pass alpha (meshParts mesh)))
                                        (state_of_pass mesh alpha wireframe))
                     <$> meshes model)).
  { intros alpha cur'. apply draw_states_mjoin. intros mesh cur'' Hin.
    rewrite mesh_of_pass_states. f_equal.
    destruct (ModelMesh_Draw_draws mesh world view projection alpha setCustomState
                (all_parts_mesh _ model mesh Hall Hin)) as [_ ->].
    by rewrite length_fmap. }
  by rewrite draw_states_app, !Hpass.
Qed.

(** *** The draws with a transform array *)

Lemma calls_bind_Forall {A B} (P : Call → Prop) (c : exec A) (f : A → exec B) :
  Forall P (calls c) → (∀ x, Forall P (calls (f x))) → Forall P (calls (c ≫= f)).
Proof.
  intros Hc Hf. rewrite calls_bind. apply Forall_app. split; [done|].
  destruct (result c); [apply Hf|done..].
Qed.

(** A read of the transform array makes no call, and yields a matrix or is
    undefined. *)
Lemma read_matrix_cases (boneTransforms : option (list XMMATRIX)) (i : N) :
  (∃ w, read_matrix boneTransforms i = mret w)
  ∨ read_matrix boneTransforms i = undefined.
Proof.
  destruct boneTransforms as [a|]; [|by right].
  rewrite read_matrix_Some. destruct (a !! N.to_nat i) as [w|]; [left|by right].
  by exists w.
Qed.

Lemma prepare_pass_only mesh (alpha wireframe : bool) (c : exec unit) :
  Forall (λ c, sets_blend c = false) (calls c) →
  pass_only alpha (calls (ModelMesh_PrepareForRendering mesh alpha wireframe ;; c)).
Proof.
  intros Hc cur. rewrite calls_bind, ModelMesh_PrepareForRendering_eq. simpl.
  destruct (draw_passes_keep
              (Some (if alpha then if pmalpha mesh then AlphaBlend else NonPremultiplied
                     else Opaque)) _ Hc) as [_ ->].
  by destruct alpha, (pmalpha mesh).
Qed.

Lemma Model_Draw_bones_pass_only model (n : N) (boneTransforms : option (list XMMATRIX))
    (view projection : XMMATRIX) (alpha wireframe setCustomState : bool) :
  pass_only alpha
    (calls (Model_Draw_bones_pass c_Invalid model n boneTransforms view projection
                                  alpha wireframe setCustomState)).
Proof.
  unfold Model_Draw_bones_pass. apply for_each_pass_only. intros mesh.
  apply prepare_pass_only.
  destruct (bool_decide (boneIndex mesh ≠ c_Invalid) && (boneIndex mesh <? n));
    (apply calls_bind_Forall;
     [match goal with
      | |- context [read_matrix ?b ?i] =>
          destruct (read_matrix_cases b i) as [[w ->]| ->]; constructor
      end
     |intros w; apply ModelMesh_Draw_keeps_blend]).
Qed.

Lemma ModelMesh_DrawSkinned_keeps_blend mesh (n : N)
    (boneTransforms : option (list XMMATRIX)) (view projection : XMMATRIX)
    (alpha setCustomState : bool) :
  Forall (λ c, sets_blend c = false)
         (calls (ModelMesh_DrawSkinned c_Invalid mesh n boneTransforms view projection
                                       alpha setCustomState)).
Proof.
  unfold ModelMesh_DrawSkinned. apply calls_bind_Forall.
  { by destruct ((n =? 0) || negb (bool_decide (is_Some boneTransforms))). }
  intros _. apply for_each_calls_ind; [done|].
  intros part t _ Ht. apply Forall_app; split; [|done].
  destruct (negb _); [done|].
  apply calls_bind_Forall.
  { destruct (dynamic_cast_IEffectMatrices (effect part)); repeat constructor. }
  intros _. apply calls_bind_Forall.
  - destruct (dynamic_cast_IEffectSkinning (effect part)).
    + destruct (bool_decide (boneInfluences mesh = [])); repeat constructor.
    + destruct (dynamic_cast_IEffectMatrices (effect part)); [|done].
      apply calls_bind_Forall; [|intros w; repeat constructor].
      destruct (bool_decide (boneIndex mesh ≠ c_Invalid) && (boneIndex mesh <? n));
        match goal with
        | |- context [read_matrix ?b ?i] =>
            destruct (read_matrix_cases b i) as [[w ->]| ->]; constructor
        end.
  - intros _. rewrite ModelMeshPart_Draw_eq.
    destruct (effect part), setCustomState; repeat constructor.
Qed.

Lemma then_two_passes (c1 c2 : exec unit) (cur : option BlendState) :
  pass_only false (calls c1) → pass_only true (calls c2) →
  ∃ n_opaque n_alpha,
    draw_passes cur (calls (c1 ;; c2))
    = replicate n_opaque false ++ replicate n_alpha true.
Proof.
  intros H1 H2. rewrite calls_bind.
  exists (length (draws (calls c1))).
  destruct (result c1).
  - exists (length (draws (calls c2))). by apply two_passes.
  - exists 0%nat. apply two_passes; [done|apply pass_only_nil].
  - exists 0%nat. apply two_passes; [done|apply pass_only_nil].
Qed.

(** X4.  The other two draws keep the opaque pass before the alpha pass.
    Whatever the arguments, and whatever blend state the device context is
    in before, the draws of [Model::Draw] with a transform array and those
    of [Model::DrawSkinned] are first draws under the opaque blend state,
    then draws under a blending one: an exception or undefined behaviour
    cuts the sequence short without disturbing this order. *)
Theorem array_draws_opaque_pass_before_alpha_pass model (nbones : N)
    (boneTransforms : option (list XMMATRIX)) (view projection : XMMATRIX)
    (wireframe setCustomState : bool) (cur : option BlendState) :
  (∃ n_opaque n_alpha,
     draw_passes cur
       (calls (Model_Draw_bones c_Invalid model nbones boneTransforms view projection
                                wireframe setCustomState))
     = replicate n_opaque false ++ replicate n_alpha true)
  ∧ (∃ n_opaque n_alpha,
       draw_passes cur
         (calls (Model_DrawSkinned c_Invalid model nbones boneTransforms view
                                   projection wireframe setCustomState))
       = replicate n_opaque false ++ replicate n_alpha true).
Proof.
  split.
  - unfold Model_Draw_bones.
    destruct ((nbones =? 0) || negb (bool_decide (is_Some boneTransforms))).
    + destruct (bool_decide (bones model = [])).
      * by exists 0%nat, 0%nat.
      * rewrite !ret_bind.
        apply then_two_passes; apply Model_Draw_bones_pass_only.
    + rewrite ret_bind. apply then_two_passes; apply Model_Draw_bones_pass_only.
  - unfold Model_DrawSkinned.
    destruct ((nbones =? 0) || negb (bool_decide (is_Some boneTransforms))).
    + by exists 0%nat, 0%nat.
    + rewrite ret_bind.
      apply then_two_passes; apply for_each_pass_only; intros mesh;
        apply prepare_pass_only, ModelMesh_DrawSkinned_keeps_blend.
Qed.

Lemma bind_never_throws {A B} (c : exec A) (f : A → exec B) :
  (∀ e, result c ≠ Throws e) → (∀ x e, result (f x) ≠ Throws e) →
  ∀ e, result (c ≫= f) ≠ Throws e.
Proof.
  intros Hc Hf e. rewrite result_bind.
  destruct (result c) as [x| |] eqn:Hx; [apply Hf| |done].
  by destruct (Hc e0).
Qed.

Lemma Model_Draw_bones_pass_never_throws model (n : N)
    (boneTransforms : option (list XMMATRIX)) (view projection : XMMATRIX)
    (alpha wireframe setCustomState : bool) e :
  result (Model_Draw_bones_pass c_Invalid model n boneTransforms view projection
                                alpha wireframe setCustomState) ≠ Throws e.
Proof.
  unfold Model_Draw_bones_pass. apply for_each_never_throws. clear e.
  intros mesh. apply bind_never_throws.
  { intros e. by rewrite ModelMesh_PrepareForRendering_eq. }
  intros _.
  destruct (bool_decide (boneIndex mesh ≠ c_Invalid) && (boneIndex mesh <? n));
    (apply bind_never_throws;
     [match goal with
      | |- context [read_matrix ?b ?i] =>
          destruct (read_matrix_cases b i) as [[w ->]| ->]; done
      end
     |intros w; apply ModelMesh_Draw_result]).
Qed.

(** X5.  The only exception of [Model::Draw] with a transform array.  The call
    throws exactly when it is given no array (a count of zero or a null
    pointer) and the model has no bones; the exception is then the
    [std::invalid_argument] of the missing bones, thrown before any call. *)
Theorem Model_Draw_bones_throws_iff model (nbones : N)
    (boneTransforms : option (list XMMATRIX)) (view projection : XMMATRIX)
    (wireframe setCustomState : bool) :
  let r := Model_Draw_bones c_Invalid model nbones boneTransforms view projection
                            wireframe setCustomState in
  (∀ e, result r = Throws e
        ↔ (nbones = 0 ∨ boneTransforms = None) ∧ bones model = []
          ∧ e = std_invalid_argument "Model contains no bones")
  ∧ ((nbones = 0 ∨ boneTransforms = None) ∧ bones model = [] → calls r = []).
Proof.
  intros r. unfold r, Model_Draw_bones.
  pose proof (no_transforms_test nbones boneTransforms) as Htest.
  assert (Hpasses : ∀ n bt e,
            result (Model_Draw_bones_pass c_Invalid model n bt view projection false
                                          wireframe setCustomState ;;
                    Model_Draw_bones_pass c_Invalid model n bt view projection true
                                          wireframe setCustomState) ≠ Throws e).
  { intros n bt. apply bind_never_throws; intros; apply Model_Draw_bones_pass_never_throws. }
  destruct ((nbones =? 0) || negb (bool_decide (is_Some boneTransforms))) eqn:Hno.
  - apply proj1 in Htest. specialize (Htest eq_refl).
    destruct (decide (bones model = [])) as [Hb|Hb].
    + rewrite bool_decide_eq_true_2 by done. simpl. split; [|done].
      intros e. split; [by intros [= <-]|]. by intros (_ & _ & ->).
    + rewrite bool_decide_eq_false_2 by done. rewrite !ret_bind. split.
      * intros e. split; [intros He; by apply Hpasses in He|].
        by intros (_ & ? & _).
      * by intros [_ ?].
  - rewrite ret_bind. split.
    + intros e. split; [intros He; by apply Hpasses in He|].
      intros (Hbad & _). apply Htest in Hbad. congruence.
    + intros [Hbad _]. apply Htest in Hbad. congruence.
Qed.

(** X6.  The rigid fallback.  When no mesh of the model is bound to a bone of
    the array (each bone index is [c_Invalid] or past the end of the
    array), [Model::Draw] with the array behaves in every respect as
    [Model::Draw] with the first matrix of the array for world matrix. *)
Theorem Model_Draw_bones_rigid_fallback model (w0 : XMMATRIX) (ws : list XMMATRIX)
    (n : N) (view projection : XMMATRIX) (wireframe setCustomState : bool) :
  n = N.of_nat (length (w0 :: ws)) →
  Forall (λ mesh, boneIndex mesh = c_Invalid ∨ n ≤ boneIndex mesh) (meshes model) →
  Model_Draw_bones c_Invalid model n (Some (w0 :: ws)) view projection wireframe
                   setCustomState
  = Model_Draw model w0 view projection wireframe setCustomState.
Proof.
  intros Hn Hmeshes. unfold Model_Draw_bones, Model_Draw.
  replace (n =? 0) with false by (symmetry; apply N.eqb_neq; simpl in Hn; lia).
  rewrite (bool_decide_eq_true_2 (is_Some (Some (w0 :: ws)))) by by eexists.
  cbn [orb negb]. rewrite ret_bind.
  assert (Hpass : ∀ alpha,
            Model_Draw_bones_pass c_Invalid model n (Some (w0 :: ws)) view projection
                                  alpha wireframe setCustomState
            = for_each (meshes model) (λ mesh,
                ModelMesh_PrepareForRendering mesh alpha wireframe ;;
                ModelMesh_Draw mesh w0 view projection alpha setCustomState)).
  { intros alpha. unfold Model_Draw_bones_pass.
    induction Hmeshes as [|mesh ms Hmesh _ IH]; [done|].
    rewrite !for_each_cons, IH. f_equal.
    replace (bool_decide (boneIndex mesh ≠ c_Invalid) && (boneIndex mesh <? n))
      with false.
    - rewrite read_matrix_Some.
      change (deref ((w0 :: ws) !! N.to_nat 0)) with (mret w0 : exec XMMATRIX).
      by rewrite ret_bind.
    - symmetry. apply andb_false_iff. destruct Hmesh as [Hinv|Hge].
      + left. by apply bool_decide_eq_false_2; intros ?.
      + right. by apply N.ltb_ge. }
  by rewrite !Hpass.
Qed.

(** *** The skinned draw *)

Lemma for_each_throws_inv {A} (l : list A) (body : A → exec unit) e :
  result (for_each l body) = Throws e → ∃ x, x ∈ l ∧ result (body x) = Throws e.
Proof.
  induction l as [|x l IH]; [done|].
  rewrite for_each_cons, result_bind.
  destruct (result (body x)) as [[]| |] eqn:Hx; [|intros [= <-]|done].
  - intros (y & Hy & He)%IH. exists y. split; [by right|done].
  - exists x. split; [left|done].
Qed.

(** What the loop body of [ModelMesh::DrawSkinned] throws, it throws for
    the bone influences that a skinning effect misses. *)
Lemma ModelMesh_DrawSkinned_body_throws mesh (n : N)
    (boneTransforms : option (list XMMATRIX)) (view projection : XMMATRIX)
    (setCustomState : bool) part e :
  result (ModelMesh_DrawSkinned_body c_Invalid mesh n boneTransforms view projection
                                     setCustomState part) = Throws e →
  MissingSkinningData e ∧ boneInfluences mesh = [] ∧ skinning_part part = true.
Proof.
  unfold ModelMesh_DrawSkinned_body, skinning_part.
  destruct (effect part) as [[eff m sk]|]; simpl; [|done].
  destruct sk; simpl.
  - destruct (decide (boneInfluences mesh = [])) as [Hinf|Hinf].
    + rewrite bool_decide_eq_true_2 by done.
      destruct m; simpl; intros [= <-]; done.
    + rewrite bool_decide_eq_false_2 by done.
      by destruct m, setCustomState.
  - destruct m; simpl; [|by destruct setCustomState].
    destruct (bool_decide (boneIndex mesh ≠ c_Invalid) && (boneIndex mesh <? n));
      match goal with
      | |- context [read_matrix ?b ?i] =>
          destruct (read_matrix_cases b i) as [[w ->]| ->]
      end; simpl; by destruct setCustomState.
Qed.

(** X7.  The exceptions of [Model::DrawSkinned].  An exception of the call is
    either the [std::invalid_argument] of a missing transform array (a
    count of zero or a null pointer), or the [std::runtime_error] of
    missing bone influences, and then the model has a mesh without bone
    influences one part of which has a skinning effect. *)
Theorem Model_DrawSkinned_exceptions model (nbones : N)
    (boneTransforms : option (list XMMATRIX)) (view projection : XMMATRIX)
    (wireframe setCustomState : bool) e :
  result (Model_DrawSkinned c_Invalid model nbones boneTransforms view projection
                            wireframe setCustomState) = Throws e →
  (InvalidArgument e ∧ (nbones = 0 ∨ boneTransforms = None))
  ∨ (MissingSkinningData e
     ∧ nbones ≠ 0 ∧ boneTransforms ≠ None
     ∧ ∃ mesh part, mesh ∈ meshes model ∧ part ∈ meshParts mesh
                    ∧ boneInfluences mesh = [] ∧ skinning_part part = true).
Proof.
  unfold Model_DrawSkinned.
  pose proof (no_transforms_test nbones boneTransforms) as Htest.
  destruct ((nbones =? 0) || negb (bool_decide (is_Some boneTransforms))) eqn:Hno.
  - intros [= <-]. left. split; [by eexists|]. by apply Htest.
  - rewrite ret_bind. intros He. right.
    assert (Hgood : nbones ≠ 0 ∧ boneTransforms ≠ None).
    { split; intros Hbad; [assert (Hor : nbones = 0 ∨ boneTransforms = None) by (by left)
                          |assert (Hor : nbones = 0 ∨ boneTransforms = None) by (by right)];
        apply Htest in Hor; congruence. }
    assert (Hpass : ∀ alpha,
              result (for_each (meshes model) (λ mesh,
                        ModelMesh_PrepareForRendering mesh alpha wireframe ;;
                        ModelMesh_DrawSkinned c_Invalid mesh nbones boneTransforms view
                                              projection alpha setCustomState)
                      : exec unit) = Throws e →
              MissingSkinningData e
              ∧ ∃ mesh part, mesh ∈ meshes model ∧ part ∈ meshParts mesh
                             ∧ boneInfluences mesh = [] ∧ skinning_part part = true).
    { intros alpha (mesh & Hmesh & Hbody)%for_each_throws_inv.
      rewrite result_bind, ModelMesh_PrepareForRendering_eq in Hbody. simpl in Hbody.
      unfold ModelMesh_DrawSkinned in Hbody. rewrite Hno, ret_bind in Hbody.
      apply for_each_throws_inv in Hbody as (part & Hpart & Hbody).
      destruct (negb (Bool.eqb (isAlpha part) alpha)); [done|].
      apply ModelMesh_DrawSkinned_body_throws in Hbody as (? & ? & ?).
      split; [done|]. by exists mesh, part. }
    rewrite result_bind in He.
    destruct (result (for_each (meshes model) _)) as [[]| |] eqn:Hopaque; [| |done].
    + destruct (Hpass true He) as [? ?]. by destruct Hgood.
    + injection He as ->. destruct (Hpass false Hopaque) as [? ?]. by destruct Hgood.
Qed.

Lemma omap_mjoin {A B} (f : A → option B) (ls : list (list A)) :
  omap f (mjoin ls) = mjoin (omap f <$> ls).
Proof.
  induction ls as [|l ls IH]; [done|].
  cbn [fmap list_fmap mjoin list_join]. rewrite omap_app. f_equal. exact IH.
Qed.

Lemma omap_option_list {A B} (g : A → option B) (l : list A) :
  mjoin ((λ x, option_list (g x)) <$> l) = omap g l.
Proof.
  induction l as [|x l IH]; [done|].
  cbn [fmap list_fmap mjoin list_join omap list_omap].
  destruct (g x); simpl; f_equal; exact IH.
Qed.

Lemma mjoin_singletons {A B} (f : A → B) (l : list A) :
  mjoin ((λ x, [f x]) <$> l) = f <$> l.
Proof.
  induction l as [|x l IH]; [done|].
  cbn [fmap list_fmap mjoin list_join]. simpl. f_equal. exact IH.
Qed.

Lemma for_each_normal_omap {A B} (f : Call → option B) (l : list A)
    (body : A → exec unit) (h : A → list B) :
  Forall (λ x, result (body x) = Normal tt ∧ omap f (calls (body x)) = h x) l →
  omap f (calls (for_each l body)) = mjoin (h <$> l).
Proof.
  induction 1 as [|x l [Hr Hx] Hl IH]; [done|].
  rewrite for_each_cons, calls_bind, Hr, omap_app, Hx.
  cbn [fmap list_fmap mjoin list_join]. f_equal. exact IH.
Qed.

(** X8.  Skinning with bone influences.  On a mesh that has bone influences,
    with a non-empty transform array and an effect on every part of the
    pass, [ModelMesh::DrawSkinned] returns normally after it drew the parts
    of the pass in their order; it has pushed the view and the projection
    to every part of the pass whose effect takes matrices, skinning or
    not. *)
Theorem ModelMesh_DrawSkinned_with_influences mesh a (n : N)
    (view projection : XMMATRIX) (alpha setCustomState : bool) :
  a ≠ [] → n = N.of_nat (length a) →
  boneInfluences mesh ≠ [] →
  Forall (λ part, is_Some (effect part)) (parts_of_pass alpha (meshParts mesh)) →
  let r := ModelMesh_DrawSkinned c_Invalid mesh n (Some a) view projection alpha
                                 setCustomState in
  result r = Normal tt
  ∧ draws (calls r) = part_draw <$> parts_of_pass alpha (meshParts mesh)
  ∧ views_pushed (calls r) = matrix_effects alpha view mesh
  ∧ projections_pushed (calls r) = matrix_effects alpha projection mesh.
Proof.
  intros Ha Hn Hinf Hall r. unfold r. rewrite ModelMesh_DrawSkinned_eq by done.
  destruct (read_resolved_world c_Invalid a n (boneIndex mesh) Ha Hn)
    as (w & _ & Hread).
  unfold matrix_effects.
  assert (Hbody : Forall (λ part,
            let c := ModelMesh_DrawSkinned_body c_Invalid mesh n (Some a) view
                       projection setCustomState part in
            result c = Normal tt
            ∧ draws (calls c) = [part_draw part]
            ∧ views_pushed (calls c)
              = option_list ((λ e, (effect_this e, view))
                             <$> dynamic_cast_IEffectMatrices (effect part))
            ∧ projections_pushed (calls c)
              = option_list ((λ e, (effect_this e, projection))
                             <$> dynamic_cast_IEffectMatrices (effect part)))
            (parts_of_pass alpha (meshParts mesh))).
  { eapply Forall_impl; [exact Hall|]. intros part [[eff m sk] He]. simpl.
    unfold ModelMesh_DrawSkinned_body. rewrite Hread, He. simpl.
    rewrite bool_decide_eq_false_2 by done.
    by destruct sk, m, setCustomState. }
  generalize dependent (parts_of_pass alpha (meshParts mesh)). intros parts _ Hbody.
  split; [|split; [|split]].
  - apply for_each_normal.
    eapply Forall_impl; [exact Hbody|]. by intros part (? & _).
  - unfold draws. rewrite <- mjoin_singletons.
    apply for_each_normal_omap.
    eapply Forall_impl; [exact Hbody|]. by intros part (? & ? & _).
  - unfold views_pushed. rewrite <- (omap_option_list _ parts).
    apply for_each_normal_omap.
    eapply Forall_impl; [exact Hbody|]. by intros part (? & _ & ? & _).
  - unfold projections_pushed. rewrite <- (omap_option_list _ parts).
    apply for_each_normal_omap.
    eapply Forall_impl; [exact Hbody|]. by intros part (? & _ & _ & ?).
Qed.

End MoreDraw.

(** ** Parts, their effects and the cache *)

Section MoreEffects.

Context {XMMATRIX : Type}.
Local Abbreviation Call := (@Call XMMATRIX).
Local Abbreviation exec := (@exec XMMATRIX).

Implicit Types (part : ModelMeshPart) (mesh : ModelMesh) (model : @Model XMMATRIX).

(** X9.  An instanced draw is a draw but for its last call.
    [ModelMeshPart::DrawInstanced] ends as [ModelMeshPart::Draw] does; with
    an effect it makes the same calls up to the last one, which is the
    [DrawIndexedInstanced] of the same indices with the instance count and
    the first instance of the caller; without one it stops at the same
    place, before any draw. *)
Theorem DrawInstanced_as_Draw part (ieffect : option IEffect) (iinputLayout : option addr)
    (instanceCount startInstanceLocation : N) (setCustomState : bool) :
  let d : exec unit := ModelMeshPart_Draw part ieffect iinputLayout setCustomState in
  let i : exec unit :=
    ModelMeshPart_DrawInstanced part ieffect iinputLayout instanceCount
                                startInstanceLocation setCustomState in
  result i = result d
  ∧ match ieffect with
    | Some _ =>
        ∃ t, calls d = t ++ [DrawIndexed (indexCount part) (startIndex part)
                                         (vertexOffset part)]
             ∧ calls i = t ++ [DrawIndexedInstanced (indexCount part) instanceCount
                                 (startIndex part) (vertexOffset part)
                                 startInstanceLocation]
             ∧ draws t = []
    | None => calls i = calls d ∧ draws (calls d) = [] ∧ result d = Undefined
    end.
Proof.
  destruct ieffect as [e|]; [|done].
  split; [by destruct setCustomState|].
  exists ([IASetInputLayout iinputLayout;
           IASetVertexBuffers 0 1 (vertexBuffer part) (vertexStride part) 0;
           IASetIndexBuffer (indexBuffer part) (indexFormat part) 0;
           Effect_Apply (effect_this e)]
          ++ (if setCustomState then [SetCustomState] else [])
          ++ [IASetPrimitiveTopology (primitiveType part)]).
  by destruct setCustomState.
Qed.

Lemma descriptor_valid part :
  ¬ descriptor_invalid part →
  ∃ decl, vbDecl part = Some decl
          ∧ bool_decide (decl = []) = false
          ∧ (D3D11_IA_VERTEX_INPUT_STRUCTURE_ELEMENT_COUNT <? N.of_nat (length decl))
            = false.
Proof.
  unfold descriptor_invalid. destruct (vbDecl part) as [decl|]; [|by intros []].
  intros Hvalid. exists decl. split; [done|]. split.
  - apply bool_decide_eq_false_2. intros ?. apply Hvalid. by left.
  - apply N.ltb_ge. apply N.le_ngt. intros ?. apply Hvalid. by right.
Qed.

(** X10.  With a vertex declaration that passes the checks,
    [ModelMeshPart::CreateInputLayout] calls the input-layout factory once,
    on the effect and the declaration of the part; the slot, if there is
    one, holds what the factory left; the call returns normally when the
    HRESULT of the factory is not negative and throws [com_exception] with
    that HRESULT when it is. *)
Theorem CreateInputLayout_with_valid_descriptor part (d3dDevice : ID3D11Device)
    (ieffect : option IEffect) (iinputLayout : option (option addr)) :
  ¬ descriptor_invalid part →
  let r := ModelMeshPart_CreateInputLayout part d3dDevice ieffect iinputLayout in
  ∃ decl, vbDecl part = Some decl
    ∧ calls (r.2 : exec unit) = [CreateInputLayoutFromEffect (effect_this <$> ieffect) decl]
    ∧ r.1 = (λ _, (d3dDevice ieffect decl).2) <$> iinputLayout
    ∧ result (r.2 : exec unit) =
      if ((d3dDevice ieffect decl).1 <? 0)%Z
      then Throws (com_exception (d3dDevice ieffect decl).1)
      else Normal tt.
Proof.
  intros (decl & Hdecl & Hne & Hlen)%descriptor_valid r. exists decl.
  split; [done|]. unfold r, ModelMeshPart_CreateInputLayout.
  rewrite Hdecl, Hne, Hlen.
  destruct (d3dDevice ieffect decl) as [hr created]. simpl.
  unfold ThrowIfFailed. destruct (hr <? 0)%Z, iinputLayout; done.
Qed.

(** X11.  [ModelMeshPart::ModifyEffect] rebinds before it builds the layout, and
    does not undo it.  With a vertex declaration that passes the checks,
    the part leaves the call bound to the new effect and with the new
    [isAlpha], its geometry and its declaration as before, and with the
    input layout that the factory left, whether the factory succeeded (the
    call returns normally) or failed (the call throws [com_exception]). *)
Theorem ModifyEffect_with_valid_descriptor part (d3dDevice : ID3D11Device)
    (ieffect : option IEffect) (isalpha : bool) :
  ¬ descriptor_invalid part →
  let r := ModelMeshPart_ModifyEffect part d3dDevice ieffect isalpha in
  ∃ decl, vbDecl part = Some decl
    ∧ effect r.1 = ieffect
    ∧ isAlpha r.1 = isalpha
    ∧ inputLayout r.1 = (d3dDevice ieffect decl).2
    ∧ part_draw r.1 = part_draw part
    ∧ vbDecl r.1 = vbDecl part
    ∧ calls (r.2 : exec unit) = [CreateInputLayoutFromEffect (effect_this <$> ieffect) decl]
    ∧ result (r.2 : exec unit) =
      if ((d3dDevice ieffect decl).1 <? 0)%Z
      then Throws (com_exception (d3dDevice ieffect decl).1)
      else Normal tt.
Proof.
  intros (decl & Hdecl & Hne & Hlen)%descriptor_valid r. exists decl.
  split; [done|]. unfold r, ModelMeshPart_ModifyEffect.
  rewrite Hdecl, Hne, Hlen.
  destruct (d3dDevice ieffect decl) as [hr created]. simpl.
  unfold ThrowIfFailed. by destruct (hr <? 0)%Z.
Qed.

Lemma ModifyEffect_valid part (d3dDevice : ID3D11Device) (ieffect : option IEffect)
    (isalpha : bool) :
  ¬ descriptor_invalid part →
  let part' := (@ModelMeshPart_ModifyEffect XMMATRIX part d3dDevice ieffect isalpha).1 in
  effect part' = ieffect ∧ isAlpha part' = isalpha ∧ part_draw part' = part_draw part.
Proof.
  intros (decl & Hdecl & Hne & Hlen)%descriptor_valid part'.
  unfold part', ModelMeshPart_ModifyEffect.
  rewrite Hdecl, Hne, Hlen. by destruct (d3dDevice ieffect decl).
Qed.

(** X12.  [ModifyEffect] moves a part between the passes.  After a part of a
    mesh went through [ModifyEffect] with an effect and the flag [isalpha],
    [ModelMesh::Draw] draws it, with the indices it had, in the pass
    [isalpha] and in no other, at its place among the parts of the mesh. *)
Theorem ModifyEffect_then_Draw mesh (before after : list ModelMeshPart) part
    (d3dDevice : ID3D11Device) (e : IEffect) (isalpha : bool)
    (world view projection : XMMATRIX) (alpha setCustomState : bool) :
  ¬ descriptor_invalid part →
  Forall (λ p, is_Some (effect p)) (before ++ after) →
  let part' := (@ModelMeshPart_ModifyEffect XMMATRIX part d3dDevice (Some e) isalpha).1 in
  let r := ModelMesh_Draw (with_parts mesh (before ++ part' :: after))
                          world view projection alpha setCustomState in
  result r = Normal tt
  ∧ draws (calls r) =
    (part_draw <$> parts_of_pass alpha before)
    ++ (if bool_decide (isalpha = alpha) then [part_draw part] else [])
    ++ (part_draw <$> parts_of_pass alpha after).
Proof.
  intros Hvalid Hall part' r.
  destruct (ModifyEffect_valid part d3dDevice (Some e) isalpha Hvalid)
    as (He & Ha & Hd).
  fold part' in He, Ha, Hd.
  apply Forall_app in Hall as [Hbefore Hafter].
  destruct (ModelMesh_Draw_draws (with_parts mesh (before ++ part' :: after))
              world view projection alpha setCustomState) as [Hr Hdraws].
  { simpl. apply Forall_app. split; [done|]. constructor; [|done].
    rewrite He. by eexists. }
  split; [done|]. unfold r. rewrite Hdraws. simpl.
  unfold parts_of_pass. rewrite filter_app, fmap_app. f_equal.
  destruct (decide (isalpha = alpha)) as [Heq|Hne].
  - rewrite filter_cons_True by (by rewrite Ha).
    rewrite bool_decide_eq_true_2 by done. simpl. by rewrite Hd.
  - rewrite filter_cons_False by (by rewrite Ha).
    by rewrite bool_decide_eq_false_2.
Qed.

(** X13.  [Model::UpdateEffects] twice in a row.  A second call that follows
    the first with nothing changed in between leaves the model as the first
    left it and calls the visitor on the same effects in the same order. *)
Theorem Model_UpdateEffects_twice model :
  let r1 := Model_UpdateEffects model in
  Model_UpdateEffects r1.1 = r1.
Proof.
  unfold Model_UpdateEffects. simpl.
  destruct (decide (mEffectCache model = ∅)) as [Hempty|Hfull].
  - rewrite (bool_decide_eq_true_2 (mEffectCache model = ∅)) by done.
    rewrite Hempty.
    destruct (decide (collect_effects ∅ (meshes model) = ∅)) as [Hnone|Hsome].
    + rewrite bool_decide_eq_true_2 by done.
      assert (Heq : collect_effects (collect_effects ∅ (meshes model)) (meshes model)
                    = collect_effects ∅ (meshes model))
        by (rewrite Hnone; exact Hnone).
      by rewrite Heq.
    + by rewrite bool_decide_eq_false_2.
  - rewrite (bool_decide_eq_false_2 (mEffectCache model = ∅)) by done.
    by rewrite bool_decide_eq_false_2.
Qed.

End MoreEffects.

(** ** Tone mapping: the permutations and the setters *)

Section MoreToneMap.

Local Open Scope Z_scope.

(** The table has an entry, within the pixel shaders, at the permutation of
    every configuration within the enumerations. *)
Lemma permutation_in_table (xbox_one_title : bool) (impl : ToneMap.Impl) :
  0 ≤ ToneMap.op impl < ToneMap.Operator_Max →
  0 ≤ ToneMap.func impl < ToneMap.TransferFunction_Max →
  ∃ shaderIndex,
    ToneMap.GetPixelShader xbox_one_title
      (ToneMap.GetCurrentShaderPermutation xbox_one_title impl) = Normal shaderIndex
    ∧ 0 ≤ shaderIndex < ToneMap.PixelShaderCount xbox_one_title.
Proof.
  intros Hop Hfunc.
  unfold ToneMap.GetCurrentShaderPermutation, ToneMap.GetPixelShader, ToneMap.subscript,
    ToneMap.PixelShaderCount, ToneMap.Operator_Max, ToneMap.TransferFunction_Max in *.
  assert (Hcases : (ToneMap.op impl = 0 ∨ ToneMap.op impl = 1
                    ∨ ToneMap.op impl = 2 ∨ ToneMap.op impl = 3)
                   ∧ (ToneMap.func impl = 0 ∨ ToneMap.func impl = 1
                      ∨ ToneMap.func impl = 2)) by lia.
  destruct Hcases as [Ho Hf].
  destruct xbox_one_title, (ToneMap.mrt impl);
    destruct Ho as [-> | [-> | [-> | ->]]], Hf as [-> | [-> | ->]];
    eexists; (split; [reflexivity|lia]).
Qed.

(** X14.  The permutation tells the configuration.  Within the enumerations,
    the operator, the transfer function and, on Xbox One, the MRT flag can
    be read back from the permutation index: distinct configurations never
    share a permutation. *)
Theorem GetCurrentShaderPermutation_decodes (xbox_one_title : bool)
    (impl : ToneMap.Impl) :
  0 ≤ ToneMap.op impl < ToneMap.Operator_Max →
  0 ≤ ToneMap.func impl < ToneMap.TransferFunction_Max →
  let permutation := ToneMap.GetCurrentShaderPermutation xbox_one_title impl in
  ToneMap.op impl = permutation mod ToneMap.Operator_Max
  ∧ ToneMap.func impl
    = (permutation / ToneMap.Operator_Max) mod ToneMap.TransferFunction_Max
  ∧ (xbox_one_title = true →
     ToneMap.mrt impl
     = (ToneMap.Operator_Max * ToneMap.TransferFunction_Max <=? permutation)).
Proof.
  intros Hop Hfunc.
  unfold ToneMap.GetCurrentShaderPermutation,
    ToneMap.Operator_Max, ToneMap.TransferFunction_Max in *.
  assert (Hcases : (ToneMap.op impl = 0 ∨ ToneMap.op impl = 1
                    ∨ ToneMap.op impl = 2 ∨ ToneMap.op impl = 3)
                   ∧ (ToneMap.func impl = 0 ∨ ToneMap.func impl = 1
                      ∨ ToneMap.func impl = 2)) by lia.
  destruct Hcases as [Ho Hf].
  destruct xbox_one_title, (ToneMap.mrt impl);
    destruct Ho as [-> | [-> | [-> | ->]]], Hf as [-> | [-> | ->]];
    by vm_compute.
Qed.

(** Every configuration within the enumerations is a state of a
    [ToneMapPostProcess]; the MRT flag can be set on Xbox One only. *)
Lemma reachable_configuration (xbox_one_title : bool) (op' func' : Z) (mrt' : bool) :
  0 ≤ op' < ToneMap.Operator_Max →
  0 ≤ func' < ToneMap.TransferFunction_Max →
  (mrt' = true → xbox_one_title = true) →
  ∃ impl, ToneMap.reachable xbox_one_title impl
          ∧ ToneMap.op impl = op' ∧ ToneMap.func impl = func'
          ∧ ToneMap.mrt impl = mrt'.
Proof.
  intros Hop Hfunc Hmrt.
  assert (H0 : ToneMap.reachable xbox_one_title ToneMap.Impl_new)
    by (by apply (ToneMap.reachable_new xbox_one_title ToneMap.D3D_FEATURE_LEVEL_10_0)).
  destruct (ToneMap.SetOperator ToneMap.Impl_new op') as [impl1| |] eqn:H1.
  2, 3: (unfold ToneMap.SetOperator in H1;
         replace ((op' <? 0) || (op' >=? ToneMap.Operator_Max)) with false in H1
           by (symmetry; apply orb_false_iff; rewrite Z.geb_leb; lia);
         done).
  destruct (ToneMap.SetTransferFunction impl1 func') as [impl2| |] eqn:H2.
  2, 3: (unfold ToneMap.SetTransferFunction in H2;
         replace ((func' <? 0) || (func' >=? ToneMap.TransferFunction_Max)) with false
           in H2 by (symmetry; apply orb_false_iff; rewrite Z.geb_leb; lia);
         done).
  assert (Hr2 : ToneMap.reachable xbox_one_title impl2).
  { eapply ToneMap.reachable_SetTransferFunction; [|exact H2].
    eapply ToneMap.reachable_SetOperator; [exact H0|exact H1]. }
  assert (Hfields : ToneMap.op impl2 = op' ∧ ToneMap.func impl2 = func'
                    ∧ ToneMap.mrt impl2 = false).
  { unfold ToneMap.SetOperator in H1. unfold ToneMap.SetTransferFunction in H2.
    destruct ((op' <? 0) || (op' >=? ToneMap.Operator_Max)); [done|].
    injection H1 as <-. simpl in H2.
    destruct ((func' <? 0) || (func' >=? ToneMap.TransferFunction_Max)); [done|].
    by injection H2 as <-. }
  destruct Hfields as (Ho & Hf & Hm).
  destruct mrt'.
  - exists (ToneMap.SetMRTOutput impl2 true). split; [|done].
    apply ToneMap.reachable_SetMRTOutput; [by apply Hmrt|done].
  - by exists impl2.
Qed.

(** X15.  No pixel shader is left over.  On either build, every entry of
    [pixelShaders] is the pixel shader of some state that a
    [ToneMapPostProcess] reaches through its constructor and setters. *)
Theorem every_pixel_shader_selected (xbox_one_title : bool) (shaderIndex : Z) :
  0 ≤ shaderIndex < ToneMap.PixelShaderCount xbox_one_title →
  ∃ impl, ToneMap.reachable xbox_one_title impl
          ∧ ToneMap.GetPixelShader xbox_one_title
              (ToneMap.GetCurrentShaderPermutation xbox_one_title impl)
            = Normal shaderIndex.
Proof.
  intros Hidx.
  assert (Hconf : ∃ op' func' mrt',
            (0 ≤ op' < ToneMap.Operator_Max)
            ∧ (0 ≤ func' < ToneMap.TransferFunction_Max)
            ∧ (mrt' = true → xbox_one_title = true)
            ∧ ∀ impl, ToneMap.op impl = op' → ToneMap.func impl = func' →
                      ToneMap.mrt impl = mrt' →
                      ToneMap.GetPixelShader xbox_one_title
                        (ToneMap.GetCurrentShaderPermutation xbox_one_title impl)
                      = Normal shaderIndex).
  { unfold ToneMap.PixelShaderCount in Hidx.
    assert (Hcases : shaderIndex = 0 ∨ shaderIndex = 1 ∨ shaderIndex = 2
                     ∨ shaderIndex = 3 ∨ shaderIndex = 4 ∨ shaderIndex = 5
                     ∨ shaderIndex = 6 ∨ shaderIndex = 7
                     ∨ (xbox_one_title = true
                        ∧ (shaderIndex = 8 ∨ shaderIndex = 9 ∨ shaderIndex = 10
                           ∨ shaderIndex = 11 ∨ shaderIndex = 12)))
      by (destruct xbox_one_title; lia).
    unfold ToneMap.GetCurrentShaderPermutation.
    destruct Hcases as [->|[->|[->|[->|[->|[->|[->|[->|[-> Hx]]]]]]]]].
    - exists 0, 0, false. repeat split; try done.
      intros impl -> -> ->. by destruct xbox_one_title.
    - exists 1, 0, false. repeat split; try done.
      intros impl -> -> ->. by destruct xbox_one_title.
    - exists 2, 0, false. repeat split; try done.
      intros impl -> -> ->. by destruct xbox_one_title.
    - exists 3, 0, false. repeat split; try done.
      intros impl -> -> ->. by destruct xbox_one_title.
    - exists 0, 1, false. repeat split; try done.
      intros impl -> -> ->. by destruct xbox_one_title.
    - exists 1, 1, false. repeat split; try done.
      intros impl -> -> ->. by destruct xbox_one_title.
    - exists 2, 1, false. repeat split; try done.
      intros impl -> -> ->. by destruct xbox_one_title.
    - exists 0, 2, false. repeat split; try done.
      intros impl -> -> ->. by destruct xbox_one_title.
    - destruct Hx as [->|[->|[->|[->| ->]]]].
      + exists 0, 0, true. repeat split; try done. by intros impl -> -> ->.
      + exists 2, 0, true. repeat split; try done. by intros impl -> -> ->.
      + exists 3, 0, true. repeat split; try done. by intros impl -> -> ->.
      + exists 0, 1, true. repeat split; try done. by intros impl -> -> ->.
      + exists 2, 1, true. repeat split; try done. by intros impl -> -> ->. }
  destruct Hconf as (op' & func' & mrt' & Hop & Hfunc & Hmrt & Hsel).
  destruct (reachable_configuration xbox_one_title op' func' mrt' Hop Hfunc Hmrt)
    as (impl & Hreach & Ho & Hf & Hm).
  exists impl. split; [done|]. by apply Hsel.
Qed.

(** X16.  Under ST.2084 the operator does not count.  With the transfer function
    ST2084, whatever the operator within the enumeration, the pixel shader
    is the HDR10 one (entry 7), and, with two render targets on Xbox One,
    the HDR10 and saturate one (entry 8). *)
Theorem ST2084_ignores_operator (xbox_one_title : bool) (impl : ToneMap.Impl) :
  0 ≤ ToneMap.op impl < ToneMap.Operator_Max →
  ToneMap.func impl = ToneMap.ST2084 →
  ToneMap.GetPixelShader xbox_one_title
    (ToneMap.GetCurrentShaderPermutation xbox_one_title impl)
  = Normal (if xbox_one_title && ToneMap.mrt impl then 8 else 7).
Proof.
  intros Hop Hfunc.
  unfold ToneMap.GetCurrentShaderPermutation, ToneMap.Operator_Max in *.
  rewrite Hfunc.
  assert (Ho : ToneMap.op impl = 0 ∨ ToneMap.op impl = 1
               ∨ ToneMap.op impl = 2 ∨ ToneMap.op impl = 3) by lia.
  destruct xbox_one_title, (ToneMap.mrt impl);
    destruct Ho as [-> | [-> | [-> | ->]]]; reflexivity.
Qed.

(** X17.  The selection never leaves the tables.  In every state that a
    [ToneMapPostProcess] reaches through its constructor and its setters,
    [GetPixelShader] finds the entry of the current permutation within
    [pixelShaderIndices], and that entry within the pixel shaders. *)
Theorem reachable_selection_in_bounds (xbox_one_title : bool) (impl : ToneMap.Impl) :
  ToneMap.reachable xbox_one_title impl →
  ∃ shaderIndex,
    ToneMap.GetPixelShader xbox_one_title
      (ToneMap.GetCurrentShaderPermutation xbox_one_title impl) = Normal shaderIndex
    ∧ 0 ≤ shaderIndex < ToneMap.PixelShaderCount xbox_one_title.
Proof.
  intros [Hop Hfunc]%reachable_range. by apply permutation_in_table.
Qed.

(** X18.  The two setters commute.  With an operator and a transfer function
    within the enumerations, [SetOperator] followed by [SetTransferFunction]
    leaves the state that [SetTransferFunction] followed by [SetOperator]
    leaves; with one of them outside, both orders throw
    [std::out_of_range]. *)
Theorem setters_commute (impl : ToneMap.Impl) (op' func' : Z) :
  let op_then_func :=
    match ToneMap.SetOperator impl op' with
    | Normal impl1 => ToneMap.SetTransferFunction impl1 func'
    | other => other
    end in
  let func_then_op :=
    match ToneMap.SetTransferFunction impl func' with
    | Normal impl1 => ToneMap.SetOperator impl1 op'
    | other => other
    end in
  if bool_decide (0 ≤ op' < ToneMap.Operator_Max
                  ∧ 0 ≤ func' < ToneMap.TransferFunction_Max)
  then ∃ impl', op_then_func = Normal impl' ∧ func_then_op = Normal impl'
                ∧ ToneMap.op impl' = op' ∧ ToneMap.func impl' = func'
  else (∃ what, op_then_func = Throws (std_out_of_range what))
       ∧ (∃ what, func_then_op = Throws (std_out_of_range what)).
Proof.
  unfold ToneMap.SetOperator, ToneMap.SetTransferFunction. simpl.
  destruct ((op' <? 0) || (op' >=? ToneMap.Operator_Max)) eqn:Ho;
    destruct ((func' <? 0) || (func' >=? ToneMap.TransferFunction_Max)) eqn:Hf;
    simpl; rewrite ?Ho, ?Hf;
    rewrite ?orb_true_iff, ?orb_false_iff, ?Z.geb_leb, ?Z.ltb_lt, ?Z.ltb_ge,
      ?Z.leb_le, ?Z.leb_gt in Ho, Hf.
  - rewrite bool_decide_eq_false_2 by lia. split; by eexists.
  - rewrite bool_decide_eq_false_2 by lia. split; by eexists.
  - rewrite bool_decide_eq_false_2 by lia. split; by eexists.
  - rewrite bool_decide_eq_true_2 by lia. by eexists.
Qed.

End MoreToneMap.

(** ** Tone mapping: Process *)

Section MoreProcess.

Local Open Scope Z_scope.

Context {float : Type}.

Local Abbreviation State := (@ToneMapProcess.State float).
Local Abbreviation PCall := (@ToneMapProcess.PCall float).

Implicit Types (s : State) (answers : ToneMapProcess.Answers).

(** Runs [Process] through its branches: the answers of the collaborators,
    the build, the callback and the tests of the dirty flags. *)
Ltac unfold_Process :=
  unfold ToneMapProcess.Process, ToneMapProcess.query, ToneMapProcess.set_dirty,
    ToneMapProcess.set_constants;
  cbv [mbind mret ToneMapProcess.proc_mbind ToneMapProcess.proc_mret
       ToneMapProcess.proc_bind ToneMapProcess.proc_ret ToneMapProcess.get
       ToneMapProcess.put ToneMapProcess.pcall ToneMapProcess.pcall_throwing
       ToneMapProcess.lift].

Ltac run_Process :=
  repeat match goal with
         | |- context [ToneMapProcess.demand_throws ?a ?r] =>
             destruct (ToneMapProcess.demand_throws a r); simpl
         | |- context [ToneMapProcess.set_data_throws ?a] =>
             destruct (ToneMapProcess.set_data_throws a); simpl
         | |- context [if ?b then _ else _] => destruct b eqn:?; simpl
         end.

(** X20.  Without ST.2084 and without MRT, no constants.  When the transfer
    function is not ST2084 and the MRT flag is clear, [Process] uploads
    nothing, binds no constant buffer, and leaves the state of the object,
    the dirty flags included, as it found it, however it ends. *)
Theorem Process_without_constants (xbox_one_title : bool) answers
    (setCustomState : bool) s :
  ToneMap.func (ToneMapProcess.impl s) ≠ ToneMap.ST2084 →
  ToneMap.mrt (ToneMapProcess.impl s) = false →
  let r := ToneMapProcess.Process xbox_one_title answers setCustomState s in
  r.2 = s
  ∧ ToneMapProcess.uploads r.1.1 = []
  ∧ Forall (λ c, ToneMapProcess.binds_constants c = false) r.1.1.
Proof.
  intros Hfunc Hmrt r. unfold r.
  apply Z.eqb_neq in Hfunc.
  unfold_Process. rewrite Hfunc, Hmrt.
  destruct (ToneMap.GetPixelShader xbox_one_title _) as [shaderIndex|e|];
    simpl; run_Process; repeat split; try done; repeat constructor.
Qed.

(** X19.  [Process] draws the quad once, at its end, or not at all.  With the
    operator and the transfer function within the enumerations, [Process]
    never runs into undefined behaviour.  When it returns normally it has
    issued the one draw of four vertices as its last call, with the pixel
    shader of the current permutation bound.  When it throws (a collaborator
    failed) it has issued no draw. *)
Theorem Process_draws_once (xbox_one_title : bool) answers (setCustomState : bool) s :
  (0 ≤ ToneMap.op (ToneMapProcess.impl s) < ToneMap.Operator_Max) →
  (0 ≤ ToneMap.func (ToneMapProcess.impl s) < ToneMap.TransferFunction_Max) →
  let r := ToneMapProcess.Process xbox_one_title answers setCustomState s in
  r.1.2 ≠ Undefined
  ∧ (r.1.2 = Normal tt →
     ToneMapProcess.draws_issued r.1.1 = [(4, 0)]
     ∧ last r.1.1 = Some (ToneMapProcess.Draw 4 0)
     ∧ Normal <$> ToneMapProcess.pixel_shaders_set r.1.1
       = [ToneMap.GetPixelShader xbox_one_title
            (ToneMap.GetCurrentShaderPermutation xbox_one_title (ToneMapProcess.impl s))])
  ∧ (∀ e, r.1.2 = Throws e → ToneMapProcess.draws_issued r.1.1 = []).
Proof.
  intros Hop Hfunc r. unfold r.
  destruct (permutation_in_table xbox_one_title (ToneMapProcess.impl s) Hop Hfunc)
    as (shaderIndex & Hsel & _).
  unfold_Process. rewrite Hsel. simpl.
  run_Process; repeat split; try done; intros; done.
Qed.

(** *** The dirty flags *)

Lemma land_clear_bit0 (d : Z) : Z.land (Z.land d (Z.lnot 1)) 1 = 0.
Proof. rewrite <- Z.land_assoc. change (Z.land (Z.lnot 1) 1) with 0. apply Z.land_0_r. Qed.

Lemma land_clear_bit0_keeps_bit1 (d : Z) : Z.land (Z.land d (Z.lnot 1)) 2 = Z.land d 2.
Proof. rewrite <- Z.land_assoc. by change (Z.land (Z.lnot 1) 2) with 2. Qed.

Lemma land_set_bit0 (d : Z) : Z.land (Z.lor d 1) 1 = 1.
Proof.
  rewrite Z.land_lor_distr_l. change (Z.land 1 1) with 1.
  change 1 with (Z.ones 1) at 1. rewrite Z.land_ones by done.
  change (2 ^ 1) with 2.
  assert (Hmod : d mod 2 = 0 ∨ d mod 2 = 1) by (pose proof (Z.mod_pos_bound d 2); lia).
  by destruct Hmod as [-> | ->].
Qed.

Lemma land_parameters_taken (d : Z) : Z.land (Z.lor (Z.land d (Z.lnot 2)) 1) 2 = 0.
Proof.
  rewrite Z.land_lor_distr_l, <- Z.land_assoc.
  change (Z.land (Z.lnot 2) 2) with 0. change (Z.land 1 2) with 0.
  by rewrite Z.land_0_r.
Qed.

Lemma Process_leaves_clean answers (setCustomState : bool) s :
  let r := ToneMapProcess.Process false answers setCustomState s in
  r.1.2 = Normal tt → ToneMapProcess.clean r.2.
Proof.
  intros r. unfold r, ToneMapProcess.clean,
    ToneMapProcess.Dirty_ConstantBuffer, ToneMapProcess.Dirty_Parameters.
  unfold_Process.
  destruct (ToneMap.GetPixelShader false _) as [shaderIndex|e|]; simpl;
    [|run_Process; done..].
  destruct ((ToneMap.func (ToneMapProcess.impl s) =? ToneMap.ST2084)
            || ToneMap.mrt (ToneMapProcess.impl s)) eqn:Hblock.
  2: { run_Process; try done; intros _; left; done. }
  unfold ToneMapProcess.Dirty_ConstantBuffer, ToneMapProcess.Dirty_Parameters.
  destruct (Z.land (ToneMap.mDirtyFlags (ToneMapProcess.impl s)) 2 =? 0) eqn:Hp; simpl.
  - apply Z.eqb_eq in Hp.
    destruct (Z.land (ToneMap.mDirtyFlags (ToneMapProcess.impl s)) 1 =? 0) eqn:Hc; simpl.
    + apply Z.eqb_eq in Hc. run_Process; try done; intros _; right; done.
    + run_Process; try done; intros _; right;
        by rewrite land_clear_bit0, land_clear_bit0_keeps_bit1.
  - rewrite land_set_bit0. simpl.
    run_Process; try done; intros _; right;
      by rewrite land_clear_bit0, land_clear_bit0_keeps_bit1, land_parameters_taken.
Qed.

Lemma Process_of_clean answers (setCustomState : bool) s :
  ToneMapProcess.clean s →
  let r := ToneMapProcess.Process false answers setCustomState s in
  ToneMapProcess.uploads r.1.1 = [] ∧ r.2 = s.
Proof.
  intros Hclean r. unfold r.
  unfold ToneMapProcess.clean, ToneMapProcess.Dirty_ConstantBuffer,
    ToneMapProcess.Dirty_Parameters in Hclean.
  unfold_Process.
  unfold ToneMapProcess.Dirty_ConstantBuffer, ToneMapProcess.Dirty_Parameters.
  destruct Hclean as [Hblock | [Hc Hp]].
  - rewrite Hblock.
    destruct (ToneMap.GetPixelShader false _) as [shaderIndex|e|]; simpl;
      run_Process; done.
  - rewrite Hp.
    destruct (ToneMap.GetPixelShader false _) as [shaderIndex|e|]; simpl;
      run_Process; try done;
      match goal with
      | H : negb (Z.land _ 1 =? 0) = true |- _ => by rewrite Hc in H
      end.
Qed.

(** The test [func == ST2084 || mrt]. *)
Lemma constants_block (i : ToneMap.Impl) :
  ToneMap.func i = ToneMap.ST2084 ∨ ToneMap.mrt i = true →
  (ToneMap.func i =? ToneMap.ST2084) || ToneMap.mrt i = true.
Proof.
  intros [Hf|Hm]; apply orb_true_iff; [left; by apply Z.eqb_eq|by right].
Qed.

(** Off Xbox One, a [Process] that ran its constants block and returned
    normally has cleared both dirty flags. *)
Lemma Process_clears_flags answers (setCustomState : bool) s :
  (ToneMap.func (ToneMapProcess.impl s) =? ToneMap.ST2084)
  || ToneMap.mrt (ToneMapProcess.impl s) = true →
  let r := ToneMapProcess.Process false answers setCustomState s in
  r.1.2 = Normal tt →
  Z.land (ToneMap.mDirtyFlags (ToneMapProcess.impl r.2))
         ToneMapProcess.Dirty_Parameters = 0
  ∧ Z.land (ToneMap.mDirtyFlags (ToneMapProcess.impl r.2))
           ToneMapProcess.Dirty_ConstantBuffer = 0.
Proof.
  intros Hblock r. unfold r.
  unfold ToneMapProcess.Dirty_ConstantBuffer, ToneMapProcess.Dirty_Parameters.
  unfold_Process.
  destruct (ToneMap.GetPixelShader false _) as [shaderIndex|e|]; simpl;
    [|run_Process; done..].
  rewrite Hblock.
  unfold ToneMapProcess.Dirty_ConstantBuffer, ToneMapProcess.Dirty_Parameters.
  destruct (Z.land (ToneMap.mDirtyFlags (ToneMapProcess.impl s)) 2 =? 0) eqn:Hp; simpl.
  - apply Z.eqb_eq in Hp.
    destruct (Z.land (ToneMap.mDirtyFlags (ToneMapProcess.impl s)) 1 =? 0) eqn:Hc; simpl.
    + apply Z.eqb_eq in Hc. run_Process; try done; intros _; done.
    + run_Process; try done; intros _;
        by rewrite land_clear_bit0, land_clear_bit0_keeps_bit1.
  - rewrite land_set_bit0. simpl.
    run_Process; try done; intros _;
      by rewrite land_clear_bit0, land_clear_bit0_keeps_bit1, land_parameters_taken.
Qed.

(** X21.  The constants are uploaded once.  Off Xbox One, once [Process] has
    returned normally, a second [Process] with no setter called in between
    uploads nothing to the constant buffer and leaves the state of the
    object as it is, whatever the collaborators answer.  When the transfer
    function is ST2084 or the MRT flag is set, the first call has left both
    dirty flags clear. *)
Theorem Process_uploads_once answers answers' (setCustomState setCustomState' : bool) s :
  let r := ToneMapProcess.Process false answers setCustomState s in
  r.1.2 = Normal tt →
  let r' := ToneMapProcess.Process false answers' setCustomState' r.2 in
  ToneMapProcess.uploads r'.1.1 = [] ∧ r'.2 = r.2
  ∧ (ToneMap.func (ToneMapProcess.impl s) = ToneMap.ST2084
     ∨ ToneMap.mrt (ToneMapProcess.impl s) = true →
     Z.land (ToneMap.mDirtyFlags (ToneMapProcess.impl r.2))
            ToneMapProcess.Dirty_Parameters = 0
     ∧ Z.land (ToneMap.mDirtyFlags (ToneMapProcess.impl r.2))
              ToneMapProcess.Dirty_ConstantBuffer = 0).
Proof.
  intros r Hr r'.
  destruct (Process_of_clean answers' setCustomState' r.2
              (Process_leaves_clean answers setCustomState s Hr)) as [Hu Hs].
  split; [exact Hu|]. split; [exact Hs|].
  intros Hblock. apply Process_clears_flags; [by apply constants_block|exact Hr].
Qed.

(** X22.  The paper-white level reaches the constant buffer.  On either build,
    with the transfer function ST2084 or the MRT flag set, the [Process]
    that follows [SetHDR10Parameter] and returns normally uploads the value
    that was set, once, and keeps it in [constants]. *)
Theorem SetHDR10Parameter_then_Process (xbox_one_title : bool) answers
    (setCustomState : bool) s (value : float) :
  ToneMap.func (ToneMapProcess.impl s) = ToneMap.ST2084
  ∨ ToneMap.mrt (ToneMapProcess.impl s) = true →
  let r := ToneMapProcess.Process xbox_one_title answers setCustomState
             (ToneMapProcess.SetHDR10Parameter s value) in
  r.1.2 = Normal tt →
  ToneMapProcess.uploads r.1.1 = [value]
  ∧ ToneMapProcess.constants r.2 = value
  ∧ ToneMapProcess.paperWhiteNits r.2 = value.
Proof.
  intros Hblock%constants_block r. unfold r. unfold_Process. simpl. rewrite Hblock.
  destruct (ToneMap.GetPixelShader xbox_one_title _) as [shaderIndex|e|]; simpl;
    run_Process; done.
Qed.

(** X23.  On Xbox One every [Process] uploads.  With the transfer function
    ST2084 or the MRT flag set, a [Process] of the Xbox One build that
    returns normally has uploaded the constants it leaves, once, whatever
    the dirty flags were. *)
Theorem Process_xbox_uploads_always answers (setCustomState : bool) s :
  ToneMap.func (ToneMapProcess.impl s) = ToneMap.ST2084
  ∨ ToneMap.mrt (ToneMapProcess.impl s) = true →
  let r := ToneMapProcess.Process true answers setCustomState s in
  r.1.2 = Normal tt →
  ToneMapProcess.uploads r.1.1 = [ToneMapProcess.constants r.2].
Proof.
  intros Hblock%constants_block r. unfold r. unfold_Process. rewrite Hblock.
  destruct (ToneMap.GetPixelShader true _) as [shaderIndex|e|]; simpl;
    run_Process; done.
Qed.

End MoreProcess.

(** ** The further properties at work *)

Import MoreSample.

(** X2 at work.  Each part once, at the three meshes. *)
Lemma Model_Draw_each_part_once_witness :
  Forall (λ part, is_Some (effect part)) (all_parts three_meshes)
  ∧ draws (calls (Model_Draw three_meshes 5%nat 6%nat 7%nat false false))
    ≡ₚ part_draw <$> all_parts three_meshes.
Proof.
  assert (H : Forall (λ part, is_Some (effect part)) (all_parts three_meshes))
    by (repeat constructor; by eexists).
  split; [exact H|].
  exact (Model_Draw_each_part_once three_meshes 5%nat 6%nat 7%nat false false H).
Defined.

(** X3 at work.  The render states, at the three meshes. *)
Lemma Model_Draw_render_states_witness :
  Forall (λ part, is_Some (effect part)) (all_parts three_meshes)
  ∧ draw_states no_state (calls (Model_Draw three_meshes 5%nat 6%nat 7%nat false false))
    = [state_of_pass mixed_mesh false false; state_of_pass mixed_mesh false false;
       state_of_pass opaque_mesh false false;
       state_of_pass alpha_mesh true false; state_of_pass mixed_mesh true false].
Proof.
  assert (H : Forall (λ part, is_Some (effect part)) (all_parts three_meshes))
    by (repeat constructor; by eexists).
  split; [exact H|].
  exact (Model_Draw_render_states three_meshes 5%nat 6%nat 7%nat false false no_state H).
Defined.

(** X6 at work.  The rigid fallback, at the two meshes and an array of one matrix. *)
Lemma Model_Draw_bones_rigid_fallback_witness :
  1%N = N.of_nat (length [10%nat])
  ∧ Forall (λ mesh, boneIndex mesh = c_Invalid ∨ (1 ≤ boneIndex mesh)%N)
           (meshes two_meshes)
  ∧ Model_Draw_bones c_Invalid two_meshes 1 (Some [10%nat]) 6%nat 7%nat false false
    = Model_Draw two_meshes 10%nat 6%nat 7%nat false false.
Proof.
  assert (H1 : 1%N = N.of_nat (length [10%nat])) by reflexivity.
  assert (H2 : Forall (λ mesh, boneIndex mesh = c_Invalid ∨ (1 ≤ boneIndex mesh)%N)
                      (meshes two_meshes)).
  { constructor; [by left|]. constructor; [right; simpl; lia|constructor]. }
  split; [exact H1|]. split; [exact H2|].
  exact (Model_Draw_bones_rigid_fallback c_Invalid two_meshes 10%nat [] 1 6%nat 7%nat
           false false H1 H2).
Defined.

(** X7 at work.  The exceptions of the skinned draw, at the model that skins without
    bone influences. *)
Lemma Model_DrawSkinned_exceptions_witness :
  result (Model_DrawSkinned c_Invalid skinned_model 1 (Some [10%nat]) 6%nat 7%nat
                            false false)
  = Throws (std_runtime_error "Skinning a model requires bone influences")
  ∧ ((InvalidArgument (std_runtime_error "Skinning a model requires bone influences")
      ∧ (1%N = 0%N ∨ Some [10%nat] = None))
     ∨ (MissingSkinningData (std_runtime_error "Skinning a model requires bone influences")
        ∧ 1%N ≠ 0%N ∧ Some [10%nat] ≠ None
        ∧ ∃ mesh part, mesh ∈ meshes skinned_model ∧ part ∈ meshParts mesh
                       ∧ boneInfluences mesh = [] ∧ skinning_part part = true)).
Proof.
  assert (H : result (Model_DrawSkinned c_Invalid skinned_model 1 (Some [10%nat])
                        6%nat 7%nat false false)
              = Throws (std_runtime_error "Skinning a model requires bone influences"))
    by reflexivity.
  split; [exact H|].
  exact (Model_DrawSkinned_exceptions c_Invalid skinned_model 1 (Some [10%nat])
           6%nat 7%nat false false _ H).
Defined.

(** X8 at work.  Skinning with bone influences, at the mesh that has them. *)
Lemma ModelMesh_DrawSkinned_with_influences_witness :
  [10; 20]%nat ≠ [] ∧ 2%N = N.of_nat (length [10; 20]%nat)
  ∧ boneInfluences skinned_with_influences ≠ []
  ∧ Forall (λ part, is_Some (effect part))
           (parts_of_pass false (meshParts skinned_with_influences))
  ∧ let r := ModelMesh_DrawSkinned c_Invalid skinned_with_influences 2
               (Some [10; 20]%nat) 6%nat 7%nat false false in
    result r = Normal tt
    ∧ draws (calls r) = [(3%N, 0%N, 0%Z); (9%N, 9%N, 0%Z)]
    ∧ views_pushed (calls r) = [(48%N, 6%nat); (32%N, 6%nat)]
    ∧ projections_pushed (calls r) = [(48%N, 7%nat); (32%N, 7%nat)].
Proof.
  assert (H1 : [10; 20]%nat ≠ []) by done.
  assert (H2 : 2%N = N.of_nat (length [10; 20]%nat)) by reflexivity.
  assert (H3 : boneInfluences skinned_with_influences ≠ []) by done.
  assert (H4 : Forall (λ part, is_Some (effect part))
                      (parts_of_pass false (meshParts skinned_with_influences)))
    by (repeat constructor; by eexists).
  split; [exact H1|]. split; [exact H2|]. split; [exact H3|]. split; [exact H4|].
  exact (ModelMesh_DrawSkinned_with_influences c_Invalid skinned_with_influences
           [10; 20]%nat 2 6%nat 7%nat false false H1 H2 H3 H4).
Defined.

(** X10 at work.  [CreateInputLayout] with a valid declaration, on the failing device. *)
Lemma CreateInputLayout_with_valid_descriptor_witness :
  ¬ descriptor_invalid unbound_part
  ∧ let r := @ModelMeshPart_CreateInputLayout nat unbound_part failing_device
               (Some plain_effect) (Some (Some 5%N)) in
    ∃ decl, vbDecl unbound_part = Some decl
      ∧ calls (r.2 : @exec nat unit) = [CreateInputLayoutFromEffect (Some 16%N) decl]
      ∧ r.1 = Some None
      ∧ result (r.2 : @exec nat unit) = Throws (com_exception (-2147024809)).
Proof.
  assert (H : ¬ descriptor_invalid unbound_part).
  { intros [Hempty|Hlong]; [done|]. simpl in Hlong. unfold
      D3D11_IA_VERTEX_INPUT_STRUCTURE_ELEMENT_COUNT in Hlong. lia. }
  split; [exact H|].
  exact (CreateInputLayout_with_valid_descriptor (XMMATRIX := nat) unbound_part
           failing_device (Some plain_effect) (Some (Some 5%N)) H).
Defined.

(** X11 at work.  [ModifyEffect] with a valid declaration, on the failing device: the
    part is rebound although the call throws. *)
Lemma ModifyEffect_with_valid_descriptor_witness :
  ¬ descriptor_invalid unbound_part
  ∧ let r := @ModelMeshPart_ModifyEffect nat unbound_part failing_device
               (Some matrix_effect) true in
    ∃ decl, vbDecl unbound_part = Some decl
      ∧ effect r.1 = Some matrix_effect
      ∧ isAlpha r.1 = true
      ∧ inputLayout r.1 = None
      ∧ part_draw r.1 = part_draw unbound_part
      ∧ vbDecl r.1 = vbDecl unbound_part
      ∧ calls (r.2 : @exec nat unit) = [CreateInputLayoutFromEffect (Some 32%N) decl]
      ∧ result (r.2 : @exec nat unit) = Throws (com_exception (-2147024809)).
Proof.
  assert (H : ¬ descriptor_invalid unbound_part).
  { intros [Hempty|Hlong]; [done|]. simpl in Hlong. unfold
      D3D11_IA_VERTEX_INPUT_STRUCTURE_ELEMENT_COUNT in Hlong. lia. }
  split; [exact H|].
  exact (ModifyEffect_with_valid_descriptor (XMMATRIX := nat) unbound_part
           failing_device (Some matrix_effect) true H).
Defined.

(** X12 at work.  [ModifyEffect] then [Draw]: the part without effect of a mesh of three
    is bound to an effect as an alpha part, and drawn in the alpha pass
    only. *)
Lemma ModifyEffect_then_Draw_witness :
  ¬ descriptor_invalid unbound_part
  ∧ Forall (λ p, is_Some (effect p))
           ([make_part (Some plain_effect) true 6 3 (Some [0])]
            ++ [make_part (Some plain_effect) false 9 9 (Some [0])])
  ∧ (let part' := (@ModelMeshPart_ModifyEffect nat unbound_part device
                     (Some matrix_effect) true).1 in
     let r := ModelMesh_Draw
                (with_parts mixed_mesh
                   ([make_part (Some plain_effect) true 6 3 (Some [0])]
                    ++ part' :: [make_part (Some plain_effect) false 9 9 (Some [0])]))
                5%nat 6%nat 7%nat true false in
     result r = Normal tt
     ∧ draws (calls r) = [(6%N, 3%N, 0%Z); (3%N, 0%N, 0%Z)])
  ∧ (let part' := (@ModelMeshPart_ModifyEffect nat unbound_part device
                     (Some matrix_effect) true).1 in
     let r := ModelMesh_Draw
                (with_parts mixed_mesh
                   ([make_part (Some plain_effect) true 6 3 (Some [0])]
                    ++ part' :: [make_part (Some plain_effect) false 9 9 (Some [0])]))
                5%nat 6%nat 7%nat false false in
     result r = Normal tt
     ∧ draws (calls r) = [(9%N, 9%N, 0%Z)]).
Proof.
  assert (H1 : ¬ descriptor_invalid unbound_part).
  { intros [Hempty|Hlong]; [done|]. simpl in Hlong. unfold
      D3D11_IA_VERTEX_INPUT_STRUCTURE_ELEMENT_COUNT in Hlong. lia. }
  assert (H2 : Forall (λ p, is_Some (effect p))
                 ([make_part (Some plain_effect) true 6 3 (Some [0])]
                  ++ [make_part (Some plain_effect) false 9 9 (Some [0])]))
    by (repeat constructor; by eexists).
  split; [exact H1|]. split; [exact H2|]. split.
  - exact (ModifyEffect_then_Draw mixed_mesh _ _ unbound_part device matrix_effect true
             5%nat 6%nat 7%nat true false H1 H2).
  - exact (ModifyEffect_then_Draw mixed_mesh _ _ unbound_part device matrix_effect true
             5%nat 6%nat 7%nat false false H1 H2).
Defined.

(** X14 at work.  The permutation of the filmic operator under gamma 2.2 with two render
    targets, read back. *)
Lemma GetCurrentShaderPermutation_decodes_witness :
  let impl := {| ToneMap.op := ToneMap.ACESFilmic; ToneMap.func := ToneMap.SRGB;
                 ToneMap.mrt := true; ToneMap.mUseConstants := false;
                 ToneMap.mDirtyFlags := ToneMap.INT_MAX |} in
  (0 ≤ ToneMap.op impl < ToneMap.Operator_Max)%Z
  ∧ (0 ≤ ToneMap.func impl < ToneMap.TransferFunction_Max)%Z
  ∧ ToneMap.GetCurrentShaderPermutation true impl = 19%Z
  ∧ (ToneMap.op impl = 19 mod ToneMap.Operator_Max
     ∧ ToneMap.func impl = (19 / ToneMap.Operator_Max) mod ToneMap.TransferFunction_Max
     ∧ (true = true →
        ToneMap.mrt impl
        = (ToneMap.Operator_Max * ToneMap.TransferFunction_Max <=? 19)))%Z.
Proof.
  intros impl.
  assert (H1 : (0 ≤ ToneMap.op impl < ToneMap.Operator_Max)%Z) by (by vm_compute).
  assert (H2 : (0 ≤ ToneMap.func impl < ToneMap.TransferFunction_Max)%Z)
    by (by vm_compute).
  split; [exact H1|]. split; [exact H2|]. split; [reflexivity|].
  exact (GetCurrentShaderPermutation_decodes true impl H1 H2).
Defined.

(** X15 at work.  The last pixel shader of the Xbox One build is selected. *)
Lemma every_pixel_shader_selected_witness :
  (0 ≤ 12 < ToneMap.PixelShaderCount true)%Z
  ∧ ∃ impl, ToneMap.reachable true impl
            ∧ ToneMap.GetPixelShader true (ToneMap.GetCurrentShaderPermutation true impl)
              = Normal 12%Z.
Proof.
  assert (H : (0 ≤ 12 < ToneMap.PixelShaderCount true)%Z) by (by vm_compute).
  split; [exact H|].
  exact (every_pixel_shader_selected true 12 H).
Defined.

(** X16 at work.  The HDR10 shader, at the tone mapper set to ST.2084. *)
Lemma ST2084_ignores_operator_witness :
  (0 ≤ ToneMap.op hdr10 < ToneMap.Operator_Max)%Z
  ∧ ToneMap.func hdr10 = ToneMap.ST2084
  ∧ ToneMap.GetPixelShader false (ToneMap.GetCurrentShaderPermutation false hdr10)
    = Normal 7%Z.
Proof.
  assert (H1 : (0 ≤ ToneMap.op hdr10 < ToneMap.Operator_Max)%Z) by (by vm_compute).
  assert (H2 : ToneMap.func hdr10 = ToneMap.ST2084) by reflexivity.
  split; [exact H1|]. split; [exact H2|].
  exact (ST2084_ignores_operator false hdr10 H1 H2).
Defined.

(** X17 at work.  The selection in bounds, at the state the constructor leaves. *)
Lemma reachable_selection_in_bounds_witness :
  ToneMap.reachable false ToneMap.Impl_new
  ∧ ∃ shaderIndex,
      ToneMap.GetPixelShader false
        (ToneMap.GetCurrentShaderPermutation false ToneMap.Impl_new) = Normal shaderIndex
      ∧ (0 ≤ shaderIndex < ToneMap.PixelShaderCount false)%Z.
Proof.
  assert (H : ToneMap.reachable false ToneMap.Impl_new)
    by (by apply (ToneMap.reachable_new false ToneMap.D3D_FEATURE_LEVEL_10_0)).
  split; [exact H|].
  exact (reachable_selection_in_bounds false ToneMap.Impl_new H).
Defined.

(** X20 at work.  [Process] without constants, at the state the constructor leaves. *)
Lemma Process_without_constants_witness :
  ToneMap.func (ToneMapProcess.impl linear_state) ≠ ToneMap.ST2084
  ∧ ToneMap.mrt (ToneMapProcess.impl linear_state) = false
  ∧ let r := ToneMapProcess.Process false willing true linear_state in
    r.2 = linear_state
    ∧ ToneMapProcess.uploads r.1.1 = []
    ∧ Forall (λ c, ToneMapProcess.binds_constants c = false) r.1.1.
Proof.
  assert (H1 : ToneMap.func (ToneMapProcess.impl linear_state) ≠ ToneMap.ST2084)
    by done.
  assert (H2 : ToneMap.mrt (ToneMapProcess.impl linear_state) = false) by reflexivity.
  split; [exact H1|]. split; [exact H2|].
  exact (Process_without_constants false willing true linear_state H1 H2).
Defined.

(** [Process] at the tone mapper set to ST.2084: the calls, in order. *)
Example hdr10_Process :
  (ToneMapProcess.Process false willing true hdr10_state).1
  = ([ToneMapProcess.PSSetShaderResources 0 1 (Some 4096%N);
      ToneMapProcess.DemandCreate ToneMapProcess.Sampler;
      ToneMapProcess.PSSetSamplers 0 1;
      ToneMapProcess.DemandCreate ToneMapProcess.VertexShader;
      ToneMapProcess.DemandCreate (ToneMapProcess.PixelShader 7);
      ToneMapProcess.VSSetShader;
      ToneMapProcess.PSSetShader 7;
      ToneMapProcess.SetData 200%nat;
      ToneMapProcess.PSSetConstantBuffers 0 1;
      ToneMapProcess.SetCustomState;
      ToneMapProcess.IASetPrimitiveTopology_TRIANGLESTRIP;
      ToneMapProcess.Draw 4 0], Normal tt).
Proof. reflexivity. Qed.

(** X19 at work.  [Process] draws once, at the tone mapper set to ST.2084. *)
Lemma Process_draws_once_witness :
  (0 ≤ ToneMap.op (ToneMapProcess.impl hdr10_state) < ToneMap.Operator_Max)%Z
  ∧ (0 ≤ ToneMap.func (ToneMapProcess.impl hdr10_state) < ToneMap.TransferFunction_Max)%Z
  ∧ let r := ToneMapProcess.Process false willing true hdr10_state in
    r.1.2 ≠ Undefined
    ∧ (r.1.2 = Normal tt →
       ToneMapProcess.draws_issued r.1.1 = [(4, 0)%Z]
       ∧ last r.1.1 = Some (ToneMapProcess.Draw 4 0)
       ∧ Normal <$> ToneMapProcess.pixel_shaders_set r.1.1
         = [ToneMap.GetPixelShader false
              (ToneMap.GetCurrentShaderPermutation false
                 (ToneMapProcess.impl hdr10_state))])
    ∧ (∀ e, r.1.2 = Throws e → ToneMapProcess.draws_issued r.1.1 = []).
Proof.
  assert (H1 : (0 ≤ ToneMap.op (ToneMapProcess.impl hdr10_state)
                < ToneMap.Operator_Max)%Z) by (by vm_compute).
  assert (H2 : (0 ≤ ToneMap.func (ToneMapProcess.impl hdr10_state)
                < ToneMap.TransferFunction_Max)%Z) by (by vm_compute).
  split; [exact H1|]. split; [exact H2|].
  exact (Process_draws_once false willing true hdr10_state H1 H2).
Defined.

(** X21 at work.  The second [Process] uploads nothing, at the tone mapper set to
    ST.2084 with both dirty flags set. *)
Lemma Process_uploads_once_witness :
  let r := ToneMapProcess.Process false willing true hdr10_state in
  r.1.2 = Normal tt
  ∧ ToneMapProcess.uploads r.1.1 = [200%nat]
  ∧ (ToneMap.func (ToneMapProcess.impl hdr10_state) = ToneMap.ST2084
     ∨ ToneMap.mrt (ToneMapProcess.impl hdr10_state) = true)
  ∧ let r' := ToneMapProcess.Process false willing false r.2 in
    ToneMapProcess.uploads r'.1.1 = [] ∧ r'.2 = r.2
    ∧ Z.land (ToneMap.mDirtyFlags (ToneMapProcess.impl r.2))
             ToneMapProcess.Dirty_Parameters = 0%Z
    ∧ Z.land (ToneMap.mDirtyFlags (ToneMapProcess.impl r.2))
             ToneMapProcess.Dirty_ConstantBuffer = 0%Z.
Proof.
  intros r.
  assert (H : r.1.2 = Normal tt) by reflexivity.
  assert (Hblock : ToneMap.func (ToneMapProcess.impl hdr10_state) = ToneMap.ST2084
                   ∨ ToneMap.mrt (ToneMapProcess.impl hdr10_state) = true)
    by (by left).
  split; [exact H|]. split; [reflexivity|]. split; [exact Hblock|].
  destruct (Process_uploads_once willing willing true false hdr10_state H)
    as (Hu & Hs & Hflags).
  split; [exact Hu|]. split; [exact Hs|]. exact (Hflags Hblock).
Defined.

(** X22 at work.  The paper-white level set to 80 reaches the constant buffer. *)
Lemma SetHDR10Parameter_then_Process_witness :
  (ToneMap.func (ToneMapProcess.impl hdr10_state) = ToneMap.ST2084
   ∨ ToneMap.mrt (ToneMapProcess.impl hdr10_state) = true)
  ∧ let r := ToneMapProcess.Process false willing false
               (ToneMapProcess.SetHDR10Parameter hdr10_state 80%nat) in
    r.1.2 = Normal tt
    ∧ ToneMapProcess.uploads r.1.1 = [80%nat]
    ∧ ToneMapProcess.constants r.2 = 80%nat
    ∧ ToneMapProcess.paperWhiteNits r.2 = 80%nat.
Proof.
  assert (H1 : ToneMap.func (ToneMapProcess.impl hdr10_state) = ToneMap.ST2084
               ∨ ToneMap.mrt (ToneMapProcess.impl hdr10_state) = true) by (by left).
  assert (H2 : (ToneMapProcess.Process false willing false
                  (ToneMapProcess.SetHDR10Parameter hdr10_state 80%nat)).1.2
               = Normal tt) by reflexivity.
  split; [exact H1|]. split; [exact H2|].
  exact (SetHDR10Parameter_then_Process false willing false hdr10_state 80%nat H1 H2).
Defined.

(** X23 at work.  On Xbox One the second [Process] uploads again. *)
Lemma Process_xbox_uploads_always_witness :
  let r := ToneMapProcess.Process true willing false hdr10_state in
  let r' := ToneMapProcess.Process true willing false r.2 in
  (ToneMap.func (ToneMapProcess.impl r.2) = ToneMap.ST2084
   ∨ ToneMap.mrt (ToneMapProcess.impl r.2) = true)
  ∧ r'.1.2 = Normal tt
  ∧ ToneMapProcess.uploads r'.1.1 = [ToneMapProcess.constants r'.2]
  ∧ ToneMapProcess.uploads r'.1.1 = [200%nat].
Proof.
  intros r r'.
  assert (H1 : ToneMap.func (ToneMapProcess.impl r.2) = ToneMap.ST2084
               ∨ ToneMap.mrt (ToneMapProcess.impl r.2) = true) by (by left).
  assert (H2 : r'.1.2 = Normal tt) by reflexivity.
  split; [exact H1|]. split; [exact H2|]. split; [|reflexivity].
  exact (Process_xbox_uploads_always willing false r.2 H1 H2).
Defined.
